(** * Timetable generator: the genetic-algorithm scheduling engine

    A shallow embedding of [GeneticAlgorithmTimetable] (src/app.py) and the
    properties of its builder, fitness function, genetic operators, evolution
    loop and persistence adapter.

    Conventions of the embedding:
    - Python integers are [Z]; a nullable integer column (a primary or
      foreign key, or the [id] of a [Room] that was never flushed to the
      database) is [option Z], [None] being Python's [None];
    - day names and wall-clock times are [string]s, as in the source;
    - [random] is an oracle: an infinite tape of naturals read from left to
      right, so that every theorem quantified over the tape holds for every
      behaviour of the generator;
    - a method that can raise, or loop, returns an [outcome]: [Ok], [Raise]
      or [Diverge] (the [while] loops take fuel: [Diverge] for every amount
      of fuel is non-termination). *)

From Stdlib Require Import String ZArith List Bool Lia Arith QArith Permutation Sorted.
Import ListNotations.
Local Open Scope string_scope.
Local Open Scope list_scope.
Local Open Scope Z_scope.

(* ------------------------------------------------------------------ *)
(** ** Outcomes and the state-and-exception monad *)

Inductive exn : Type := IndexError | ValueError | NameError.

Inductive outcome (S A : Type) : Type :=
| Ok (a : A) (s : S)
| Raise (e : exn) (s : S)
| Diverge.
Arguments Ok {S A} a s.
Arguments Raise {S A} e s.
Arguments Diverge {S A}.

Definition M (S A : Type) : Type := S -> outcome S A.

Definition ret {S A} (a : A) : M S A := fun s => Ok a s.

Definition bind {S A B} (c : M S A) (k : A -> M S B) : M S B :=
  fun s => match c s with
           | Ok a s' => k a s'
           | Raise e s' => Raise e s'
           | Diverge => Diverge
           end.

Definition raise {S A} (e : exn) : M S A := fun s => Raise e s.
Definition diverge {S A} : M S A := fun _ => Diverge.

Declare Scope ga_scope.
Delimit Scope ga_scope with ga.
Notation "x <- c ;; k" := (bind c (fun x => k))
  (at level 100, c at next level, right associativity) : ga_scope.
Local Open Scope ga_scope.

(** [try: ... except Exception:] — the handler sees the state the body
    reached; non-termination is not an exception. *)
Definition try_except {S A} (body : M S A) (handler : exn -> M S A) : M S A :=
  fun s => match body s with
           | Ok a s' => Ok a s'
           | Raise e s' => handler e s'
           | Diverge => Diverge
           end.

(** [for x in l: st = body x st] *)
Fixpoint for_each {S A St} (l : list A) (body : A -> St -> M S St) (st : St)
  : M S St :=
  match l with
  | [] => ret st
  | x :: l' => st' <- body x st ;; for_each l' body st'
  end.

(* ------------------------------------------------------------------ *)
(** ** The random module *)

Record Rng : Type := { tape : nat -> nat; pos : nat }.

Definition randbelow (n : nat) : M Rng nat :=
  fun g => Ok (tape g (pos g) mod n)%nat {| tape := tape g; pos := S (pos g) |}.

(** [random.choice(seq)]: [IndexError] on an empty sequence. *)
Definition choice {A} (seq : list A) : M Rng A :=
  match seq with
  | [] => raise IndexError
  | d :: _ => i <- randbelow (length seq) ;; ret (nth i seq d)
  end.

(** [random.randint(a, b)]: [ValueError] on an empty range. *)
Definition randint (a b : Z) : M Rng Z :=
  if b <? a then raise ValueError
  else i <- randbelow (Z.to_nat (b - a + 1)) ;; ret (a + Z.of_nat i).

(** [random.random()]: a multiple of 2^-53 in [0, 1). *)
Definition random_random : M Rng Q :=
  fun g => Ok (Z.of_nat (tape g (pos g)) mod 2 ^ 53 # 2 ^ 53)%Z
              {| tape := tape g; pos := S (pos g) |}.

Definition Qltb (x y : Q) : bool :=
  (Qnum x * Zpos (Qden y) <? Qnum y * Zpos (Qden x))%Z.

(* ------------------------------------------------------------------ *)
(** ** Python values *)

Definition ident : Type := option Z.

(** [if x:] on a nullable integer. *)
Definition truthy (x : ident) : bool :=
  match x with
  | Some z => negb (z =? 0)
  | None => false
  end.

Definition ident_eqb (x y : ident) : bool :=
  match x, y with
  | Some a, Some b => a =? b
  | None, None => true
  | _, _ => false
  end.

Definition ident_eq_dec (x y : ident) : {x = y} + {x <> y}.
Proof. repeat decide equality. Defined.

(** [l[i]] with Python's negative indices; [None] is [IndexError]. *)
Definition getitem {A} (l : list A) (i : Z) : option A :=
  let n := Z.of_nat (length l) in
  if 0 <=? i then nth_error l (Z.to_nat i)
  else if 0 <=? n + i then nth_error l (Z.to_nat (n + i))
  else None.

Definition getitem_m {S A} (l : list A) (i : Z) : M S A :=
  match getitem l i with
  | Some x => ret x
  | None => raise IndexError
  end.

(* ------------------------------------------------------------------ *)
(** ** Database rows read by the engine *)

(** The two weekly counts are integers: the form handler parses them with
    [type=int], the columns default to 3 and 2. *)
Record ClassSubject : Type := {
  cs_id : ident;
  cs_subject_id : ident;
  cs_faculty_id : ident;
  lecture_slots_per_week : Z;
  practical_slots_per_week : Z
}.

Record Batch : Type := {
  b_id : ident;
  mentor_id : ident
}.

Record Room : Type := {
  r_id : ident;
  room_number : string;
  room_type : string;
  capacity : Z
}.

(* ------------------------------------------------------------------ *)
(** ** Sessions and individuals *)

Record lecture : Type := {
  l_class_subject_id : ident;
  l_subject_id : ident;
  l_faculty_id : ident;
  l_room_id : ident;
  l_day : string;
  l_slot_number : Z;
  l_start_time : string;
  l_end_time : string;
  l_session_type : string
}.

Record practical : Type := {
  p_batch_id : ident;
  p_subject_id : ident;
  p_faculty_id : ident;
  p_room_id : ident;
  p_day : string;
  p_start_slot : Z;
  p_end_slot : Z;
  p_start_time : string;
  p_end_time : string;
  p_session_type : string
}.

Record mentoring : Type := {
  m_batch_id : ident;
  m_faculty_id : ident;
  m_room_id : ident;
  m_day : string;
  m_slot_number : Z;
  m_start_time : string;
  m_end_time : string;
  m_session_type : string
}.

(** An individual is a dict of three lists.  The builder, the conflict
    predicates and the fitness function see the session dicts themselves
    ([individual]); the evolution loop sees references to them in the object
    store ([individual_ref], below). *)
Record individual_of (L P Mt : Type) : Type := {
  lectures : list L;
  practicals : list P;
  mentorings : list Mt
}.
Arguments lectures {L P Mt} _.
Arguments practicals {L P Mt} _.
Arguments mentorings {L P Mt} _.
Arguments Build_individual_of {L P Mt} _ _ _.

Definition individual : Type := individual_of lecture practical mentoring.

Definition empty_individual : individual :=
  {| lectures := []; practicals := []; mentorings := [] |}.

Definition append_lecture (ind : individual) (l : lecture) : individual :=
  {| lectures := lectures ind ++ [l];
     practicals := practicals ind;
     mentorings := mentorings ind |}.

Definition append_practical (ind : individual) (p : practical) : individual :=
  {| lectures := lectures ind;
     practicals := practicals ind ++ [p];
     mentorings := mentorings ind |}.

Definition append_mentoring (ind : individual) (m : mentoring) : individual :=
  {| lectures := lectures ind;
     practicals := practicals ind;
     mentorings := mentorings ind ++ [m] |}.

(* ------------------------------------------------------------------ *)
(** ** The engine object and its constructor *)

Definition time_slot : Type := (Z * string * string * bool)%type.
Definition ts_start (t : time_slot) : string := snd (fst (fst t)).
Definition ts_end (t : time_slot) : string := snd (fst t).

(** The attributes of [self] that the methods read. *)
Record Engine : Type := {
  days : list string;
  time_slots : list time_slot;
  lecture_slots : list Z;
  class_subjects : list ClassSubject;
  batches : list Batch;
  rooms : list Room;
  classrooms : list Room;
  labs : list Room
}.

(** [app.config] *)
Definition DAYS : list string :=
  ["Monday"; "Tuesday"; "Wednesday"; "Thursday"; "Friday"].
Definition LECTURE_SLOT_INDICES : list Z := [0; 1; 3; 4; 5; 6].

Definition TIME_SLOTS : list time_slot :=
  [ (0, "09:40", "10:40", false);
    (1, "10:50", "11:50", false);
    (2, "11:50", "12:40", true);
    (3, "12:40", "13:40", false);
    (4, "13:50", "14:50", false);
    (5, "15:00", "16:00", false);
    (6, "16:10", "17:10", false) ].

(** What the constructor's queries return. *)
Record Snapshot : Type := {
  db_class_subjects : list ClassSubject;
  db_batches : list Batch;
  db_rooms : list Room
}.

Definition default_classroom : Room :=
  {| r_id := None; room_number := "Default Classroom";
     room_type := "Classroom"; capacity := 60 |}.

Definition default_lab : Room :=
  {| r_id := None; room_number := "Default Lab";
     room_type := "Lab"; capacity := 40 |}.

Definition is_empty {A} (l : list A) : bool :=
  match l with [] => true | _ => false end.

(** [GeneticAlgorithmTimetable.__init__] *)
Definition init (db : Snapshot) : Engine :=
  let classrooms0 :=
    filter (fun r => String.eqb (room_type r) "Classroom") (db_rooms db) in
  let labs0 :=
    filter (fun r => String.eqb (room_type r) "Lab") (db_rooms db) in
  {| days := DAYS;
     time_slots := TIME_SLOTS;
     lecture_slots := LECTURE_SLOT_INDICES;
     class_subjects := db_class_subjects db;
     batches := db_batches db;
     rooms := db_rooms db;
     classrooms := if is_empty classrooms0 then [default_classroom] else classrooms0;
     labs := if is_empty labs0 then [default_lab] else labs0 |}.

(* ------------------------------------------------------------------ *)
(** ** Conflict predicates *)

(** [check_faculty_busy] *)
Definition check_faculty_busy (ind : individual) (faculty_id : ident)
           (day : string) (slot_number : Z) : bool :=
  if negb (truthy faculty_id) then false
  else if existsb (fun l => ident_eqb (l_faculty_id l) faculty_id
                            && String.eqb (l_day l) day
                            && (l_slot_number l =? slot_number))
                  (lectures ind) then true
  else if existsb (fun p => ident_eqb (p_faculty_id p) faculty_id
                            && String.eqb (p_day p) day
                            && ((p_start_slot p <=? slot_number)
                                && (slot_number <=? p_end_slot p)))
                  (practicals ind) then true
  else if existsb (fun m => ident_eqb (m_faculty_id m) faculty_id
                            && String.eqb (m_day m) day
                            && (m_slot_number m =? slot_number))
                  (mentorings ind) then true
  else false.

(** [[r for r in available if r.id != room_id]] *)
Definition remove_room (room_id : ident) (available : list Room) : list Room :=
  filter (fun r => negb (ident_eqb (r_id r) room_id)) available.

(** The classrooms left after the two loops of [find_available_classroom]. *)
Definition available_classrooms (self : Engine) (ind : individual)
           (day : string) (slot_number : Z) : list Room :=
  let after_lectures :=
    fold_left (fun available l =>
                 if String.eqb (l_day l) day && (l_slot_number l =? slot_number)
                 then remove_room (l_room_id l) available else available)
              (lectures ind) (classrooms self) in
  fold_left (fun available m =>
               if String.eqb (m_day m) day && (m_slot_number m =? slot_number)
               then remove_room (m_room_id m) available else available)
            (mentorings ind) after_lectures.

(** [find_available_classroom] *)
Definition find_available_classroom (self : Engine) (ind : individual)
           (day : string) (slot_number : Z) : M Rng (option Room) :=
  if is_empty (classrooms self) then ret None
  else
    let available := available_classrooms self ind day slot_number in
    if is_empty available then ret None
    else r <- choice available ;; ret (Some r).

(** The labs left after the loop of [find_available_lab]. *)
Definition available_labs (self : Engine) (ind : individual)
           (day : string) (start_slot end_slot : Z) : list Room :=
  fold_left (fun available p =>
               if String.eqb (p_day p) day
               then if negb ((end_slot <? p_start_slot p)
                             || (p_end_slot p <? start_slot))
                    then remove_room (p_room_id p) available
                    else available
               else available)
            (practicals ind) (labs self).

(** [find_available_lab] *)
Definition find_available_lab (self : Engine) (ind : individual)
           (day : string) (start_slot end_slot : Z) : M Rng (option Room) :=
  if is_empty (labs self) then ret None
  else
    let available := available_labs self ind day start_slot end_slot in
    if is_empty available then ret None
    else r <- choice available ;; ret (Some r).

(* ------------------------------------------------------------------ *)
(** ** The builder: [create_individual] *)

(** One pass through the body of the lecture [while] loop: [Some l] when the
    pass reaches [append] with the dict [l], [None] when it ends in
    [continue]. *)
Definition try_lecture (self : Engine) (cs : ClassSubject) (ind : individual)
  : M Rng (option lecture) :=
  day <- choice (days self) ;;
  slot_idx <- choice (lecture_slots self) ;;
  if slot_idx =? 2 then ret None
  else if check_faculty_busy ind (cs_faculty_id cs) day slot_idx then ret None
  else
    classroom <- find_available_classroom self ind day slot_idx ;;
    match classroom with
    | None => ret None
    | Some classroom =>
        slot <- getitem_m (time_slots self) slot_idx ;;
        ret (Some {| l_class_subject_id := cs_id cs;
                     l_subject_id := cs_subject_id cs;
                     l_faculty_id := cs_faculty_id cs;
                     l_room_id := r_id classroom;
                     l_day := day;
                     l_slot_number := slot_idx;
                     l_start_time := ts_start slot;
                     l_end_time := ts_end slot;
                     l_session_type := "Lecture" |})
    end.

(** [while scheduled < lecture_count: ...] *)
Fixpoint schedule_lectures (self : Engine) (fuel : nat) (cs : ClassSubject)
         (scheduled : Z) (ind : individual) : M Rng individual :=
  if scheduled <? lecture_slots_per_week cs then
    match fuel with
    | O => diverge
    | S fuel' =>
        placed <- try_lecture self cs ind ;;
        match placed with
        | None => schedule_lectures self fuel' cs scheduled ind
        | Some l =>
            schedule_lectures self fuel' cs (scheduled + 1) (append_lecture ind l)
        end
    end
  else ret ind.

(** [for slot in [start_slot, end_slot]: if check_faculty_busy(...): ...] *)
Definition faculty_busy_in (ind : individual) (faculty_id : ident)
           (day : string) (slots : list Z) : bool :=
  existsb (fun slot => check_faculty_busy ind faculty_id day slot) slots.

(** One pass through the body of the practical [while] loop. *)
Definition try_practical (self : Engine) (batch : Batch) (cs : ClassSubject)
           (ind : individual) : M Rng (option practical) :=
  day <- choice (days self) ;;
  start_slot <- choice [4; 5] ;;
  let end_slot := start_slot + 1 in
  if 6 <? end_slot then ret None
  else if faculty_busy_in ind (cs_faculty_id cs) day [start_slot; end_slot]
  then ret None
  else
    lab <- find_available_lab self ind day start_slot end_slot ;;
    match lab with
    | None => ret None
    | Some lab =>
        s <- getitem_m (time_slots self) start_slot ;;
        e <- getitem_m (time_slots self) end_slot ;;
        ret (Some {| p_batch_id := b_id batch;
                     p_subject_id := cs_subject_id cs;
                     p_faculty_id := cs_faculty_id cs;
                     p_room_id := r_id lab;
                     p_day := day;
                     p_start_slot := start_slot;
                     p_end_slot := end_slot;
                     p_start_time := ts_start s;
                     p_end_time := ts_end e;
                     p_session_type := "Practical" |})
    end.

(** [while scheduled < practical_count: ...] *)
Fixpoint schedule_practicals (self : Engine) (fuel : nat) (batch : Batch)
         (cs : ClassSubject) (scheduled : Z) (ind : individual)
  : M Rng individual :=
  if scheduled <? practical_slots_per_week cs then
    match fuel with
    | O => diverge
    | S fuel' =>
        placed <- try_practical self batch cs ind ;;
        match placed with
        | None => schedule_practicals self fuel' batch cs scheduled ind
        | Some p =>
            schedule_practicals self fuel' batch cs (scheduled + 1)
                                (append_practical ind p)
        end
    end
  else ret ind.

(** One pass through the body of the mentoring [for] loop. *)
Definition try_mentoring (self : Engine) (batch : Batch) (ind : individual)
  : M Rng (option mentoring) :=
  day <- choice (days self) ;;
  slot_idx <- choice (lecture_slots self) ;;
  if slot_idx =? 2 then ret None
  else if check_faculty_busy ind (mentor_id batch) day slot_idx then ret None
  else
    classroom <- find_available_classroom self ind day slot_idx ;;
    match classroom with
    | None => ret None
    | Some classroom =>
        slot <- getitem_m (time_slots self) slot_idx ;;
        ret (Some {| m_batch_id := b_id batch;
                     m_faculty_id := mentor_id batch;
                     m_room_id := r_id classroom;
                     m_day := day;
                     m_slot_number := slot_idx;
                     m_start_time := ts_start slot;
                     m_end_time := ts_end slot;
                     m_session_type := "Mentoring" |})
    end.

(** [for _ in range(tries): ... break] *)
Fixpoint schedule_mentoring (self : Engine) (tries : nat) (batch : Batch)
         (ind : individual) : M Rng individual :=
  match tries with
  | O => ret ind
  | S tries' =>
      placed <- try_mentoring self batch ind ;;
      match placed with
      | None => schedule_mentoring self tries' batch ind
      | Some m => ret (append_mentoring ind m)
      end
  end.

(** The body of the [try] block, up to [return individual]. *)
Definition build (self : Engine) (fuel : nat) (ind : individual)
  : M Rng individual :=
  ind1 <- for_each (class_subjects self)
            (fun cs ind => schedule_lectures self fuel cs 0 ind) ind ;;
  ind2 <- for_each (batches self)
            (fun batch ind =>
               for_each (class_subjects self)
                 (fun cs ind => schedule_practicals self fuel batch cs 0 ind)
                 ind)
            ind1 ;;
  for_each (batches self)
    (fun batch ind =>
       if truthy (mentor_id batch)
       then schedule_mentoring self 20 batch ind
       else ret ind)
    ind2.

(** [for attempt in range(attempts): try: ... except Exception: ...] *)
Fixpoint build_attempts (self : Engine) (fuel : nat) (attempts : nat)
         (ind : individual) : M Rng individual :=
  match attempts with
  | O => ret ind
  | S attempts' =>
      try_except (build self fuel ind)
                 (fun _ => build_attempts self fuel attempts' empty_individual)
  end.

Definition max_attempts : nat := 50.

(** [create_individual]; [fuel] bounds the passes of each [while] loop. *)
Definition create_individual (self : Engine) (fuel : nat) : M Rng individual :=
  build_attempts self fuel max_attempts empty_individual.

(* ------------------------------------------------------------------ *)
(** ** Python dicts

    A dict keeps its items in insertion order; assigning to a key that is
    present replaces the value where it stands. *)

Section Dict.
Context {K V : Type} (eqb : K -> K -> bool).

Definition dict : Type := list (K * V).

Fixpoint dict_lookup (d : dict) (k : K) : option V :=
  match d with
  | [] => None
  | (k', v) :: d' => if eqb k' k then Some v else dict_lookup d' k
  end.

(** [d.get(k, default)] *)
Definition dict_get (d : dict) (k : K) (default : V) : V :=
  match dict_lookup d k with
  | Some v => v
  | None => default
  end.

(** [k in d] *)
Definition dict_mem (d : dict) (k : K) : bool :=
  match dict_lookup d k with
  | Some _ => true
  | None => false
  end.

(** [d[k] = v] *)
Fixpoint dict_set (d : dict) (k : K) (v : V) : dict :=
  match d with
  | [] => [(k, v)]
  | (k', v') :: d' =>
      if eqb k' k then (k', v) :: d' else (k', v') :: dict_set d' k v
  end.

Definition dict_keys (d : dict) : list K := map fst d.
End Dict.

(* ------------------------------------------------------------------ *)
(** ** The fitness function: [calculate_fitness] *)

Definition room_key : Type := (ident * string * Z)%type.

Definition room_key_eqb (a b : room_key) : bool :=
  let '(r1, d1, s1) := a in
  let '(r2, d2, s2) := b in
  ident_eqb r1 r2 && String.eqb d1 d2 && (s1 =? s2).

Definition lecture_key (l : lecture) : room_key :=
  (l_room_id l, l_day l, l_slot_number l).

(** [hours[k] = hours.get(k, 0) + w] *)
Definition add_hours (hours : dict (K := ident) (V := Z)) (k : ident) (w : Z)
  : dict :=
  dict_set ident_eqb hours k (dict_get ident_eqb hours k 0 + w).

(** [if fid: faculty_hours[fid] = faculty_hours.get(fid, 0) + w] *)
Definition add_faculty_hours (hours : dict (K := ident) (V := Z))
           (fid : ident) (w : Z) : dict :=
  if truthy fid then add_hours hours fid w else hours.

Definition calculate_fitness (self : Engine) (ind : individual) : Z :=
  let fitness := 1000 in
  let penalties := 0 in
  (* 1. faculty overload *)
  let faculty_hours :=
    fold_left (fun h l => add_faculty_hours h (l_faculty_id l) 1)
              (lectures ind) [] in
  let faculty_hours :=
    fold_left (fun h p => add_faculty_hours h (p_faculty_id p) 2)
              (practicals ind) faculty_hours in
  let faculty_hours :=
    fold_left (fun h m => add_faculty_hours h (m_faculty_id m) 1)
              (mentorings ind) faculty_hours in
  let penalties :=
    fold_left (fun penalties (item : ident * Z) =>
                 let hours := snd item in
                 if 20 <? hours then penalties + (hours - 20) * 10
                 else penalties)
              faculty_hours penalties in
  (* 2. room conflicts *)
  let '(penalties, _) :=
    fold_left (fun (acc : Z * dict (K := room_key) (V := bool)) l =>
                 let '(penalties, room_schedule) := acc in
                 let key := lecture_key l in
                 let penalties :=
                   if dict_mem room_key_eqb room_schedule key
                   then penalties + 50 else penalties in
                 (penalties, dict_set room_key_eqb room_schedule key true))
              (lectures ind) (penalties, []) in
  (* 3. required hours per subject *)
  let subject_lecture_hours :=
    fold_left (fun h l => add_hours h (l_subject_id l) 1) (lectures ind) [] in
  let subject_practical_hours :=
    fold_left (fun h p => add_hours h (p_subject_id p) 2) (practicals ind) [] in
  let penalties :=
    fold_left (fun penalties cs =>
                 let required_lecture := lecture_slots_per_week cs in
                 let required_practical := practical_slots_per_week cs * 2 in
                 let actual_lecture :=
                   dict_get ident_eqb subject_lecture_hours (cs_subject_id cs) 0 in
                 let actual_practical :=
                   dict_get ident_eqb subject_practical_hours (cs_subject_id cs) 0 in
                 let penalties :=
                   if actual_lecture <? required_lecture
                   then penalties + (required_lecture - actual_lecture) * 30
                   else penalties in
                 if actual_practical <? required_practical
                 then penalties + (required_practical - actual_practical) * 40
                 else penalties)
              (class_subjects self) penalties in
  (* 4. mentoring *)
  let mentoring_count := Z.of_nat (length (mentorings ind)) in
  let required_mentoring :=
    Z.of_nat (length (filter (fun b => truthy (mentor_id b)) (batches self))) in
  let penalties :=
    if mentoring_count <? required_mentoring
    then penalties + (required_mentoring - mentoring_count) * 100
    else penalties in
  let fitness := fitness - penalties in
  Z.max fitness 0.

(** *** The reference definition of fitness

    Written from the specification: base score 1000 minus four penalties,
    floored at 0. *)

Definition room_key_eq_dec (a b : room_key) : {a = b} + {a <> b}.
Proof. repeat decide equality. Defined.

Definition count_where {A} (f : A -> bool) (l : list A) : Z :=
  Z.of_nat (length (filter f l)).

(** Weekly load: 1 per lecture, 2 per practical, 1 per mentoring session. *)
Definition weekly_load (ind : individual) (f : ident) : Z :=
  count_where (fun l => ident_eqb (l_faculty_id l) f) (lectures ind)
  + 2 * count_where (fun p => ident_eqb (p_faculty_id p) f) (practicals ind)
  + count_where (fun m => ident_eqb (m_faculty_id m) f) (mentorings ind).

(** The faculty of a candidate: every faculty a session is assigned to,
    once. *)
Definition faculty_of (ind : individual) : list ident :=
  nodup ident_eq_dec
        (filter truthy (map l_faculty_id (lectures ind)
                        ++ map p_faculty_id (practicals ind)
                        ++ map m_faculty_id (mentorings ind))).

Definition sumZ {A} (f : A -> Z) (l : list A) : Z :=
  fold_right (fun x acc => f x + acc) 0 l.

(** [required - actual] when short, else nothing. *)
Definition shortfall (actual required : Z) : Z :=
  if actual <? required then required - actual else 0.

Definition overload_penalty (ind : individual) : Z :=
  sumZ (fun f => let load := weekly_load ind f in
                 if 20 <? load then (load - 20) * 10 else 0)
       (faculty_of ind).

(** Occurrences of a key beyond its first. *)
Definition duplicate_occurrences (keys : list room_key) : Z :=
  Z.of_nat (length keys) - Z.of_nat (length (nodup room_key_eq_dec keys)).

Definition double_booking_penalty (ind : individual) : Z :=
  50 * duplicate_occurrences (map lecture_key (lectures ind)).

Definition under_provision_penalty (self : Engine) (ind : individual) : Z :=
  sumZ (fun cs =>
          let actual_lectures :=
            count_where (fun l => ident_eqb (l_subject_id l) (cs_subject_id cs))
                        (lectures ind) in
          let actual_practicals :=
            count_where (fun p => ident_eqb (p_subject_id p) (cs_subject_id cs))
                        (practicals ind) in
          shortfall actual_lectures (lecture_slots_per_week cs) * 30
          + shortfall (2 * actual_practicals) (practical_slots_per_week cs * 2) * 40)
       (class_subjects self).

Definition missing_mentoring_penalty (self : Engine) (ind : individual) : Z :=
  shortfall (Z.of_nat (length (mentorings ind)))
            (count_where (fun b => truthy (mentor_id b)) (batches self)) * 100.

Definition fitness_reference (self : Engine) (ind : individual) : Z :=
  Z.max 0 (1000 - (overload_penalty ind
                   + double_booking_penalty ind
                   + under_provision_penalty self ind
                   + missing_mentoring_penalty self ind)).

(* ------------------------------------------------------------------ *)
(** ** Crossover *)

(** [l[:n]] and [l[n:]] for [n >= 0] *)
Definition slice_to {A} (l : list A) (n : nat) : list A := firstn n l.
Definition slice_from {A} (l : list A) (n : nat) : list A := skipn n l.

(** One of the three blocks of [crossover]. *)
Definition crossover_list {A} (l1 l2 : list A) : list A :=
  if negb (is_empty l1) && negb (is_empty l2) then
    let split := (length l1 / 2)%nat in
    slice_to l1 split ++ slice_from l2 split
  else [].

Definition crossover {L P Mt} (parent1 parent2 : individual_of L P Mt)
  : individual_of L P Mt :=
  {| lectures := crossover_list (lectures parent1) (lectures parent2);
     practicals := crossover_list (practicals parent1) (practicals parent2);
     mentorings := crossover_list (mentorings parent1) (mentorings parent2) |}.

(* ------------------------------------------------------------------ *)
(** ** The object store

    [crossover] builds new lists of the parents' session dicts, elites are
    carried over as they are, and [mutate] writes into a lecture dict: the
    dicts are shared between individuals.  In the evolution loop a session
    dict is therefore a location of the store and an individual holds
    locations.  The builder returns dicts nobody else holds yet; they enter
    the store when [create_individual] returns. *)

Definition loc : Type := nat.

Record Store : Type := {
  lecture_objs : list lecture;
  practical_objs : list practical;
  mentoring_objs : list mentoring
}.

Record World : Type := {
  rng : Rng;
  store : Store
}.

Definition individual_ref : Type := individual_of loc loc loc.

(** What an unbound location reads as; no location of a well-formed world
    is unbound. *)
Definition no_lecture : lecture :=
  {| l_class_subject_id := None; l_subject_id := None; l_faculty_id := None;
     l_room_id := None; l_day := ""; l_slot_number := 0; l_start_time := "";
     l_end_time := ""; l_session_type := "" |}.
Definition no_practical : practical :=
  {| p_batch_id := None; p_subject_id := None; p_faculty_id := None;
     p_room_id := None; p_day := ""; p_start_slot := 0; p_end_slot := 0;
     p_start_time := ""; p_end_time := ""; p_session_type := "" |}.
Definition no_mentoring : mentoring :=
  {| m_batch_id := None; m_faculty_id := None; m_room_id := None;
     m_day := ""; m_slot_number := 0; m_start_time := ""; m_end_time := "";
     m_session_type := "" |}.

Definition read {A} (default : A) (heap : list A) (l : loc) : A :=
  nth l heap default.

(** Overwrite the object at [l]. *)
Fixpoint write {A} (heap : list A) (l : loc) (x : A) : list A :=
  match heap, l with
  | [], _ => []
  | _ :: heap', O => x :: heap'
  | y :: heap', S l' => y :: write heap' l' x
  end.

(** The individual a reference stands for. *)
Definition deref (s : Store) (ind : individual_ref) : individual :=
  {| lectures := map (read no_lecture (lecture_objs s)) (lectures ind);
     practicals := map (read no_practical (practical_objs s)) (practicals ind);
     mentorings := map (read no_mentoring (mentoring_objs s)) (mentorings ind) |}.

(** New objects take the next free locations. *)
Definition alloc_list {A} (heap : list A) (objs : list A) : list loc * list A :=
  (seq (length heap) (length objs), heap ++ objs).

Definition alloc_individual (ind : individual) : M World individual_ref :=
  fun w =>
    let s := store w in
    let '(ls, lh) := alloc_list (lecture_objs s) (lectures ind) in
    let '(ps, ph) := alloc_list (practical_objs s) (practicals ind) in
    let '(ms, mh) := alloc_list (mentoring_objs s) (mentorings ind) in
    Ok {| lectures := ls; practicals := ps; mentorings := ms |}
       {| rng := rng w;
          store := {| lecture_objs := lh; practical_objs := ph;
                      mentoring_objs := mh |} |}.

(** [copy.deepcopy] of a list of dicts: every dict is copied once, a dict
    met again is the copy made before (the memo). *)
Fixpoint deepcopy_list {A} (default : A) (locs : list loc)
         (memo : dict (K := loc) (V := loc)) (heap : list A)
  : list loc * dict (K := loc) (V := loc) * list A :=
  match locs with
  | [] => ([], memo, heap)
  | l :: locs' =>
      match dict_lookup Nat.eqb memo l with
      | Some l' =>
          let '(r, memo', heap') := deepcopy_list default locs' memo heap in
          (l' :: r, memo', heap')
      | None =>
          let l' := length heap in
          let '(r, memo', heap') :=
            deepcopy_list default locs' (dict_set Nat.eqb memo l l')
                          (heap ++ [read default heap l]) in
          (l' :: r, memo', heap')
      end
  end.

Definition deepcopy (ind : individual_ref) : M World individual_ref :=
  fun w =>
    let s := store w in
    let '(ls, _, lh) := deepcopy_list no_lecture (lectures ind) [] (lecture_objs s) in
    let '(ps, _, ph) := deepcopy_list no_practical (practicals ind) [] (practical_objs s) in
    let '(ms, _, mh) := deepcopy_list no_mentoring (mentorings ind) [] (mentoring_objs s) in
    Ok {| lectures := ls; practicals := ps; mentorings := ms |}
       {| rng := rng w;
          store := {| lecture_objs := lh; practical_objs := ph;
                      mentoring_objs := mh |} |}.

(** A computation that only draws random numbers, run in a world. *)
Definition with_rng {A} (c : M Rng A) : M World A :=
  fun w => match c (rng w) with
           | Ok a g => Ok a {| rng := g; store := store w |}
           | Raise e g => Raise e {| rng := g; store := store w |}
           | Diverge => Diverge
           end.

Definition read_lecture (l : loc) : M World lecture :=
  fun w => Ok (read no_lecture (lecture_objs (store w)) l) w.

(** The store with the lecture dict at [l] overwritten. *)
Definition with_lecture (s : Store) (l : loc) (x : lecture) : Store :=
  {| lecture_objs := write (lecture_objs s) l x;
     practical_objs := practical_objs s;
     mentoring_objs := mentoring_objs s |}.

Definition write_lecture (l : loc) (x : lecture) : M World unit :=
  fun w => Ok tt {| rng := rng w; store := with_lecture (store w) l x |}.

(* ------------------------------------------------------------------ *)
(** ** Mutation *)

(** [lecture['day'] = day] *)
Definition set_day (l : lecture) (day : string) : lecture :=
  {| l_class_subject_id := l_class_subject_id l; l_subject_id := l_subject_id l;
     l_faculty_id := l_faculty_id l; l_room_id := l_room_id l;
     l_day := day; l_slot_number := l_slot_number l;
     l_start_time := l_start_time l; l_end_time := l_end_time l;
     l_session_type := l_session_type l |}.

(** [lecture['slot_number'] = slot_number] *)
Definition set_slot_number (l : lecture) (slot_number : Z) : lecture :=
  {| l_class_subject_id := l_class_subject_id l; l_subject_id := l_subject_id l;
     l_faculty_id := l_faculty_id l; l_room_id := l_room_id l;
     l_day := l_day l; l_slot_number := slot_number;
     l_start_time := l_start_time l; l_end_time := l_end_time l;
     l_session_type := l_session_type l |}.

(** [lecture['start_time'] = s; lecture['end_time'] = e] *)
Definition set_times (l : lecture) (s e : string) : lecture :=
  {| l_class_subject_id := l_class_subject_id l; l_subject_id := l_subject_id l;
     l_faculty_id := l_faculty_id l; l_room_id := l_room_id l;
     l_day := l_day l; l_slot_number := l_slot_number l;
     l_start_time := s; l_end_time := e;
     l_session_type := l_session_type l |}.

(** [mutate]: the individual is returned as it came, the chosen lecture dict
    is written in place.  [random.random()] is a multiple of 2^-53, and such
    a number is below the double nearest to 0.3 exactly when it is below
    3/10. *)
Definition mutate (self : Engine) (ind : individual_ref)
  : M World individual_ref :=
  if is_empty (lectures ind) then ret ind
  else
    r <- with_rng random_random ;;
    if Qltb r (3 # 10) then
      idx <- with_rng (randint 0 (Z.of_nat (length (lectures ind)) - 1)) ;;
      lecture <- getitem_m (lectures ind) idx ;;
      r' <- with_rng random_random ;;
      if Qltb r' (1 # 2) then
        day <- with_rng (choice (days self)) ;;
        old <- read_lecture lecture ;;
        _ <- write_lecture lecture (set_day old day) ;;
        ret ind
      else
        new_slot <- with_rng (choice (filter (fun s => negb (s =? 2))
                                             (lecture_slots self))) ;;
        old <- read_lecture lecture ;;
        _ <- write_lecture lecture (set_slot_number old new_slot) ;;
        slot <- getitem_m (time_slots self) new_slot ;;
        old <- read_lecture lecture ;;
        _ <- write_lecture lecture (set_times old (ts_start slot) (ts_end slot)) ;;
        ret ind
    else ret ind.

(* ------------------------------------------------------------------ *)
(** ** The evolution loop: [evolve] *)

(** [best_fitness]: [float('-inf')] until a first score is recorded. *)
Inductive best_score : Type :=
| NegInf
| Score (z : Z).

(** [fitness > self.best_fitness] *)
Definition exceeds (fitness : Z) (best : best_score) : bool :=
  match best with
  | NegInf => true
  | Score b => b <? fitness
  end.

(** The attributes of [self] that [evolve] assigns. *)
Record GA : Type := {
  population : list individual_ref;
  best_solution : option individual_ref;
  best_fitness : best_score
}.

(** As [__init__] leaves them. *)
Definition initial_ga : GA :=
  {| population := []; best_solution := None; best_fitness := NegInf |}.

(** [create_individual] as the loop sees it: the new dicts enter the store. *)
Definition new_individual (self : Engine) (fuel : nat) : M World individual_ref :=
  ind <- with_rng (create_individual self fuel) ;;
  alloc_individual ind.

(** [calculate_fitness] on an individual of the store. *)
Definition fitness_of (self : Engine) (ind : individual_ref) : M World Z :=
  fun w => Ok (calculate_fitness self (deref (store w) ind)) w.

(** [for individual in self.population: fitness_scores.append(...)] *)
Fixpoint evaluate (self : Engine) (population : list individual_ref)
  : M World (list (Z * individual_ref)) :=
  match population with
  | [] => ret []
  | ind :: population' =>
      fitness <- fitness_of self ind ;;
      rest <- evaluate self population' ;;
      ret ((fitness, ind) :: rest)
  end.

(** [fitness_scores.sort(key=lambda x: x[0], reverse=True)]: descending and
    stable. *)
Fixpoint insert_desc {A} (x : Z * A) (l : list (Z * A)) : list (Z * A) :=
  match l with
  | [] => [x]
  | y :: l' => if fst x <? fst y then y :: insert_desc x l' else x :: y :: l'
  end.

Definition sort_desc {A} (l : list (Z * A)) : list (Z * A) :=
  fold_right insert_desc [] l.

(** The two parents of one child. *)
Definition select_parents (self : Engine) (fuel : nat)
           (fitness_scores : list (Z * individual_ref))
  : M World (individual_ref * individual_ref) :=
  if (10 <? length fitness_scores)%nat then
    p1 <- with_rng (choice (slice_to fitness_scores 10)) ;;
    p2 <- with_rng (choice (slice_to fitness_scores 10)) ;;
    ret (snd p1, snd p2)
  else
    parent1 <- match fitness_scores with
               | x :: _ => ret (snd x)
               | [] => new_individual self fuel
               end ;;
    parent2 <- match fitness_scores with
               | _ :: y :: _ => ret (snd y)
               | _ => new_individual self fuel
               end ;;
    ret (parent1, parent2).

(** [while len(next_generation) < population_size: ...]; every pass appends
    one child, so [population_size] passes are enough: [passes] never runs
    out when it starts there. *)
Fixpoint offspring (self : Engine) (fuel : nat) (population_size : nat)
         (mutation_rate : Q) (fitness_scores : list (Z * individual_ref))
         (passes : nat) (next_generation : list individual_ref)
  : M World (list individual_ref) :=
  if (length next_generation <? population_size)%nat then
    match passes with
    | O => diverge
    | S passes' =>
        parents <- select_parents self fuel fitness_scores ;;
        let child := crossover (fst parents) (snd parents) in
        r <- with_rng random_random ;;
        child <- (if Qltb r mutation_rate then mutate self child else ret child) ;;
        offspring self fuel population_size mutation_rate fitness_scores
                  passes' (next_generation ++ [child])
    end
  else ret next_generation.

(** One pass of [for generation in range(generations)]. *)
Definition generation (self : Engine) (fuel : nat) (population_size : nat)
           (mutation_rate : Q) (elite_size : nat) (ga : GA) : M World GA :=
  fitness_scores <- evaluate self (population ga) ;;
  let fitness_scores := sort_desc fitness_scores in
  top <- getitem_m fitness_scores 0 ;;
  ga <- (if exceeds (fst top) (best_fitness ga) then
           copy <- deepcopy (snd top) ;;
           ret {| population := population ga;
                  best_solution := Some copy;
                  best_fitness := Score (fst top) |}
         else ret ga) ;;
  let elites := map snd (slice_to fitness_scores elite_size) in
  next_generation <- offspring self fuel population_size mutation_rate
                               fitness_scores population_size elites ;;
  ret {| population := next_generation;
         best_solution := best_solution ga;
         best_fitness := best_fitness ga |}.

Fixpoint generations_loop (self : Engine) (fuel : nat) (population_size : nat)
         (mutation_rate : Q) (elite_size : nat) (generations : nat) (ga : GA)
  : M World GA :=
  match generations with
  | O => ret ga
  | S generations' =>
      ga' <- generation self fuel population_size mutation_rate elite_size ga ;;
      generations_loop self fuel population_size mutation_rate elite_size
                       generations' ga'
  end.

(** [for i in range(population_size): self.population.append(...)] *)
Fixpoint initial_population (self : Engine) (fuel : nat) (n : nat)
         (population : list individual_ref) : M World (list individual_ref) :=
  match n with
  | O => ret population
  | S n' =>
      ind <- new_individual self fuel ;;
      initial_population self fuel n' (population ++ [ind])
  end.

(** [evolve]: the final attributes of [self]; the method returns
    [best_solution]. *)
Definition evolve (self : Engine) (fuel : nat) (population_size : nat)
           (generations : nat) (mutation_rate : Q) (elite_size : nat) (ga : GA)
  : M World GA :=
  population <- initial_population self fuel population_size [] ;;
  generations_loop self fuel population_size mutation_rate elite_size generations
                   {| population := population;
                      best_solution := best_solution ga;
                      best_fitness := best_fitness ga |}.

(* ------------------------------------------------------------------ *)
(** ** Persistence: [save_to_database] *)

Record TimetableRow : Type := {
  t_class_id : Z;
  t_day : string;
  t_slot_number : Z;
  t_start_time : string;
  t_end_time : string;
  t_subject_id : ident;
  t_faculty_id : ident;
  t_room_id : ident;
  t_batch_id : ident;
  t_session_type : string;
  t_is_break : bool
}.

Record PracticalSlotRow : Type := {
  ps_class_id : Z;
  ps_batch_id : ident;
  ps_subject_id : ident;
  ps_faculty_id : ident;
  ps_room_id : ident;
  ps_day : string;
  ps_start_time : string;
  ps_end_time : string
}.

Record Tables : Type := {
  timetable : list TimetableRow;
  practical_slot : list PracticalSlotRow
}.

(** [stored] is what is committed; [session] is the transaction's view:
    deletes and adds go to [session], [commit] makes it the stored state. *)
Record Database : Type := {
  stored : Tables;
  session : Tables
}.

(** [Timetable.query.filter_by(class_id=c).delete()] *)
Definition delete_timetable (c : Z) : M Database unit :=
  fun db => Ok tt {| stored := stored db;
                     session := {| timetable :=
                                     filter (fun r => negb (t_class_id r =? c))
                                            (timetable (session db));
                                   practical_slot := practical_slot (session db) |} |}.

(** [PracticalSlot.query.filter_by(class_id=c).delete()] *)
Definition delete_practical_slot (c : Z) : M Database unit :=
  fun db => Ok tt {| stored := stored db;
                     session := {| timetable := timetable (session db);
                                   practical_slot :=
                                     filter (fun r => negb (ps_class_id r =? c))
                                            (practical_slot (session db)) |} |}.

(** [db.session.commit()] *)
Definition commit : M Database unit :=
  fun db => Ok tt {| stored := session db; session := session db |}.

(** [db.session.add(row)] *)
Definition add_timetable (row : TimetableRow) : M Database unit :=
  fun db => Ok tt {| stored := stored db;
                     session := {| timetable := timetable (session db) ++ [row];
                                   practical_slot := practical_slot (session db) |} |}.

Definition add_practical_slot (row : PracticalSlotRow) : M Database unit :=
  fun db => Ok tt {| stored := stored db;
                     session := {| timetable := timetable (session db);
                                   practical_slot :=
                                     practical_slot (session db) ++ [row] |} |}.

(** [for x in l: body x] *)
Fixpoint for_each_ {S A} (l : list A) (body : A -> M S unit) : M S unit :=
  match l with
  | [] => ret tt
  | x :: l' => _ <- body x ;; for_each_ l' body
  end.

(** Evaluation of a name: [NameError] when nothing is bound to it. *)
Definition eval_name {S A} (env : dict (K := string) (V := A)) (name : string)
  : M S A :=
  match dict_lookup String.eqb env name with
  | Some v => ret v
  | None => raise NameError
  end.

(** The rows [save_to_database] builds. *)
Definition lecture_row (class_id : Z) (lecture : lecture) : TimetableRow :=
  {| t_class_id := class_id;
     t_day := l_day lecture;
     t_slot_number := l_slot_number lecture;
     t_start_time := l_start_time lecture;
     t_end_time := l_end_time lecture;
     t_subject_id := l_subject_id lecture;
     t_faculty_id := l_faculty_id lecture;
     t_room_id := l_room_id lecture;
     t_batch_id := None;
     t_session_type := "Lecture";
     t_is_break := false |}.

Definition practical_slot_row (class_id : Z) (practical : practical)
  : PracticalSlotRow :=
  {| ps_class_id := class_id;
     ps_batch_id := p_batch_id practical;
     ps_subject_id := p_subject_id practical;
     ps_faculty_id := p_faculty_id practical;
     ps_room_id := p_room_id practical;
     ps_day := p_day practical;
     ps_start_time := p_start_time practical;
     ps_end_time := p_end_time practical |}.

Definition practical_row (class_id : Z) (practical : practical) : TimetableRow :=
  {| t_class_id := class_id;
     t_day := p_day practical;
     t_slot_number := p_start_slot practical;
     t_start_time := p_start_time practical;
     t_end_time := p_end_time practical;
     t_subject_id := p_subject_id practical;
     t_faculty_id := p_faculty_id practical;
     t_room_id := p_room_id practical;
     t_batch_id := p_batch_id practical;
     t_session_type := "Practical";
     t_is_break := false |}.

Definition mentoring_row (class_id : Z) (menturing : mentoring) : TimetableRow :=
  {| t_class_id := class_id;
     t_day := m_day menturing;
     t_slot_number := m_slot_number menturing;
     t_start_time := m_start_time menturing;
     t_end_time := m_end_time menturing;
     t_subject_id := None;
     t_faculty_id := m_faculty_id menturing;
     t_room_id := m_room_id menturing;
     t_batch_id := m_batch_id menturing;
     t_session_type := "Mentoring";
     t_is_break := false |}.

Definition lunch_break_row (class_id : Z) (day : string) : TimetableRow :=
  {| t_class_id := class_id;
     t_day := day;
     t_slot_number := 2;
     t_start_time := "11:50";
     t_end_time := "12:40";
     t_subject_id := None;
     t_faculty_id := None;
     t_room_id := None;
     t_batch_id := None;
     t_session_type := "Break";
     t_is_break := true |}.

(** [save_to_database].  In the mentoring loop the loop variable is
    [mentoring]; the row is built from the name [menturing], which neither
    the method nor the module binds. *)
Definition save_to_database (class_id : Z) (self : Engine) (solution : individual)
  : M Database bool :=
  _ <- delete_timetable class_id ;;
  _ <- delete_practical_slot class_id ;;
  _ <- commit ;;
  _ <- for_each_ (lectures solution) (fun lecture =>
         add_timetable (lecture_row class_id lecture)) ;;
  _ <- for_each_ (practicals solution) (fun practical =>
         _ <- add_practical_slot (practical_slot_row class_id practical) ;;
         add_timetable (practical_row class_id practical)) ;;
  _ <- for_each_ (mentorings solution) (fun mentoring =>
         let env := [("mentoring", mentoring)] in
         menturing <- eval_name env "menturing" ;;
         add_timetable (mentoring_row class_id menturing)) ;;
  _ <- for_each_ (days self) (fun day =>
         add_timetable (lunch_break_row class_id day)) ;;
  _ <- commit ;;
  ret true.

(* ------------------------------------------------------------------ *)
(** ** Predicates and sample data used in the statements *)

(** The double-booked (room, day, slot) keys are what [calculate_fitness]
    penalises; a candidate without them has its lecture keys pairwise
    distinct. *)
Definition rooms_conflict_free (ind : individual) : Prop :=
  NoDup (map lecture_key (lectures ind)).

Definition sample_lecture (room : Z) (day : string) (slot : Z) : lecture :=
  {| l_class_subject_id := Some 1; l_subject_id := Some 1;
     l_faculty_id := Some 1; l_room_id := Some room; l_day := day;
     l_slot_number := slot; l_start_time := ""; l_end_time := "";
     l_session_type := "Lecture" |}.

Definition parent_a : individual :=
  {| lectures := [sample_lecture 1 "Monday" 0; sample_lecture 1 "Tuesday" 0];
     practicals := []; mentorings := [] |}.

Definition parent_b : individual :=
  {| lectures := [sample_lecture 1 "Tuesday" 1; sample_lecture 1 "Monday" 0];
     practicals := []; mentorings := [] |}.

Definition parent_without_lectures : individual :=
  {| lectures := []; practicals := []; mentorings := [] |}.


(** The child's list as the specification words it: the first parent's
    first half, then the second parent's list from that midpoint on. *)
Definition crossover_halves {A} (l1 l2 : list A) : list A :=
  firstn (length l1 / 2) l1 ++ skipn (length l1 / 2) l2.

(** No row of class [c] in the tables is a mentoring entry. *)
Definition mentoring_free (c : Z) (t : Tables) : Prop :=
  forall row, In row (timetable t) ->
              t_class_id row = c -> t_session_type row <> "Mentoring".

Definition sample_mentoring : mentoring :=
  {| m_batch_id := Some 1; m_faculty_id := Some 1; m_room_id := Some 1;
     m_day := "Monday"; m_slot_number := 0; m_start_time := "09:40";
     m_end_time := "10:40"; m_session_type := "Mentoring" |}.

Definition solution_with_mentoring : individual :=
  {| lectures := [sample_lecture 1 "Monday" 1]; practicals := [];
     mentorings := [sample_mentoring] |}.

Definition empty_database : Database :=
  {| stored := {| timetable := []; practical_slot := [] |};
     session := {| timetable := []; practical_slot := [] |} |}.

(** The database after [rows] were added to the session. *)
Definition with_timetable (db : Database) (rows : list TimetableRow) : Database :=
  {| stored := stored db;
     session := {| timetable := timetable (session db) ++ rows;
                   practical_slot := practical_slot (session db) |} |}.


(** *** Specifications of computations

    [spec E c Q]: whenever [c] returns, its result satisfies [Q]; whenever it
    raises, [E] holds.  [spec False c Q] says that [c] never raises. *)
Definition spec {S A} (E : Prop) (c : M S A) (Q : A -> Prop) : Prop :=
  forall s, match c s with
            | Ok a _ => Q a
            | Raise _ _ => E
            | Diverge => True
            end.

(** The configuration [__init__] reads from [app.config]. *)
Definition standard_config (self : Engine) : Prop :=
  days self = DAYS /\ time_slots self = TIME_SLOTS
  /\ lecture_slots self = LECTURE_SLOT_INDICES.

(** [roomIsFree]: no lecture or mentoring session of [ind] holds the room at
    that day and slot. *)
Definition classroom_is_free (ind : individual) (room_id : ident)
           (day : string) (slot : Z) : Prop :=
  (forall l, In l (lectures ind) ->
             l_day l = day -> l_slot_number l = slot -> l_room_id l <> room_id)
  /\ (forall m, In m (mentorings ind) ->
                m_day m = day -> m_slot_number m = slot -> m_room_id m <> room_id).

(** [roomIsFreeForRange]: every practical of [ind] on that day in that room
    ends before [start_slot] or begins after [end_slot]. *)
Definition lab_is_free (ind : individual) (room_id : ident) (day : string)
           (start_slot end_slot : Z) : Prop :=
  forall p, In p (practicals ind) -> p_day p = day -> p_room_id p = room_id ->
            end_slot < p_start_slot p \/ p_end_slot p < start_slot.

(** What holds of a session when the builder appends it to [ind]. *)
Definition lecture_placed (self : Engine) (cs : ClassSubject) (ind : individual)
           (l : lecture) : Prop :=
  In (l_day l) (days self)
  /\ In (l_slot_number l) (lecture_slots self)
  /\ l_slot_number l <> 2
  /\ l_faculty_id l = cs_faculty_id cs
  /\ l_subject_id l = cs_subject_id cs
  /\ check_faculty_busy ind (l_faculty_id l) (l_day l) (l_slot_number l) = false
  /\ (exists r, In r (classrooms self) /\ r_id r = l_room_id l)
  /\ classroom_is_free ind (l_room_id l) (l_day l) (l_slot_number l).

Definition practical_placed (self : Engine) (batch : Batch) (cs : ClassSubject)
           (ind : individual) (p : practical) : Prop :=
  In (p_day p) (days self)
  /\ (p_start_slot p = 4 \/ p_start_slot p = 5)
  /\ p_end_slot p = p_start_slot p + 1
  /\ p_faculty_id p = cs_faculty_id cs
  /\ p_subject_id p = cs_subject_id cs
  /\ p_batch_id p = b_id batch
  /\ check_faculty_busy ind (p_faculty_id p) (p_day p) (p_start_slot p) = false
  /\ check_faculty_busy ind (p_faculty_id p) (p_day p) (p_end_slot p) = false
  /\ (exists r, In r (labs self) /\ r_id r = p_room_id p)
  /\ lab_is_free ind (p_room_id p) (p_day p) (p_start_slot p) (p_end_slot p).

Definition mentoring_placed (self : Engine) (batch : Batch) (ind : individual)
           (m : mentoring) : Prop :=
  In (m_day m) (days self)
  /\ In (m_slot_number m) (lecture_slots self)
  /\ m_slot_number m <> 2
  /\ m_faculty_id m = mentor_id batch
  /\ m_batch_id m = b_id batch
  /\ check_faculty_busy ind (m_faculty_id m) (m_day m) (m_slot_number m) = false
  /\ (exists r, In r (classrooms self) /\ r_id r = m_room_id m)
  /\ classroom_is_free ind (m_room_id m) (m_day m) (m_slot_number m).

(** The result of one pass of a placement loop. *)
Definition when_placed {A} (P : A -> Prop) (r : option A) : Prop :=
  match r with
  | Some x => P x
  | None => True
  end.

(** No session on the lunch slot: lectures and mentoring sessions are not
    at slot 2, practicals occupy slots 4-5 or 5-6. *)
Definition lecture_off_lunch (l : lecture) : Prop := l_slot_number l <> 2.
Definition mentoring_off_lunch (m : mentoring) : Prop := m_slot_number m <> 2.
Definition practical_in_window (p : practical) : Prop :=
  (p_start_slot p = 4 /\ p_end_slot p = 5)
  \/ (p_start_slot p = 5 /\ p_end_slot p = 6).

Definition off_lunch (ind : individual) : Prop :=
  Forall lecture_off_lunch (lectures ind)
  /\ Forall practical_in_window (practicals ind)
  /\ Forall mentoring_off_lunch (mentorings ind).

(** *** Sample requests *)

Definition identity_tape : Rng := {| tape := fun n => n; pos := 0 |}.

(** Scenario A of the specification: one subject with three lectures a week,
    one faculty, two classrooms. *)
Definition scenario_a : Snapshot :=
  {| db_class_subjects :=
       [ {| cs_id := Some 1; cs_subject_id := Some 1; cs_faculty_id := Some 1;
            lecture_slots_per_week := 3; practical_slots_per_week := 0 |} ];
     db_batches := [];
     db_rooms :=
       [ {| r_id := Some 1; room_number := "A-101"; room_type := "Classroom";
            capacity := 60 |};
         {| r_id := Some 2; room_number := "A-102"; room_type := "Classroom";
            capacity := 60 |} ] |}.

Definition scenario_a_outcome : outcome Rng individual :=
  Eval vm_compute in create_individual (init scenario_a) 10 identity_tape.

Definition scenario_a_individual : individual :=
  match scenario_a_outcome with
  | Ok ind _ => ind
  | _ => empty_individual
  end.

(** What a call of [mutate] on [ind] can have done to the store: nothing,
    a new day for one lecture of [ind], or a new slot with its times. *)
Inductive mutation (self : Engine) (ind : individual_ref) (s s' : Store) : Prop :=
| mutation_none :
    s' = s -> mutation self ind s s'
| mutation_day (l : loc) (day : string) :
    In l (lectures ind) -> In day (days self) ->
    s' = with_lecture s l (set_day (read no_lecture (lecture_objs s) l) day) ->
    mutation self ind s s'
| mutation_slot (l : loc) (slot : Z) (ts : time_slot) :
    In l (lectures ind) -> In slot (lecture_slots self) -> slot <> 2 ->
    getitem (time_slots self) slot = Some ts ->
    s' = with_lecture s l
           (set_times (set_slot_number (read no_lecture (lecture_objs s) l) slot)
                      (ts_start ts) (ts_end ts)) ->
    mutation self ind s s'.

(** A store holding the two lectures of [parent_a], an individual that
    refers to them, and a tape on which [mutate] moves the second lecture to
    Monday. *)
Definition mutation_tape : Rng :=
  {| tape := fun n => if (n =? 1)%nat then 1%nat else 0%nat; pos := 0 |}.

Definition two_lecture_store : Store :=
  {| lecture_objs := lectures parent_a; practical_objs := [];
     mentoring_objs := [] |}.

Definition two_lecture_world : World :=
  {| rng := mutation_tape; store := two_lecture_store |}.

Definition two_lecture_ref : individual_ref :=
  {| lectures := [0%nat; 1%nat]; practicals := []; mentorings := [] |}.

Definition empty_snapshot : Snapshot :=
  {| db_class_subjects := []; db_batches := []; db_rooms := [] |}.

Definition two_lecture_world_mutated : World :=
  {| rng := {| tape := tape mutation_tape; pos := 4 |};
     store := with_lecture two_lecture_store 1%nat
                           (sample_lecture 1 "Monday" 0) |}.

(** *** Practical sessions that exclude one another

    Both practical windows, 4-5 and 5-6, contain slot 5.  Two practicals on
    the same day therefore overlap: the builder places them only with
    different faculty and in different labs.  [group] selects the practicals
    of one faculty, or of one lab. *)

Definition group_count (group : practical -> bool) (ind : individual) : Z :=
  Z.of_nat (length (filter group (practicals ind))).

(** The builder keeps the practicals of a group on different days. *)
Definition one_practical_a_day (self : Engine) (group : practical -> bool)
           (ind : individual) : Prop :=
  Forall practical_in_window (practicals ind)
  /\ NoDup (map p_day (filter group (practicals ind)))
  /\ incl (map p_day (filter group (practicals ind))) (days self).

(** The practical sessions the builder sets out to place for the subject
    assignments selected by [wanted]: for every batch, the weekly count of
    each. *)
Definition practical_demand (self : Engine) (wanted : ClassSubject -> bool) : Z :=
  Z.of_nat (length (batches self))
  * sumZ (fun cs => if wanted cs
                    then Z.max 0 (practical_slots_per_week cs) else 0)
         (class_subjects self).

Definition taught_by (f : ident) (cs : ClassSubject) : bool :=
  ident_eqb (cs_faculty_id cs) f.

Definition practical_of_faculty (f : ident) (p : practical) : bool :=
  ident_eqb (p_faculty_id p) f.

Definition practical_in_lab (room_id : ident) (p : practical) : bool :=
  ident_eqb (p_room_id p) room_id.

(** The rows [init_sample_data] inserts: three faculty (1, 2, 3), three
    classrooms and two labs, four subjects assigned to class CO-1, three
    batches. *)
Definition sample_data : Snapshot :=
  {| db_class_subjects :=
       [ {| cs_id := Some 1; cs_subject_id := Some 1; cs_faculty_id := Some 1;
            lecture_slots_per_week := 3; practical_slots_per_week := 2 |};
         {| cs_id := Some 2; cs_subject_id := Some 2; cs_faculty_id := Some 2;
            lecture_slots_per_week := 3; practical_slots_per_week := 2 |};
         {| cs_id := Some 3; cs_subject_id := Some 3; cs_faculty_id := Some 1;
            lecture_slots_per_week := 3; practical_slots_per_week := 2 |};
         {| cs_id := Some 4; cs_subject_id := Some 4; cs_faculty_id := Some 3;
            lecture_slots_per_week := 4; practical_slots_per_week := 0 |} ];
     db_batches :=
       [ {| b_id := Some 1; mentor_id := Some 1 |};
         {| b_id := Some 2; mentor_id := Some 2 |};
         {| b_id := Some 3; mentor_id := Some 3 |} ];
     db_rooms :=
       [ {| r_id := Some 1; room_number := "A-101"; room_type := "Classroom";
            capacity := 60 |};
         {| r_id := Some 2; room_number := "A-102"; room_type := "Classroom";
            capacity := 60 |};
         {| r_id := Some 3; room_number := "LAB-1"; room_type := "Lab";
            capacity := 40 |};
         {| r_id := Some 4; room_number := "B-201"; room_type := "Classroom";
            capacity := 60 |};
         {| r_id := Some 5; room_number := "LAB-2"; room_type := "Lab";
            capacity := 30 |} ] |}.

(** A request without labs that one lab a day cannot serve: two subjects
    with one practical a week each, taught by different faculty to three
    batches — six practicals, three for each faculty. *)
Definition six_practicals_no_lab : Snapshot :=
  {| db_class_subjects :=
       [ {| cs_id := Some 1; cs_subject_id := Some 1; cs_faculty_id := Some 1;
            lecture_slots_per_week := 3; practical_slots_per_week := 1 |};
         {| cs_id := Some 2; cs_subject_id := Some 2; cs_faculty_id := Some 2;
            lecture_slots_per_week := 3; practical_slots_per_week := 1 |} ];
     db_batches :=
       [ {| b_id := Some 1; mentor_id := Some 1 |};
         {| b_id := Some 2; mentor_id := Some 2 |};
         {| b_id := Some 3; mentor_id := None |} ];
     db_rooms :=
       [ {| r_id := Some 1; room_number := "A-101"; room_type := "Classroom";
            capacity := 60 |};
         {| r_id := Some 2; room_number := "A-102"; room_type := "Classroom";
            capacity := 60 |} ] |}.

(** The same request with two labs in the database, and a tape of
    pseudo-random draws. *)
Definition six_practicals_two_labs : Snapshot :=
  {| db_class_subjects := db_class_subjects six_practicals_no_lab;
     db_batches := db_batches six_practicals_no_lab;
     db_rooms :=
       db_rooms six_practicals_no_lab
       ++ [ {| r_id := Some 3; room_number := "LAB-1"; room_type := "Lab";
               capacity := 40 |};
            {| r_id := Some 5; room_number := "LAB-2"; room_type := "Lab";
               capacity := 30 |} ] |}.

Definition scrambled_tape : Rng :=
  {| tape := fun n =>
       Z.to_nat (((Z.of_nat n * 1103515245 + 12345) * (Z.of_nat n + 7) / 65536)
                 mod 32768);
     pos := 0 |}.

Definition six_practicals_two_labs_outcome : outcome Rng individual :=
  Eval vm_compute in
    create_individual (init six_practicals_two_labs) 300 scrambled_tape.

Definition six_practicals_two_labs_individual : individual :=
  match six_practicals_two_labs_outcome with
  | Ok ind _ => ind
  | _ => empty_individual
  end.

(** *** Individuals in the store *)

(** Every location of the list is allocated. *)
Definition bound_in {A} (heap : list A) (locs : list loc) : Prop :=
  Forall (fun l => (l < length heap)%nat) locs.

(** No location of the list is allocated. *)
Definition fresh_in {A} (heap : list A) (locs : list loc) : Prop :=
  Forall (fun l => (length heap <= l)%nat) locs.

Definition locs_ok (s : Store) (ind : individual_ref) : Prop :=
  bound_in (lecture_objs s) (lectures ind)
  /\ bound_in (practical_objs s) (practicals ind)
  /\ bound_in (mentoring_objs s) (mentorings ind).

(** An individual none of whose session dicts existed in [s]. *)
Definition fresh (s : Store) (ind : individual_ref) : Prop :=
  fresh_in (lecture_objs s) (lectures ind)
  /\ fresh_in (practical_objs s) (practicals ind)
  /\ fresh_in (mentoring_objs s) (mentorings ind).

Definition disjoint (l1 l2 : list loc) : Prop :=
  forall x, In x l1 -> ~ In x l2.

(** Two individuals that share no session dict. *)
Definition apart (a b : individual_ref) : Prop :=
  disjoint (lectures a) (lectures b)
  /\ disjoint (practicals a) (practicals b)
  /\ disjoint (mentorings a) (mentorings b).

(** The store only grows, and [b] reads in [s'] as it did in [s]. *)
Definition preserves (b : individual_ref) (s s' : Store) : Prop :=
  (length (lecture_objs s) <= length (lecture_objs s'))%nat
  /\ (length (practical_objs s) <= length (practical_objs s'))%nat
  /\ (length (mentoring_objs s) <= length (mentoring_objs s'))%nat
  /\ deref s' b = deref s b.

Definition best_le (a b : best_score) : Prop :=
  match a, b with
  | NegInf, _ => True
  | Score x, Score y => x <= y
  | Score _, NegInf => False
  end.

(** The scored population, best first. *)
Definition ranking (self : Engine) (s : Store) (population : list individual_ref)
  : list (Z * individual_ref) :=
  sort_desc (map (fun ind => (calculate_fitness self (deref s ind), ind))
                 population).

(** What holds of the engine between generations: the individuals of the
    population are in the store; the best-so-far shares no session dict with
    any of them, and its recorded fitness is the fitness of what it holds. *)
Definition ga_ok (self : Engine) (s : Store) (ga : GA) : Prop :=
  Forall (locs_ok s) (population ga)
  /\ match best_solution ga with
     | Some b =>
         locs_ok s b
         /\ Forall (apart b) (population ga)
         /\ best_fitness ga = Score (calculate_fitness self (deref s b))
     | None => True
     end.

(** An individual of the store that shares nothing with [b]. *)
Definition kept_apart (b : individual_ref) (s : Store) (ind : individual_ref)
  : Prop :=
  locs_ok s ind /\ apart b ind.

(** The individual without sessions: it shares nothing with anyone. *)
Definition empty_ref : individual_ref :=
  {| lectures := []; practicals := []; mentorings := [] |}.

(** Best first. *)
Definition sorted_desc {A} (l : list (Z * A)) : Prop :=
  StronglySorted (fun a b => fst b <= fst a) l.

(** *** A run of scenario A *)

Definition empty_world : World :=
  {| rng := identity_tape;
     store := {| lecture_objs := []; practical_objs := [];
                 mentoring_objs := [] |} |}.

Definition scenario_a_run : outcome World GA :=
  Eval vm_compute in
    evolve (init scenario_a) 20 3 2 (1 # 2) 1 initial_ga empty_world.

Definition scenario_a_final : GA :=
  match scenario_a_run with
  | Ok ga _ => ga
  | _ => initial_ga
  end.

Definition scenario_a_final_world : World :=
  match scenario_a_run with
  | Ok _ w => w
  | _ => empty_world
  end.

Definition scenario_a_start : outcome World (list individual_ref) :=
  Eval vm_compute in initial_population (init scenario_a) 20 3 [] empty_world.

Definition scenario_a_generation_0 : GA :=
  {| population := match scenario_a_start with
                   | Ok population _ => population
                   | _ => []
                   end;
     best_solution := None;
     best_fitness := NegInf |}.

Definition scenario_a_world_0 : World :=
  match scenario_a_start with
  | Ok _ w => w
  | _ => empty_world
  end.

Definition scenario_a_step : outcome World GA :=
  Eval vm_compute in
    generation (init scenario_a) 20 3 (1 # 2) 1
               scenario_a_generation_0 scenario_a_world_0.

Definition scenario_a_generation_1 : GA :=
  match scenario_a_step with
  | Ok ga _ => ga
  | _ => initial_ga
  end.

Definition scenario_a_world_1 : World :=
  match scenario_a_step with
  | Ok _ w => w
  | _ => empty_world
  end.



(** *** The order of placements

    The builder appends: a session of a built candidate was placed when the
    candidate held the sessions before it — for a lecture the lectures before
    it, for a practical all lectures and the practicals before it, for a
    mentoring session all lectures, all practicals and the mentoring sessions
    before it. *)








(* ================================================================== *)
(** * Further definitions: occupancy, the generation route, the grid *)

(* ------------------------------------------------------------------ *)
(** ** Who and what is where *)

(** The sessions of [ind] that keep faculty [f] at day [d], slot [s]: a
    lecture or a mentoring session at that slot, a practical whose slots
    include it.  These are the three tests of [check_faculty_busy]. *)
Definition faculty_sessions_at (ind : individual) (f : ident) (d : string)
           (s : Z) : Z :=
  count_where (fun l => ident_eqb (l_faculty_id l) f
                        && String.eqb (l_day l) d
                        && (l_slot_number l =? s)) (lectures ind)
  + count_where (fun p => ident_eqb (p_faculty_id p) f
                          && String.eqb (p_day p) d
                          && ((p_start_slot p <=? s) && (s <=? p_end_slot p)))
                (practicals ind)
  + count_where (fun m => ident_eqb (m_faculty_id m) f
                          && String.eqb (m_day m) d
                          && (m_slot_number m =? s)) (mentorings ind).

(** The lectures and mentoring sessions of [ind] in room [r] at day [d],
    slot [s]. *)
Definition classroom_sessions_at (ind : individual) (r : ident) (d : string)
           (s : Z) : Z :=
  count_where (fun l => ident_eqb (l_room_id l) r
                        && String.eqb (l_day l) d
                        && (l_slot_number l =? s)) (lectures ind)
  + count_where (fun m => ident_eqb (m_room_id m) r
                          && String.eqb (m_day m) d
                          && (m_slot_number m =? s)) (mentorings ind).

(** The practicals of [ind] in room [r] on day [d] whose slots include
    [s]. *)
Definition lab_sessions_at (ind : individual) (r : ident) (d : string)
           (s : Z) : Z :=
  count_where (fun p => ident_eqb (p_room_id p) r
                        && String.eqb (p_day p) d
                        && ((p_start_slot p <=? s) && (s <=? p_end_slot p)))
              (practicals ind).

(** Nobody and no room is in two places. *)
Definition conflict_free (ind : individual) : Prop :=
  (forall f d s, truthy f = true -> faculty_sessions_at ind f d s <= 1)
  /\ (forall r d s, classroom_sessions_at ind r d s <= 1)
  /\ (forall r d s, lab_sessions_at ind r d s <= 1).

(** *** A small request with every kind of session *)

(** Two subjects with lectures and practicals, two batches of which one has
    a mentor, two classrooms and two labs. *)
Definition small_term : Snapshot :=
  {| db_class_subjects :=
       [ {| cs_id := Some 1; cs_subject_id := Some 1; cs_faculty_id := Some 1;
            lecture_slots_per_week := 2; practical_slots_per_week := 1 |};
         {| cs_id := Some 2; cs_subject_id := Some 2; cs_faculty_id := Some 2;
            lecture_slots_per_week := 1; practical_slots_per_week := 1 |} ];
     db_batches :=
       [ {| b_id := Some 1; mentor_id := Some 1 |};
         {| b_id := Some 2; mentor_id := None |} ];
     db_rooms :=
       [ {| r_id := Some 1; room_number := "A-101"; room_type := "Classroom";
            capacity := 60 |};
         {| r_id := Some 2; room_number := "A-102"; room_type := "Classroom";
            capacity := 60 |};
         {| r_id := Some 3; room_number := "LAB-1"; room_type := "Lab";
            capacity := 40 |};
         {| r_id := Some 5; room_number := "LAB-2"; room_type := "Lab";
            capacity := 30 |} ] |}.

Definition small_term_outcome : outcome Rng individual :=
  Eval vm_compute in create_individual (init small_term) 100 scrambled_tape.

Definition small_term_individual : individual :=
  match small_term_outcome with
  | Ok ind _ => ind
  | _ => empty_individual
  end.

(* ------------------------------------------------------------------ *)
(** ** What the builder sets out to place *)

(** The loops of [create_individual] each append to one list only. *)
Definition only_lectures_differ (ind0 ind : individual) : Prop :=
  practicals ind = practicals ind0 /\ mentorings ind = mentorings ind0.

Definition only_practicals_differ (ind0 ind : individual) : Prop :=
  lectures ind = lectures ind0 /\ mentorings ind = mentorings ind0.

Definition only_mentorings_differ (ind0 ind : individual) : Prop :=
  lectures ind = lectures ind0 /\ practicals ind = practicals ind0.




(* ------------------------------------------------------------------ *)
(** ** What is stored for a class *)

(** The timetable rows of class [c], and the rows of the other classes. *)
Definition rows_of_class (c : Z) (rows : list TimetableRow) : list TimetableRow :=
  filter (fun r => t_class_id r =? c) rows.

Definition rows_of_others (c : Z) (rows : list TimetableRow) : list TimetableRow :=
  filter (fun r => negb (t_class_id r =? c)) rows.

Definition slots_of_class (c : Z) (rows : list PracticalSlotRow)
  : list PracticalSlotRow :=
  filter (fun r => ps_class_id r =? c) rows.

Definition slots_of_others (c : Z) (rows : list PracticalSlotRow)
  : list PracticalSlotRow :=
  filter (fun r => negb (ps_class_id r =? c)) rows.

(** The timetable rows of a solution without mentoring sessions, in the
    order [save_to_database] adds them. *)
Definition solution_rows (c : Z) (self : Engine) (solution : individual)
  : list TimetableRow :=
  map (lecture_row c) (lectures solution)
  ++ map (practical_row c) (practicals solution)
  ++ map (lunch_break_row c) (days self).

(** A database that holds a timetable for class 1 and one for class 2. *)
Definition two_class_tables : Tables :=
  {| timetable := [ lecture_row 1 (sample_lecture 1 "Monday" 0);
                    lunch_break_row 1 "Monday";
                    lecture_row 2 (sample_lecture 2 "Monday" 0) ];
     practical_slot := [] |}.

Definition two_class_database : Database :=
  {| stored := two_class_tables; session := two_class_tables |}.

(* ------------------------------------------------------------------ *)
(** ** The generation route: [run_timetable_generation] *)

(** The tables the route and the constructor query.  A [ClassSubject] row
    and a [Batch] row carry the id of their class. *)
Record Catalogue : Type := {
  class_ids : list Z;
  class_subject_rows : list (Z * ClassSubject);
  batch_rows : list (Z * Batch);
  room_rows : list Room
}.

(** [ClassSubject.query.filter_by(class_id=c)] *)
Definition class_subjects_of (cat : Catalogue) (c : Z) : list ClassSubject :=
  map snd (filter (fun row => fst row =? c) (class_subject_rows cat)).

(** [Batch.query.filter_by(class_id=c)] *)
Definition batches_of (cat : Catalogue) (c : Z) : list Batch :=
  map snd (filter (fun row => fst row =? c) (batch_rows cat)).

(** What the queries of [__init__] return for class [c]. *)
Definition snapshot_of (cat : Catalogue) (c : Z) : Snapshot :=
  {| db_class_subjects := class_subjects_of cat c;
     db_batches := batches_of cat c;
     db_rooms := room_rows cat |}.

(** What the [try] block can raise: [NotFound] from [get_or_404], or an
    exception of the engine. *)
Inductive failure : Type :=
| NotFound
| Raised (e : exn).

(** The messages the route flashes. *)
Inductive message : Type :=
| assign_subjects_first
| add_rooms_first
| generated_successfully
| failed_to_generate
| error_generating (e : failure).

(** The pages the route redirects to. *)
Inductive page : Type :=
| manage_class_subjects_page (class_id : Z)
| manage_rooms_page
| view_timetable_page (class_id : Z).

(** What a request works on: the interpreter's random generator and
    objects, the database, the flashed messages. *)
Record Site : Type := {
  world : World;
  database : Database;
  flashes : list message
}.

Inductive route_outcome (A : Type) : Type :=
| Done (a : A) (s : Site)
| Failed (e : failure) (s : Site)
| Running.
Arguments Done {A} a s.
Arguments Failed {A} e s.
Arguments Running {A}.

(** [flash(message, category)] *)
Definition flash (m : message) (s : Site) : Site :=
  {| world := world s; database := database s; flashes := flashes s ++ [m] |}.

Definition with_world (s : Site) (w : World) : Site :=
  {| world := w; database := database s; flashes := flashes s |}.

Definition with_database (s : Site) (db : Database) : Site :=
  {| world := world s; database := db; flashes := flashes s |}.

(** [ga.best_fitness > 0] *)
Definition is_positive (best : best_score) : bool :=
  match best with
  | NegInf => false
  | Score f => 0 <? f
  end.

(** The [try] block of the route: [Some page] when it returns a redirect
    itself, [None] when control reaches the end of the block.  [evolve] is
    called with [population_size=20, generations=30] and its defaults
    [mutation_rate=0.2, elite_size=5]; a multiple of 2^-53 is below the
    double nearest to 0.2 exactly when it is below 1/5.  A solution is a
    dict with three keys and so is true whenever it is not [None]. *)
Definition generation_attempt (cat : Catalogue) (fuel : nat) (class_id : Z)
           (s : Site) : route_outcome (option page) :=
  if negb (existsb (Z.eqb class_id) (class_ids cat)) then Failed NotFound s
  else if is_empty (class_subjects_of cat class_id)
  then Done (Some (manage_class_subjects_page class_id))
            (flash assign_subjects_first s)
  else if is_empty (room_rows cat)
  then Done (Some manage_rooms_page) (flash add_rooms_first s)
  else
    let ga := init (snapshot_of cat class_id) in
    match evolve ga fuel 20 30 (1 # 5) 5 initial_ga (world s) with
    | Diverge => Running
    | Raise e w => Failed (Raised e) (with_world s w)
    | Ok attrs w =>
        let s := with_world s w in
        match best_solution attrs with
        | Some solution =>
            if is_positive (best_fitness attrs) then
              match save_to_database class_id ga (deref (store w) solution)
                                     (database s) with
              | Diverge => Running
              | Raise e db => Failed (Raised e) (with_database s db)
              | Ok _ db =>
                  Done None (flash generated_successfully (with_database s db))
              end
            else Done None (flash failed_to_generate s)
        | None => Done None (flash failed_to_generate s)
        end
    end.

(** [run_timetable_generation]: the [try] block, the handler of
    [except Exception], and the final redirect. *)
Definition run_timetable_generation (cat : Catalogue) (fuel : nat)
           (class_id : Z) (s : Site) : route_outcome page :=
  match generation_attempt cat fuel class_id s with
  | Done (Some p) s' => Done p s'
  | Done None s' => Done (view_timetable_page class_id) s'
  | Failed e s' => Done (view_timetable_page class_id) (flash (error_generating e) s')
  | Running => Running
  end.
(* ================================================================== *)
(** * Properties *)

(* ------------------------------------------------------------------ *)
(** ** Basic facts *)

Lemma ident_eqb_eq x y : ident_eqb x y = true <-> x = y.
Proof.
  destruct x as [a|], y as [b|]; simpl; split; intro H;
    try discriminate; try reflexivity.
  - apply Z.eqb_eq in H. now subst.
  - inversion H. apply Z.eqb_refl.
Qed.

Lemma ident_eqb_refl x : ident_eqb x x = true.
Proof. now apply ident_eqb_eq. Qed.

Lemma ident_eqb_neq x y : ident_eqb x y = false <-> x <> y.
Proof.
  split.
  - intros H E. apply ident_eqb_eq in E. congruence.
  - intro H. destruct (ident_eqb x y) eqn:E; [|reflexivity].
    apply ident_eqb_eq in E. contradiction.
Qed.

Lemma ident_eqb_sym x y : ident_eqb x y = ident_eqb y x.
Proof.
  destruct (ident_eqb y x) eqn:E.
  - apply ident_eqb_eq in E. subst. apply ident_eqb_refl.
  - apply ident_eqb_neq in E. apply ident_eqb_neq. congruence.
Qed.

Lemma room_key_eqb_eq a b : room_key_eqb a b = true <-> a = b.
Proof.
  destruct a as [[r1 d1] s1], b as [[r2 d2] s2]. unfold room_key_eqb.
  rewrite !andb_true_iff, ident_eqb_eq, String.eqb_eq, Z.eqb_eq.
  split.
  - intros [[-> ->] ->]. reflexivity.
  - intro H. inversion H. auto.
Qed.

Lemma bind_Ok {S A B} (c : M S A) (k : A -> M S B) s b s' :
  bind c k s = Ok b s' ->
  exists a s1, c s = Ok a s1 /\ k a s1 = Ok b s'.
Proof.
  unfold bind. destruct (c s) as [a s1| |]; try discriminate. eauto.
Qed.

Lemma bind_Raise {S A B} (c : M S A) (k : A -> M S B) s e s' :
  bind c k s = Raise e s' ->
  c s = Raise e s' \/ exists a s1, c s = Ok a s1 /\ k a s1 = Raise e s'.
Proof.
  unfold bind. destruct (c s) as [a s1|e1 s1|]; try discriminate.
  - intro H. right. eauto.
  - intro H. left. now inversion H.
Qed.

Lemma bind_Diverge {S A B} (c : M S A) (k : A -> M S B) s :
  c s = Diverge -> bind c k s = Diverge.
Proof. unfold bind. now intros ->. Qed.

Lemma ret_Ok {S A} (a b : A) (s s' : S) : ret a s = Ok b s' -> a = b /\ s = s'.
Proof. unfold ret. intro H. now inversion H. Qed.

(** Inversion of a successful run, one [bind] at a time. *)
Ltac inv_ok H :=
  repeat match type of H with
         | bind _ _ _ = Ok _ _ =>
             let a := fresh "a" in
             let s := fresh "s" in
             let H1 := fresh "Hstep" in
             apply bind_Ok in H; destruct H as (a & s & H1 & H)
         | ret _ _ = Ok _ _ =>
             apply ret_Ok in H; destruct H; subst
         | raise _ _ = Ok _ _ => discriminate H
         | diverge _ = Ok _ _ => discriminate H
         end.

(* ------------------------------------------------------------------ *)
(** ** Crossover *)

Lemma nth_error_firstn_skipn {A} (l1 l2 : list A) (n i : nat) :
  (n <= length l1)%nat ->
  nth_error (firstn n l1 ++ skipn n l2) i =
  if (i <? n)%nat then nth_error l1 i else nth_error l2 i.
Proof.
  intro Hn.
  assert (Hlen : length (firstn n l1) = n) by (rewrite length_firstn; lia).
  destruct (Nat.ltb_spec i n) as [E|E].
  - rewrite nth_error_app1 by lia.
    rewrite nth_error_firstn.
    destruct (Nat.ltb_spec i n); [reflexivity|lia].
  - rewrite nth_error_app2 by lia.
    rewrite Hlen, nth_error_skipn. f_equal. lia.
Qed.

Lemma crossover_list_nonempty {A} (l1 l2 : list A) :
  l1 <> [] -> l2 <> [] ->
  crossover_list l1 l2 =
  firstn (length l1 / 2) l1 ++ skipn (length l1 / 2) l2.
Proof.
  intros H1 H2. unfold crossover_list, slice_to, slice_from.
  destruct l1; [contradiction|]. destruct l2; [contradiction|]. reflexivity.
Qed.

Lemma crossover_list_empty {A} (l1 l2 : list A) :
  l1 = [] \/ l2 = [] -> crossover_list l1 l2 = [].
Proof.
  unfold crossover_list. intros [-> | ->]; [reflexivity|].
  destruct l1; reflexivity.
Qed.

(** Position by position: below the midpoint of the first parent the child
    has the first parent's session, from there on the second parent's. *)
Lemma crossover_list_nth {A} (l1 l2 : list A) (i : nat) :
  l1 <> [] -> l2 <> [] ->
  nth_error (crossover_list l1 l2) i =
  if (i <? length l1 / 2)%nat then nth_error l1 i else nth_error l2 i.
Proof.
  intros H1 H2. rewrite crossover_list_nonempty by assumption.
  apply nth_error_firstn_skipn.
  apply Nat.Div0.div_le_upper_bound. lia.
Qed.

(** The child of [parent_a] and a parent without lectures has no lecture,
    although the first half of [parent_a] is not empty. *)
Lemma crossover_empty_parent_counterexample :
  ~ (forall p1 p2 : individual,
        lectures (crossover p1 p2) =
        crossover_halves (lectures p1) (lectures p2)).
Proof.
  intro H. specialize (H parent_a parent_without_lectures).
  vm_compute in H. discriminate H.
Qed.

Lemma parents_conflict_free_child_not :
  rooms_conflict_free parent_a /\ rooms_conflict_free parent_b /\
  ~ rooms_conflict_free (crossover parent_a parent_b).
Proof.
  unfold rooms_conflict_free. repeat split.
  - simpl. repeat constructor; simpl; intuition discriminate.
  - simpl. repeat constructor; simpl; intuition discriminate.
  - simpl. intro H. inversion H as [|k l Hin _]; subst.
    apply Hin. now left.
Qed.

(** C5 (as amended).  For each of the three session lists on its own: when
    both parents' lists are non-empty the child's list is the first parent's
    list up to its midpoint (length divided by two, rounded down) followed by
    the second parent's list from that same index on; when either parent's
    list is empty the child's list is empty.  The child is not checked for
    conflicts: two parents free of room conflicts can have a child with a
    double-booked room. *)
Theorem crossover_halves_when_both_nonempty :
  (forall (L P Mt : Type) (p1 p2 : individual_of L P Mt),
      let child := crossover p1 p2 in
      (lectures p1 <> [] -> lectures p2 <> [] ->
       lectures child = crossover_halves (lectures p1) (lectures p2))
      /\ (lectures p1 = [] \/ lectures p2 = [] -> lectures child = [])
      /\ (practicals p1 <> [] -> practicals p2 <> [] ->
          practicals child = crossover_halves (practicals p1) (practicals p2))
      /\ (practicals p1 = [] \/ practicals p2 = [] -> practicals child = [])
      /\ (mentorings p1 <> [] -> mentorings p2 <> [] ->
          mentorings child = crossover_halves (mentorings p1) (mentorings p2))
      /\ (mentorings p1 = [] \/ mentorings p2 = [] -> mentorings child = []))
  /\ (exists p1 p2 : individual,
         rooms_conflict_free p1 /\ rooms_conflict_free p2 /\
         ~ rooms_conflict_free (crossover p1 p2)).
Proof.
  split.
  - intros L P Mt p1 p2 child. subst child. simpl.
    repeat split; intros;
      solve [ now apply crossover_list_nonempty
            | now apply crossover_list_empty ].
  - exists parent_a, parent_b. exact parents_conflict_free_child_not.
Qed.

(** The child of [parent_a] and [parent_b]: one lecture from each. *)
Lemma crossover_halves_witness :
  lectures parent_a <> [] /\ lectures parent_b <> [] /\
  lectures (crossover parent_a parent_b) =
  [sample_lecture 1 "Monday" 0; sample_lecture 1 "Monday" 0].
Proof.
  split; [discriminate | split; [discriminate|]].
  destruct crossover_halves_when_both_nonempty as [H _].
  destruct (H _ _ _ parent_a parent_b) as [Hl _].
  rewrite Hl by discriminate. reflexivity.
Defined.

(* ------------------------------------------------------------------ *)
(** ** Persistence *)

Lemma add_rows_Ok {A} (f : A -> TimetableRow) (l : list A) (db : Database) :
  for_each_ l (fun x => add_timetable (f x)) db =
  Ok tt (with_timetable db (map f l)).
Proof.
  revert db. induction l as [|x l IH]; intro db.
  - destruct db as [st [tt ps]]. unfold with_timetable. simpl.
    now rewrite app_nil_r.
  - simpl. unfold bind. simpl. rewrite IH. unfold with_timetable. simpl.
    now rewrite <- app_assoc.
Qed.

Lemma add_practicals_Ok (c : Z) (l : list practical) (db : Database) :
  for_each_ l (fun p => _ <- add_practical_slot (practical_slot_row c p) ;;
                        add_timetable (practical_row c p)) db =
  Ok tt {| stored := stored db;
           session := {| timetable :=
                           timetable (session db) ++ map (practical_row c) l;
                         practical_slot :=
                           practical_slot (session db)
                           ++ map (practical_slot_row c) l |} |}.
Proof.
  revert db. induction l as [|x l IH]; intro db.
  - destruct db as [st [tt ps]]. simpl. now rewrite !app_nil_r.
  - simpl. unfold bind. simpl. rewrite IH. simpl.
    now rewrite <- !app_assoc.
Qed.

(** The first pass of the mentoring loop raises before it adds a row. *)
Lemma add_mentorings_raises (c : Z) (m : mentoring) (l : list mentoring)
      (db : Database) :
  for_each_ (m :: l) (fun mentoring =>
     menturing <- eval_name [("mentoring", mentoring)] "menturing" ;;
     add_timetable (mentoring_row c menturing)) db =
  Raise NameError db.
Proof. reflexivity. Qed.

Lemma mentoring_free_app (c : Z) (rows1 rows2 : list TimetableRow) ps1 ps2 :
  mentoring_free c {| timetable := rows1; practical_slot := ps1 |} ->
  (forall row, In row rows2 -> t_session_type row <> "Mentoring") ->
  mentoring_free c {| timetable := rows1 ++ rows2; practical_slot := ps2 |}.
Proof.
  intros H1 H2 row Hin Hc. simpl in Hin. apply in_app_or in Hin.
  destruct Hin as [Hin|Hin]; [now apply (H1 row)|now apply H2].
Qed.

Lemma mentoring_free_deleted (c : Z) (rows : list TimetableRow) ps :
  mentoring_free c
    {| timetable := filter (fun r => negb (t_class_id r =? c)) rows;
       practical_slot := ps |}.
Proof.
  intros row Hin Hc. simpl in Hin. apply filter_In in Hin.
  destruct Hin as [_ Hne]. subst c. now rewrite Z.eqb_refl in Hne.
Qed.

(** C10.  When the solution has a mentoring session, [save_to_database]
    raises [NameError] — after the class's old rows are deleted and that is
    committed, before any mentoring row is added — so neither the stored
    tables nor the open session hold a mentoring row of the class.  The
    method returns only when the solution's mentoring list is empty. *)
Theorem save_to_database_mentoring_never_stored :
  forall (class_id : Z) (self : Engine) (solution : individual) (db : Database),
    (mentorings solution <> [] ->
     exists db',
       save_to_database class_id self solution db = Raise NameError db'
       /\ mentoring_free class_id (stored db')
       /\ mentoring_free class_id (session db'))
    /\ (mentorings solution = [] ->
        exists db',
          save_to_database class_id self solution db = Ok true db'
          /\ mentoring_free class_id (stored db'))
    /\ (forall b db',
           save_to_database class_id self solution db = Ok b db' ->
           mentorings solution = []).
Proof.
  intros c self sol db.
  assert (Hraise : forall m l,
             mentorings sol = m :: l ->
             exists db',
               save_to_database c self sol db = Raise NameError db'
               /\ mentoring_free c (stored db')
               /\ mentoring_free c (session db')).
  { intros m l Hm. unfold save_to_database.
    unfold bind at 1. simpl. unfold bind at 1. simpl. unfold bind at 1. simpl.
    unfold bind at 1. rewrite add_rows_Ok.
    unfold bind at 1. rewrite add_practicals_Ok.
    unfold bind at 1. rewrite Hm, add_mentorings_raises.
    eexists. split; [reflexivity|]. simpl. split.
    - apply mentoring_free_deleted.
    - rewrite <- app_assoc. apply mentoring_free_app with (ps1 := []).
      + apply mentoring_free_deleted.
      + intros row Hin. apply in_app_or in Hin.
        destruct Hin as [Hin|Hin]; apply in_map_iff in Hin;
          destruct Hin as (x & <- & _); simpl; discriminate. }
  repeat split.
  - intro Hne. destruct (mentorings sol) as [|m l] eqn:E; [contradiction|].
    now apply (Hraise m l).
  - intro Hm. unfold save_to_database.
    unfold bind at 1. simpl. unfold bind at 1. simpl. unfold bind at 1. simpl.
    unfold bind at 1. rewrite add_rows_Ok.
    unfold bind at 1. rewrite add_practicals_Ok.
    unfold bind at 1. rewrite Hm. simpl.
    unfold bind at 1. rewrite add_rows_Ok.
    eexists. split; [reflexivity|]. simpl.
    rewrite <- !app_assoc. apply mentoring_free_app with (ps1 := []).
    + apply mentoring_free_deleted.
    + intros row Hin. apply in_app_or in Hin. destruct Hin as [Hin|Hin];
        [|apply in_app_or in Hin; destruct Hin as [Hin|Hin]];
        apply in_map_iff in Hin; destruct Hin as (x & <- & _); simpl;
        discriminate.
  - intros b db' Hok. destruct (mentorings sol) as [|m l] eqn:E; [reflexivity|].
    destruct (Hraise m l eq_refl) as (db2 & Hr & _). congruence.
Qed.

(** A solution with one mentoring session: the call raises. *)
Lemma save_to_database_mentoring_witness :
  mentorings solution_with_mentoring <> [] /\
  exists db',
    save_to_database 1 (init {| db_class_subjects := []; db_batches := [];
                                db_rooms := [] |})
                     solution_with_mentoring empty_database
    = Raise NameError db'.
Proof.
  split; [discriminate|].
  destruct (save_to_database_mentoring_never_stored
              1 (init {| db_class_subjects := []; db_batches := [];
                         db_rooms := [] |})
              solution_with_mentoring empty_database) as (H & _ & _).
  destruct H as (db' & Hr & _); [discriminate|].
  exists db'. exact Hr.
Defined.

(* ------------------------------------------------------------------ *)
(** ** Dicts *)

Section DictFacts.
Context {K V : Type} (eqb : K -> K -> bool).
Hypothesis eqb_eq : forall a b, eqb a b = true <-> a = b.

Lemma eqb_refl' a : eqb a a = true.
Proof. now apply eqb_eq. Qed.

Lemma dict_lookup_set (d : dict) (k k' : K) (v : V) :
  dict_lookup eqb (dict_set eqb d k v) k' =
  if eqb k k' then Some v else dict_lookup eqb d k'.
Proof.
  induction d as [|[k0 v0] d IH]; simpl.
  - reflexivity.
  - destruct (eqb k0 k) eqn:E0; simpl.
    + apply eqb_eq in E0. subst k0.
      destruct (eqb k k'); reflexivity.
    + rewrite IH. destruct (eqb k0 k') eqn:E1; [|reflexivity].
      destruct (eqb k k') eqn:E2; [|reflexivity].
      apply eqb_eq in E1, E2. subst. rewrite eqb_refl' in E0. discriminate.
Qed.

Lemma dict_get_set (d : dict) (k k' : K) (v default : V) :
  dict_get eqb (dict_set eqb d k v) k' default =
  if eqb k k' then v else dict_get eqb d k' default.
Proof.
  unfold dict_get. rewrite dict_lookup_set. now destruct (eqb k k').
Qed.

Lemma dict_mem_set (d : dict) (k k' : K) (v : V) :
  dict_mem eqb (dict_set eqb d k v) k' = eqb k k' || dict_mem eqb d k'.
Proof.
  unfold dict_mem. rewrite dict_lookup_set. now destruct (eqb k k').
Qed.

Lemma dict_mem_keys (d : dict (V := V)) (k : K) :
  dict_mem eqb d k = true <-> In k (dict_keys d).
Proof.
  unfold dict_mem. induction d as [|[k0 v0] d IH]; simpl.
  - split; [discriminate|contradiction].
  - destruct (eqb k0 k) eqn:E.
    + apply eqb_eq in E. split; auto.
    + rewrite IH. split; [auto|].
      intros [H|H]; [|assumption]. subst. rewrite eqb_refl' in E. discriminate.
Qed.

Lemma dict_keys_set (d : dict) (k : K) (v : V) :
  dict_keys (dict_set eqb d k v) =
  if dict_mem eqb d k then dict_keys d else dict_keys d ++ [k].
Proof.
  unfold dict_mem. induction d as [|[k0 v0] d IH]; simpl.
  - reflexivity.
  - destruct (eqb k0 k) eqn:E; simpl; [reflexivity|].
    rewrite IH. now destruct (dict_lookup eqb d k).
Qed.

Lemma dict_keys_set_In (d : dict) (k k' : K) (v : V) :
  In k' (dict_keys (dict_set eqb d k v)) <-> k = k' \/ In k' (dict_keys d).
Proof.
  rewrite <- !dict_mem_keys, dict_mem_set, orb_true_iff, eqb_eq. tauto.
Qed.

Lemma dict_keys_set_NoDup (d : dict) (k : K) (v : V) :
  NoDup (dict_keys d) -> NoDup (dict_keys (dict_set eqb d k v)).
Proof.
  intro H. rewrite dict_keys_set. destruct (dict_mem eqb d k) eqn:E; [assumption|].
  apply NoDup_app; [assumption|repeat constructor; simpl; tauto|].
  intros x Hx [Hk|[]]. subst x.
  apply dict_mem_keys in Hx. congruence.
Qed.

(** With distinct keys, the values in item order are the values looked up
    key by key. *)
Lemma dict_values_lookup (d : dict) (default : V) :
  NoDup (dict_keys d) ->
  map snd d = map (fun k => dict_get eqb d k default) (dict_keys d).
Proof.
  induction d as [|[k0 v0] d IH]; simpl; intro H; [reflexivity|].
  inversion H as [|? ? Hnin Hnd]; subst.
  unfold dict_get at 1. simpl. rewrite eqb_refl'. f_equal.
  rewrite IH by assumption. apply map_ext_in.
  intros k Hk. unfold dict_get. simpl.
  destruct (eqb k0 k) eqn:E; [|reflexivity].
  apply eqb_eq in E. subst. contradiction.
Qed.
End DictFacts.

(* ------------------------------------------------------------------ *)
(** ** Fitness: the code computes the reference definition *)

Lemma count_where_cons {A} (f : A -> bool) (x : A) (l : list A) :
  count_where f (x :: l) = (if f x then 1 else 0) + count_where f l.
Proof.
  unfold count_where. simpl. destruct (f x); simpl length; lia.
Qed.

Lemma count_where_nil {A} (f : A -> bool) : count_where f [] = 0.
Proof. reflexivity. Qed.

Lemma sumZ_Permutation {A} (f : A -> Z) (l l' : list A) :
  Permutation l l' -> sumZ f l = sumZ f l'.
Proof.
  induction 1; simpl; lia.
Qed.

Lemma sumZ_ext_in {A} (f g : A -> Z) (l : list A) :
  (forall x, In x l -> f x = g x) -> sumZ f l = sumZ g l.
Proof.
  induction l as [|x l IH]; simpl; intro H; [reflexivity|].
  rewrite (H x) by now left. rewrite IH; [reflexivity|].
  intros y Hy. apply H. now right.
Qed.

Lemma sumZ_map {A B} (f : B -> Z) (g : A -> B) (l : list A) :
  sumZ f (map g l) = sumZ (fun x => f (g x)) l.
Proof. induction l; simpl; congruence. Qed.

Lemma fold_left_sumZ {A} (g : A -> Z) (step : Z -> A -> Z) :
  (forall acc x, step acc x = acc + g x) ->
  forall l a, fold_left step l a = a + sumZ g l.
Proof.
  intros Hstep l. induction l as [|x l IH]; intro a; simpl; [lia|].
  rewrite IH, Hstep. lia.
Qed.

Section Tally.
Context {A : Type} (key : A -> ident) (w : Z).

Lemma add_hours_get (h : dict) (k k' : ident) :
  dict_get ident_eqb (add_hours h k w) k' 0 =
  dict_get ident_eqb h k' 0 + (if ident_eqb k k' then w else 0).
Proof.
  unfold add_hours. rewrite (dict_get_set ident_eqb ident_eqb_eq).
  destruct (ident_eqb k k') eqn:E; [|lia].
  apply ident_eqb_eq in E. now subst.
Qed.

(** [for x in xs: hours[key(x)] = hours.get(key(x), 0) + w] *)
Lemma tally_get (xs : list A) (h : dict) (k : ident) :
  dict_get ident_eqb (fold_left (fun h x => add_hours h (key x) w) xs h) k 0 =
  dict_get ident_eqb h k 0
  + w * count_where (fun x => ident_eqb (key x) k) xs.
Proof.
  revert h. induction xs as [|x xs IH]; intro h; simpl.
  - rewrite count_where_nil. lia.
  - rewrite IH, add_hours_get, count_where_cons.
    destruct (ident_eqb (key x) k); lia.
Qed.

(** The same loop under [if key(x):]. *)
Lemma tally_faculty_get (xs : list A) (h : dict) (k : ident) :
  truthy k = true ->
  dict_get ident_eqb
           (fold_left (fun h x => add_faculty_hours h (key x) w) xs h) k 0 =
  dict_get ident_eqb h k 0
  + w * count_where (fun x => ident_eqb (key x) k) xs.
Proof.
  intro Hk. revert h. induction xs as [|x xs IH]; intro h; simpl.
  - rewrite count_where_nil. lia.
  - rewrite IH, count_where_cons. unfold add_faculty_hours.
    destruct (truthy (key x)) eqn:Ht.
    + rewrite add_hours_get. destruct (ident_eqb (key x) k); lia.
    + destruct (ident_eqb (key x) k) eqn:E; [|lia].
      apply ident_eqb_eq in E. congruence.
Qed.

Lemma tally_faculty_keys (xs : list A) (h : dict) (k : ident) :
  In k (dict_keys (fold_left (fun h x => add_faculty_hours h (key x) w) xs h))
  <-> In k (dict_keys h) \/ (truthy k = true /\ In k (map key xs)).
Proof.
  revert h. induction xs as [|x xs IH]; intro h; simpl.
  - tauto.
  - rewrite IH. unfold add_faculty_hours.
    destruct (truthy (key x)) eqn:Ht.
    + unfold add_hours. rewrite (dict_keys_set_In ident_eqb ident_eqb_eq).
      split.
      * intros [[H|H]|[H1 H2]]; auto. subst. auto.
      * intros [H|[H1 [H2|H2]]]; auto.
    + split.
      * intros [H|[H1 H2]]; auto.
      * intros [H|[H1 [H2|H2]]]; auto. congruence.
Qed.

Lemma tally_faculty_NoDup (xs : list A) (h : dict) :
  NoDup (dict_keys h) ->
  NoDup (dict_keys (fold_left (fun h x => add_faculty_hours h (key x) w) xs h)).
Proof.
  revert h. induction xs as [|x xs IH]; intros h H; simpl; [assumption|].
  apply IH. unfold add_faculty_hours.
  destruct (truthy (key x)); [|assumption].
  now apply (dict_keys_set_NoDup ident_eqb ident_eqb_eq).
Qed.
End Tally.

Lemma nodup_length_same_elements {A} (dec : forall x y : A, {x = y} + {x <> y})
      (l l' : list A) :
  (forall x, In x l <-> In x l') ->
  length (nodup dec l) = length (nodup dec l').
Proof.
  intro H. apply Permutation_length.
  apply NoDup_Permutation; try apply NoDup_nodup.
  intro x. rewrite !nodup_In. apply H.
Qed.

Lemma nodup_length_snoc {A} (dec : forall x y : A, {x = y} + {x <> y})
      (l : list A) (k : A) :
  ~ In k l ->
  length (nodup dec (l ++ [k])) = S (length (nodup dec l)).
Proof.
  intro Hk.
  change (S (length (nodup dec l))) with (length (k :: nodup dec l)).
  apply Permutation_length.
  apply NoDup_Permutation.
  - apply NoDup_nodup.
  - constructor; [now rewrite nodup_In|apply NoDup_nodup].
  - intro x. rewrite nodup_In, in_app_iff. simpl. rewrite nodup_In. tauto.
Qed.

(** The room-conflict loop: 50 for every lecture whose key is already in
    [room_schedule]. *)
Lemma room_conflict_loop (ls : list lecture) (penalties : Z)
      (room_schedule : dict (K := room_key) (V := bool)) :
  fst (fold_left
         (fun (acc : Z * dict (K := room_key) (V := bool)) l =>
            let '(penalties, room_schedule) := acc in
            let key := lecture_key l in
            let penalties :=
              if dict_mem room_key_eqb room_schedule key
              then penalties + 50 else penalties in
            (penalties, dict_set room_key_eqb room_schedule key true))
         ls (penalties, room_schedule)) =
  penalties
  + 50 * (Z.of_nat (length ls)
          - (Z.of_nat (length (nodup room_key_eq_dec
                                     (dict_keys room_schedule
                                      ++ map lecture_key ls)))
             - Z.of_nat (length (nodup room_key_eq_dec
                                       (dict_keys room_schedule))))).
Proof.
  revert penalties room_schedule.
  induction ls as [|l ls IH]; intros pen rs.
  - cbn [fold_left map length fst]. rewrite app_nil_r. lia.
  - cbn [fold_left map]. cbv zeta. rewrite IH. clear IH.
    rewrite (dict_keys_set room_key_eqb).
    destruct (dict_mem room_key_eqb rs (lecture_key l)) eqn:E.
    + apply (dict_mem_keys room_key_eqb room_key_eqb_eq) in E.
      rewrite (nodup_length_same_elements room_key_eq_dec
                 (dict_keys rs ++ lecture_key l :: map lecture_key ls)
                 (dict_keys rs ++ map lecture_key ls)).
      * simpl length. lia.
      * intro x. rewrite !in_app_iff. simpl. split; [|tauto].
        intros [H|[H|H]]; auto. subst. auto.
    + assert (Hk : ~ In (lecture_key l) (dict_keys rs)).
      { intro H. apply (dict_mem_keys room_key_eqb room_key_eqb_eq) in H.
        congruence. }
      rewrite <- app_assoc. simpl app.
      rewrite (nodup_length_snoc room_key_eq_dec _ _ Hk).
      simpl length. lia.
Qed.

Lemma faculty_of_In (ind : individual) (k : ident) :
  In k (faculty_of ind) <->
  truthy k = true /\
  (In k (map l_faculty_id (lectures ind))
   \/ In k (map p_faculty_id (practicals ind))
   \/ In k (map m_faculty_id (mentorings ind))).
Proof.
  unfold faculty_of. rewrite nodup_In, filter_In, !in_app_iff. tauto.
Qed.

(** The overload loop over the items of [faculty_hours]. *)
Lemma overload_loop (ind : individual) :
  fold_left (fun penalties (item : ident * Z) =>
               let hours := snd item in
               if 20 <? hours then penalties + (hours - 20) * 10
               else penalties)
            (fold_left (fun h m => add_faculty_hours h (m_faculty_id m) 1)
               (mentorings ind)
               (fold_left (fun h p => add_faculty_hours h (p_faculty_id p) 2)
                  (practicals ind)
                  (fold_left (fun h l => add_faculty_hours h (l_faculty_id l) 1)
                     (lectures ind) [])))
            0 =
  overload_penalty ind.
Proof.
  set (h1 := fold_left (fun h l => add_faculty_hours h (l_faculty_id l) 1)
                       (lectures ind) []).
  set (h2 := fold_left (fun h p => add_faculty_hours h (p_faculty_id p) 2)
                       (practicals ind) h1).
  set (h3 := fold_left (fun h m => add_faculty_hours h (m_faculty_id m) 1)
                       (mentorings ind) h2).
  pose (pen := fun hours : Z => if 20 <? hours then (hours - 20) * 10 else 0).
  rewrite (fold_left_sumZ (fun item : ident * Z => pen (snd item))).
  2:{ intros acc x. unfold pen. simpl. destruct (20 <? snd x); lia. }
  assert (Hnd : NoDup (dict_keys h3)).
  { unfold h3, h2, h1. repeat apply tally_faculty_NoDup. constructor. }
  assert (Hin : forall k, In k (dict_keys h3) <-> In k (faculty_of ind)).
  { intro k. rewrite faculty_of_In. unfold h3, h2, h1.
    rewrite !tally_faculty_keys. simpl. tauto. }
  assert (Hget : forall k, truthy k = true ->
                           dict_get ident_eqb h3 k 0 = weekly_load ind k).
  { intros k Hk. unfold h3, h2, h1.
    rewrite !tally_faculty_get by assumption.
    unfold weekly_load, dict_get. cbn [dict_lookup]. lia. }
  rewrite <- (sumZ_map pen snd).
  rewrite (dict_values_lookup ident_eqb ident_eqb_eq h3 0 Hnd).
  rewrite sumZ_map. simpl.
  rewrite (sumZ_Permutation _ (dict_keys h3) (faculty_of ind)).
  2:{ apply NoDup_Permutation; [assumption|apply NoDup_nodup|assumption]. }
  unfold overload_penalty. apply sumZ_ext_in.
  intros k Hk. apply faculty_of_In in Hk. destruct Hk as [Hk _].
  rewrite Hget by assumption. reflexivity.
Qed.

(** The loop over the class's subject assignments. *)
Lemma under_provision_loop (self : Engine) (ind : individual) (penalties : Z) :
  fold_left (fun penalties cs =>
               let required_lecture := lecture_slots_per_week cs in
               let required_practical := practical_slots_per_week cs * 2 in
               let actual_lecture :=
                 dict_get ident_eqb
                   (fold_left (fun h l => add_hours h (l_subject_id l) 1)
                              (lectures ind) [])
                   (cs_subject_id cs) 0 in
               let actual_practical :=
                 dict_get ident_eqb
                   (fold_left (fun h p => add_hours h (p_subject_id p) 2)
                              (practicals ind) [])
                   (cs_subject_id cs) 0 in
               let penalties :=
                 if actual_lecture <? required_lecture
                 then penalties + (required_lecture - actual_lecture) * 30
                 else penalties in
               if actual_practical <? required_practical
               then penalties + (required_practical - actual_practical) * 40
               else penalties)
            (class_subjects self) penalties =
  penalties + under_provision_penalty self ind.
Proof.
  unfold under_provision_penalty.
  apply fold_left_sumZ. intros acc cs. cbv zeta.
  rewrite !tally_get. unfold dict_get, shortfall. cbn [dict_lookup].
  rewrite !Z.mul_1_l, !Z.add_0_l.
  destruct (_ <? lecture_slots_per_week cs);
    destruct (_ <? practical_slots_per_week cs * 2); lia.
Qed.

(** C2.  [calculate_fitness] is the reference definition: 1000 minus the
    overload, double-booking, under-provision and missing-mentoring
    penalties, and never below 0. *)
Theorem calculate_fitness_is_reference :
  forall (self : Engine) (ind : individual),
    calculate_fitness self ind = fitness_reference self ind.
Proof.
  intros self ind. unfold calculate_fitness, fitness_reference. cbv zeta.
  rewrite overload_loop.
  match goal with
  | |- context [fold_left ?f (lectures ind) (overload_penalty ind, [])] =>
      pose proof (room_conflict_loop (lectures ind) (overload_penalty ind) [])
        as Hroom;
      cbv zeta in Hroom;
      destruct (fold_left f (lectures ind) (overload_penalty ind, []))
        as [pen2 rs] eqn:E
  end.
  assert (Hpen : pen2 = fst (pen2, rs)) by reflexivity.
  rewrite <- E in Hpen. clear E.
  assert (Hpen' := eq_trans Hpen Hroom). clear Hpen Hroom.
  cbn [fst dict_keys map app nodup length] in Hpen'. subst pen2.
  rewrite under_provision_loop.
  rewrite Z.max_comm. f_equal. f_equal.
  unfold double_booking_penalty, duplicate_occurrences,
    missing_mentoring_penalty, shortfall, count_where.
  rewrite length_map.
  destruct (_ <? _); lia.
Qed.

(* ------------------------------------------------------------------ *)
(** ** Reasoning about computations *)

Lemma spec_ret {S A} (E : Prop) (a : A) (Q : A -> Prop) :
  Q a -> spec (S := S) E (ret a) Q.
Proof. intros H s. exact H. Qed.

Lemma spec_diverge {S A} (E : Prop) (Q : A -> Prop) :
  spec (S := S) E diverge Q.
Proof. intro s. exact I. Qed.

Lemma spec_bind {S A B} (E : Prop) (c : M S A) (k : A -> M S B)
      (Q : A -> Prop) (R : B -> Prop) :
  spec E c Q -> (forall a, Q a -> spec E (k a) R) -> spec E (bind c k) R.
Proof.
  intros Hc Hk s. unfold bind. specialize (Hc s).
  destruct (c s) as [a s1|e s1|]; [|assumption|exact I].
  apply (Hk a Hc).
Qed.

Lemma spec_weaken {S A} (E : Prop) (c : M S A) (Q Q' : A -> Prop) :
  spec E c Q -> (forall a, Q a -> Q' a) -> spec E c Q'.
Proof.
  intros Hc HQ s. specialize (Hc s).
  destruct (c s); auto.
Qed.

Lemma spec_Ok {S A} (E : Prop) (c : M S A) (Q : A -> Prop) s a s' :
  spec E c Q -> c s = Ok a s' -> Q a.
Proof. intros H Hc. specialize (H s). now rewrite Hc in H. Qed.


(** A computation that neither raises nor returns does not terminate. *)
Lemma spec_False_Diverge {S A} (c : M S A) s :
  spec False c (fun _ => False) -> c s = Diverge.
Proof.
  intro H. specialize (H s). destruct (c s); [contradiction|contradiction|reflexivity].
Qed.

Lemma spec_try_except {S A} (E : Prop) (body : M S A) (handler : exn -> M S A)
      (Q : A -> Prop) :
  spec True body Q -> (forall e, spec E (handler e) Q) ->
  spec E (try_except body handler) Q.
Proof.
  intros Hb Hh s. unfold try_except. specialize (Hb s).
  destruct (body s) as [a s1|e s1|]; [assumption| |exact I].
  apply Hh.
Qed.

Lemma spec_True {S A} (E : Prop) (c : M S A) (Q : A -> Prop) :
  spec E c Q -> spec True c Q.
Proof.
  intros H s. specialize (H s). destruct (c s); auto.
Qed.

Lemma spec_for_each {S A St} (E : Prop) (l : list A)
      (body : A -> St -> M S St) (Inv : St -> Prop) :
  (forall x st, In x l -> Inv st -> spec E (body x st) Inv) ->
  forall st, Inv st -> spec E (for_each l body st) Inv.
Proof.
  induction l as [|x l IH]; intros Hbody st Hst; simpl.
  - now apply spec_ret.
  - apply spec_bind with (Q := Inv).
    + apply Hbody; [now left|assumption].
    + intros st' Hst'. apply IH; [|assumption].
      intros y st'' Hy. apply Hbody. now right.
Qed.

Lemma spec_choice {A} (E : Prop) (l : list A) :
  E \/ l <> [] -> spec E (choice l) (fun x => In x l).
Proof.
  intros HE g. unfold choice. destruct l as [|d l'] eqn:El.
  - simpl. destruct HE as [He|Hne]; [assumption|contradiction].
  - unfold bind, randbelow, ret. rewrite <- El.
    apply nth_In. apply Nat.mod_upper_bound. subst. discriminate.
Qed.

Lemma spec_getitem {S A} (E : Prop) (l : list A) (i : Z) :
  E \/ getitem l i <> None ->
  spec (S := S) E (getitem_m l i) (fun _ => True).
Proof.
  intros HE s. unfold getitem_m. destruct (getitem l i).
  - exact I.
  - simpl. destruct HE as [He|Hne]; [assumption|contradiction].
Qed.

(* ------------------------------------------------------------------ *)
(** ** The conflict predicates *)

Lemma remove_room_In (r : Room) (rid : ident) (available : list Room) :
  In r (remove_room rid available) <-> In r available /\ r_id r <> rid.
Proof.
  unfold remove_room. rewrite filter_In, negb_true_iff, ident_eqb_neq. tauto.
Qed.

Lemma fold_remove_In {A} (step : list Room -> A -> list Room)
      (cond : A -> bool) (rid : A -> ident) :
  (forall available x,
      step available x =
      if cond x then remove_room (rid x) available else available) ->
  forall (xs : list A) (available : list Room) (r : Room),
    In r (fold_left step xs available) <->
    In r available /\ forall x, In x xs -> cond x = true -> r_id r <> rid x.
Proof.
  intros Hstep xs. induction xs as [|x xs IH]; intros available r; simpl.
  - split; [intro H; split; [assumption|contradiction]|tauto].
  - rewrite IH, Hstep. destruct (cond x) eqn:Ec.
    + rewrite remove_room_In. split.
      * intros [[H1 H2] H3]. split; [assumption|].
        intros y [<-|Hy] Hc; auto.
      * intros [H1 H2]. repeat split; auto.
    + split.
      * intros [H1 H3]. split; [assumption|].
        intros y [<-|Hy] Hc; [congruence|auto].
      * intros [H1 H2]. split; auto.
Qed.

Lemma available_classrooms_In (self : Engine) (ind : individual)
      (day : string) (slot : Z) (r : Room) :
  In r (available_classrooms self ind day slot) <->
  In r (classrooms self) /\ classroom_is_free ind (r_id r) day slot.
Proof.
  unfold available_classrooms, classroom_is_free.
  rewrite (fold_remove_In _
             (fun m => String.eqb (m_day m) day && (m_slot_number m =? slot))
             m_room_id) by reflexivity.
  rewrite (fold_remove_In _
             (fun l => String.eqb (l_day l) day && (l_slot_number l =? slot))
             l_room_id) by reflexivity.
  split.
  - intros [[H1 H2] H3]. split; [assumption|]. split.
    + intros l Hl Hd Hs E. apply (H2 l Hl); [|congruence].
      rewrite andb_true_iff, String.eqb_eq, Z.eqb_eq. auto.
    + intros m Hm Hd Hs E. apply (H3 m Hm); [|congruence].
      rewrite andb_true_iff, String.eqb_eq, Z.eqb_eq. auto.
  - intros [H1 [H2 H3]]. repeat split; [assumption| |].
    + intros l Hl Hc E. rewrite andb_true_iff, String.eqb_eq, Z.eqb_eq in Hc.
      destruct Hc. apply (H2 l); congruence.
    + intros m Hm Hc E. rewrite andb_true_iff, String.eqb_eq, Z.eqb_eq in Hc.
      destruct Hc. apply (H3 m); congruence.
Qed.

Lemma available_labs_In (self : Engine) (ind : individual)
      (day : string) (start_slot end_slot : Z) (r : Room) :
  In r (available_labs self ind day start_slot end_slot) <->
  In r (labs self) /\ lab_is_free ind (r_id r) day start_slot end_slot.
Proof.
  unfold available_labs, lab_is_free.
  rewrite (fold_remove_In _
             (fun p => String.eqb (p_day p) day
                       && negb ((end_slot <? p_start_slot p)
                                || (p_end_slot p <? start_slot)))
             p_room_id).
  2:{ intros available p. destruct (String.eqb (p_day p) day); reflexivity. }
  split.
  - intros [H1 H2]. split; [assumption|].
    intros p Hp Hd Hr.
    destruct (Z.ltb_spec end_slot (p_start_slot p)); [now left|].
    destruct (Z.ltb_spec (p_end_slot p) start_slot); [now right|].
    exfalso. apply (H2 p Hp); [|congruence].
    rewrite andb_true_iff, String.eqb_eq, negb_true_iff, orb_false_iff.
    rewrite !Z.ltb_ge. auto.
  - intros [H1 H2]. split; [assumption|].
    intros p Hp Hc E.
    rewrite andb_true_iff, String.eqb_eq, negb_true_iff, orb_false_iff in Hc.
    rewrite !Z.ltb_ge in Hc. destruct Hc as [Hd [Ha Hb]].
    destruct (H2 p Hp Hd (eq_sym E)); lia.
Qed.

Lemma spec_find_available_classroom (E : Prop) (self : Engine)
      (ind : individual) (day : string) (slot : Z) :
  spec E (find_available_classroom self ind day slot)
       (when_placed (fun r => In r (classrooms self)
                              /\ classroom_is_free ind (r_id r) day slot)).
Proof.
  unfold find_available_classroom.
  destruct (is_empty (classrooms self)); [now apply spec_ret|].
  destruct (available_classrooms self ind day slot) as [|r0 rs] eqn:Ea.
  - now apply spec_ret.
  - cbn [is_empty]. rewrite <- Ea.
    apply spec_bind with (Q := fun r => In r (available_classrooms self ind day slot)).
    + apply spec_choice. right. rewrite Ea. discriminate.
    + intros r Hr. apply spec_ret. simpl. now apply available_classrooms_In.
Qed.

Lemma spec_find_available_lab (E : Prop) (self : Engine)
      (ind : individual) (day : string) (start_slot end_slot : Z) :
  spec E (find_available_lab self ind day start_slot end_slot)
       (when_placed (fun r => In r (labs self)
                              /\ lab_is_free ind (r_id r) day start_slot end_slot)).
Proof.
  unfold find_available_lab.
  destruct (is_empty (labs self)); [now apply spec_ret|].
  destruct (available_labs self ind day start_slot end_slot) as [|r0 rs] eqn:Ea.
  - now apply spec_ret.
  - cbn [is_empty]. rewrite <- Ea.
    apply spec_bind
      with (Q := fun r => In r (available_labs self ind day start_slot end_slot)).
    + apply spec_choice. right. rewrite Ea. discriminate.
    + intros r Hr. apply spec_ret. simpl. now apply available_labs_In.
Qed.

(* ------------------------------------------------------------------ *)
(** ** The builder, pass by pass *)

Section Builder.
Variable self : Engine.
Variable E : Prop.
(** Either raising is allowed for, or the engine has the configuration of
    [app.config], under which no pass raises. *)
Hypothesis HE : E \/ standard_config self.

Lemma days_nonempty : E \/ days self <> [].
Proof.
  destruct HE as [He|(Hd & _)]; [now left|right]. rewrite Hd. discriminate.
Qed.

Lemma lecture_slots_nonempty : E \/ lecture_slots self <> [].
Proof.
  destruct HE as [He|(_ & _ & Hl)]; [now left|right]. rewrite Hl. discriminate.
Qed.

Lemma lecture_slot_has_times (s : Z) :
  In s (lecture_slots self) -> E \/ getitem (time_slots self) s <> None.
Proof.
  intro Hs. destruct HE as [He|(_ & Ht & Hl)]; [now left|right].
  rewrite Hl in Hs. rewrite Ht. simpl in Hs.
  repeat (destruct Hs as [<-|Hs]; [discriminate|]). contradiction.
Qed.

Lemma practical_slot_has_times (s : Z) :
  s = 4 \/ s = 5 \/ s = 6 -> E \/ getitem (time_slots self) s <> None.
Proof.
  intro Hs. destruct HE as [He|(_ & Ht & _)]; [now left|right].
  rewrite Ht. destruct Hs as [->|[->| ->]]; discriminate.
Qed.

Lemma spec_try_lecture (cs : ClassSubject) (ind : individual) :
  spec E (try_lecture self cs ind) (when_placed (lecture_placed self cs ind)).
Proof.
  unfold try_lecture.
  apply spec_bind with (Q := fun d => In d (days self));
    [apply spec_choice, days_nonempty|]. intros day Hday.
  apply spec_bind with (Q := fun s => In s (lecture_slots self));
    [apply spec_choice, lecture_slots_nonempty|]. intros slot Hslot.
  destruct (Z.eqb_spec slot 2) as [|Hne]; [now apply spec_ret|].
  destruct (check_faculty_busy ind (cs_faculty_id cs) day slot) eqn:Hbusy;
    [now apply spec_ret|].
  eapply spec_bind; [apply spec_find_available_classroom|].
  intros [r|] Hr; [|now apply spec_ret].
  destruct Hr as [Hr Hfree].
  eapply spec_bind; [apply spec_getitem, lecture_slot_has_times, Hslot|].
  intros ts _. apply spec_ret. simpl. unfold lecture_placed. simpl.
  repeat split; try assumption; try apply Hfree. now exists r.
Qed.

Lemma spec_try_mentoring (batch : Batch) (ind : individual) :
  spec E (try_mentoring self batch ind)
       (when_placed (mentoring_placed self batch ind)).
Proof.
  unfold try_mentoring.
  apply spec_bind with (Q := fun d => In d (days self));
    [apply spec_choice, days_nonempty|]. intros day Hday.
  apply spec_bind with (Q := fun s => In s (lecture_slots self));
    [apply spec_choice, lecture_slots_nonempty|]. intros slot Hslot.
  destruct (Z.eqb_spec slot 2) as [|Hne]; [now apply spec_ret|].
  destruct (check_faculty_busy ind (mentor_id batch) day slot) eqn:Hbusy;
    [now apply spec_ret|].
  eapply spec_bind; [apply spec_find_available_classroom|].
  intros [r|] Hr; [|now apply spec_ret].
  destruct Hr as [Hr Hfree].
  eapply spec_bind; [apply spec_getitem, lecture_slot_has_times, Hslot|].
  intros ts _. apply spec_ret. simpl. unfold mentoring_placed. simpl.
  repeat split; try assumption; try apply Hfree. now exists r.
Qed.

Lemma spec_try_practical (batch : Batch) (cs : ClassSubject)
      (ind : individual) :
  spec E (try_practical self batch cs ind)
       (when_placed (practical_placed self batch cs ind)).
Proof.
  unfold try_practical.
  apply spec_bind with (Q := fun d => In d (days self));
    [apply spec_choice, days_nonempty|]. intros day Hday.
  apply spec_bind with (Q := fun s => In s [4; 5]);
    [apply spec_choice; right; discriminate|]. intros start Hstart.
  assert (Hs : start = 4 \/ start = 5) by (simpl in Hstart; intuition).
  destruct (6 <? start + 1); [now apply spec_ret|].
  destruct (faculty_busy_in ind (cs_faculty_id cs) day [start; start + 1])
    eqn:Hbusy; [now apply spec_ret|].
  unfold faculty_busy_in in Hbusy. simpl in Hbusy.
  rewrite !orb_false_iff in Hbusy. destruct Hbusy as (Hb1 & Hb2 & _).
  eapply spec_bind; [apply spec_find_available_lab|].
  intros [r|] Hr; [|now apply spec_ret].
  destruct Hr as [Hr Hfree].
  eapply spec_bind;
    [apply spec_getitem, practical_slot_has_times; intuition|].
  intros ts _.
  eapply spec_bind;
    [apply spec_getitem, practical_slot_has_times; lia|].
  intros te _. apply spec_ret. simpl. unfold practical_placed. simpl.
  repeat split; try assumption. now exists r.
Qed.

(** *** The three loops preserve what every placement preserves *)

Lemma spec_schedule_lectures (Inv : individual -> Prop) (cs : ClassSubject) :
  (forall ind l, Inv ind -> lecture_placed self cs ind l ->
                 Inv (append_lecture ind l)) ->
  forall fuel scheduled ind,
    Inv ind -> spec E (schedule_lectures self fuel cs scheduled ind) Inv.
Proof.
  intros Hstep fuel. induction fuel as [|fuel IH]; intros scheduled ind Hind;
    simpl; destruct (scheduled <? lecture_slots_per_week cs);
    try (now apply spec_ret); [apply spec_diverge|].
  eapply spec_bind; [apply spec_try_lecture|].
  intros [l|] Hl; apply IH; auto.
Qed.

Lemma spec_schedule_practicals (Inv : individual -> Prop) (batch : Batch)
      (cs : ClassSubject) :
  (forall ind p, Inv ind -> practical_placed self batch cs ind p ->
                 Inv (append_practical ind p)) ->
  forall fuel scheduled ind,
    Inv ind -> spec E (schedule_practicals self fuel batch cs scheduled ind) Inv.
Proof.
  intros Hstep fuel. induction fuel as [|fuel IH]; intros scheduled ind Hind;
    simpl; destruct (scheduled <? practical_slots_per_week cs);
    try (now apply spec_ret); [apply spec_diverge|].
  eapply spec_bind; [apply spec_try_practical|].
  intros [p|] Hp; apply IH; auto.
Qed.

Lemma spec_schedule_mentoring (Inv : individual -> Prop) (batch : Batch) :
  (forall ind m, Inv ind -> mentoring_placed self batch ind m ->
                 Inv (append_mentoring ind m)) ->
  forall tries ind,
    Inv ind -> spec E (schedule_mentoring self tries batch ind) Inv.
Proof.
  intros Hstep tries. induction tries as [|tries IH]; intros ind Hind; simpl.
  - now apply spec_ret.
  - eapply spec_bind; [apply spec_try_mentoring|].
    intros [m|] Hm; [apply spec_ret; auto|now apply IH].
Qed.

(** *** Invariants of the whole construction *)

Section Invariant.
Variable Inv : individual -> Prop.
Hypothesis Inv_lecture :
  forall cs ind l, Inv ind -> lecture_placed self cs ind l ->
                   Inv (append_lecture ind l).
Hypothesis Inv_practical :
  forall batch cs ind p, Inv ind -> practical_placed self batch cs ind p ->
                         Inv (append_practical ind p).
Hypothesis Inv_mentoring :
  forall batch ind m, Inv ind -> mentoring_placed self batch ind m ->
                      Inv (append_mentoring ind m).

Lemma spec_build (fuel : nat) (ind : individual) :
  Inv ind -> spec E (build self fuel ind) Inv.
Proof.
  intro Hind. unfold build.
  apply spec_bind with (Q := Inv).
  { apply spec_for_each; [|assumption].
    intros cs st _ Hst. apply spec_schedule_lectures; [|assumption].
    apply Inv_lecture. }
  intros ind1 H1. apply spec_bind with (Q := Inv).
  { apply spec_for_each; [|assumption].
    intros batch st _ Hst. apply spec_for_each; [|assumption].
    intros cs st' _ Hst'. apply spec_schedule_practicals; [|assumption].
    apply Inv_practical. }
  intros ind2 H2. apply spec_for_each; [|assumption].
  intros batch st _ Hst. destruct (truthy (mentor_id batch)).
  - apply spec_schedule_mentoring; [|assumption]. apply Inv_mentoring.
  - now apply spec_ret.
Qed.

Lemma spec_build_attempts (fuel attempts : nat) (ind : individual) :
  Inv empty_individual -> Inv ind ->
  spec E (build_attempts self fuel attempts ind) Inv.
Proof.
  intro Hempty. revert ind.
  induction attempts as [|attempts IH]; intros ind Hind; simpl.
  - now apply spec_ret.
  - apply spec_try_except.
    + apply spec_True with (E := E). now apply spec_build.
    + intros _. now apply IH.
Qed.

Lemma spec_create_individual (fuel : nat) :
  Inv empty_individual -> spec E (create_individual self fuel) Inv.
Proof.
  intro Hempty. unfold create_individual. now apply spec_build_attempts.
Qed.
End Invariant.
End Builder.

(* ------------------------------------------------------------------ *)
(** ** What every built candidate satisfies *)

Lemma scenario_a_returns :
  create_individual (init scenario_a) 10 identity_tape =
  Ok scenario_a_individual {| tape := fun n => n; pos := 9 |}.
Proof. vm_compute. reflexivity. Qed.

Lemma NoDup_snoc {A} (l : list A) (x : A) :
  NoDup l -> ~ In x l -> NoDup (l ++ [x]).
Proof.
  intros Hl Hx. apply NoDup_app; [assumption|repeat constructor; simpl; tauto|].
  intros y Hy [<-|[]]. contradiction.
Qed.

Lemma rooms_conflict_free_lecture (self : Engine) (cs : ClassSubject)
      (ind : individual) (l : lecture) :
  rooms_conflict_free ind -> lecture_placed self cs ind l ->
  rooms_conflict_free (append_lecture ind l).
Proof.
  unfold rooms_conflict_free. intros Hnd Hl. simpl. rewrite map_app. simpl.
  apply NoDup_snoc; [assumption|].
  intro Hin. apply in_map_iff in Hin. destruct Hin as (l' & Hkey & Hl').
  destruct Hl as (_ & _ & _ & _ & _ & _ & _ & Hfree & _).
  unfold lecture_key in Hkey. inversion Hkey.
  now apply (Hfree l' Hl').
Qed.

(** C7.  In every candidate [create_individual] returns the lecture
    sessions have pairwise distinct (room, day, slot) keys: no classroom is
    booked twice for the same day and slot. *)
Theorem create_individual_no_double_booking :
  forall (self : Engine) (fuel : nat) (g g' : Rng) (ind : individual),
    create_individual self fuel g = Ok ind g' ->
    rooms_conflict_free ind
    /\ forall i j li lj,
        nth_error (lectures ind) i = Some li ->
        nth_error (lectures ind) j = Some lj ->
        l_day li = l_day lj -> l_slot_number li = l_slot_number lj ->
        l_room_id li = l_room_id lj ->
        i = j.
Proof.
  intros self fuel g g' ind Hrun.
  assert (Hnd : rooms_conflict_free ind).
  { apply (spec_Ok True (create_individual self fuel) _ g ind g'); [|assumption].
    apply spec_create_individual.
    - now left.
    - intros cs ind0 l. apply rooms_conflict_free_lecture.
    - intros batch cs ind0 p H _. exact H.
    - intros batch ind0 m H _. exact H.
    - constructor. }
  split; [assumption|].
  intros i j li lj Hi Hj Hd Hs Hr.
  unfold rooms_conflict_free in Hnd.
  rewrite NoDup_nth_error in Hnd. apply Hnd.
  - rewrite length_map. apply nth_error_Some. congruence.
  - rewrite !nth_error_map, Hi, Hj. simpl. unfold lecture_key. congruence.
Qed.

Lemma create_individual_no_double_booking_witness :
  create_individual (init scenario_a) 10 identity_tape =
  Ok scenario_a_individual {| tape := fun n => n; pos := 9 |}
  /\ rooms_conflict_free scenario_a_individual.
Proof.
  split; [exact scenario_a_returns|].
  exact (proj1 (create_individual_no_double_booking
                  (init scenario_a) 10 identity_tape _ _ scenario_a_returns)).
Defined.

Lemma Forall_snoc {A} (P : A -> Prop) (l : list A) (x : A) :
  Forall P l -> P x -> Forall P (l ++ [x]).
Proof. intros Hl Hx. apply Forall_app. split; [assumption|now constructor]. Qed.

(** Every candidate the builder returns keeps clear of the lunch slot. *)
Lemma create_individual_off_lunch (self : Engine) (fuel : nat) (g g' : Rng)
      (ind : individual) :
  create_individual self fuel g = Ok ind g' -> off_lunch ind.
Proof.
  apply (spec_Ok True). apply spec_create_individual.
  - now left.
  - intros cs ind0 l (Hl & Hp & Hm) Hplaced. repeat split; try assumption.
    simpl. apply Forall_snoc; [assumption|]. apply Hplaced.
  - intros batch cs ind0 p (Hl & Hp & Hm) Hplaced. repeat split; try assumption.
    simpl. apply Forall_snoc; [assumption|].
    destruct Hplaced as (_ & Hs & He & _). unfold practical_in_window. lia.
  - intros batch ind0 m (Hl & Hp & Hm) Hplaced. repeat split; try assumption.
    simpl. apply Forall_snoc; [assumption|]. apply Hplaced.
  - repeat split; constructor.
Qed.

(* ------------------------------------------------------------------ *)
(** ** The object store *)

Lemma read_write_other {A} (default : A) (heap : list A) (l l' : loc) (x : A) :
  l <> l' -> read default (write heap l x) l' = read default heap l'.
Proof.
  unfold read. revert l l'. induction heap as [|y heap IH]; intros l l' Hne.
  - reflexivity.
  - destruct l as [|l], l' as [|l']; simpl; try reflexivity.
    + contradiction.
    + apply IH. congruence.
Qed.

Lemma read_write_same {A} (default : A) (heap : list A) (l : loc) (x : A) :
  (l < length heap)%nat -> read default (write heap l x) l = x.
Proof.
  unfold read. revert l. induction heap as [|y heap IH]; intros l Hl; simpl in *.
  - lia.
  - destruct l as [|l]; simpl; [reflexivity|]. apply IH. lia.
Qed.

Lemma write_unbound {A} (heap : list A) (l : loc) (x : A) :
  (length heap <= l)%nat -> write heap l x = heap.
Proof.
  revert l. induction heap as [|y heap IH]; intros l Hl; simpl in *.
  - reflexivity.
  - destruct l as [|l]; [lia|]. f_equal. apply IH. lia.
Qed.

Lemma write_write {A} (heap : list A) (l : loc) (x y : A) :
  write (write heap l x) l y = write heap l y.
Proof.
  revert l. induction heap as [|z heap IH]; intro l; simpl.
  - reflexivity.
  - destruct l as [|l]; simpl; [reflexivity|]. now rewrite IH.
Qed.

Lemma length_write {A} (heap : list A) (l : loc) (x : A) :
  length (write heap l x) = length heap.
Proof.
  revert l. induction heap as [|z heap IH]; intro l; simpl.
  - reflexivity.
  - destruct l as [|l]; simpl; [reflexivity|]. now rewrite IH.
Qed.

(** A write followed by a write of an updated re-read is one write. *)
Lemma write_reread {A} (default : A) (heap : list A) (l : loc) (x : A)
      (f : A -> A) :
  write (write heap l x) l (f (read default (write heap l x) l)) =
  write heap l (f x).
Proof.
  destruct (Nat.lt_ge_cases l (length heap)) as [Hb|Hu].
  - now rewrite read_write_same, write_write.
  - rewrite (write_unbound heap l x Hu).
    now rewrite !write_unbound.
Qed.

Lemma getitem_In {A} (l : list A) (i : Z) (x : A) :
  getitem l i = Some x -> In x l.
Proof.
  unfold getitem.
  destruct (0 <=? i); [apply nth_error_In|].
  destruct (0 <=? Z.of_nat (length l) + i); [apply nth_error_In|discriminate].
Qed.

Lemma with_rng_Ok {A} (c : M Rng A) (w w' : World) (a : A) :
  with_rng c w = Ok a w' ->
  exists g', c (rng w) = Ok a g' /\ w' = {| rng := g'; store := store w |}.
Proof.
  unfold with_rng. destruct (c (rng w)) as [a0 g0| |]; try discriminate.
  intro H. inversion H. eauto.
Qed.

Lemma choice_In {A} (l : list A) (g g' : Rng) (x : A) :
  choice l g = Ok x g' -> In x l.
Proof.
  apply (spec_Ok True (choice l) (fun x => In x l)).
  apply spec_choice. now left.
Qed.

(* ------------------------------------------------------------------ *)
(** ** Mutation *)

Lemma getitem_m_Ok {S A} (l : list A) (i : Z) (s s' : S) (x : A) :
  getitem_m l i s = Ok x s' -> getitem l i = Some x /\ s' = s.
Proof.
  unfold getitem_m. destruct (getitem l i); [|discriminate].
  intro H. inversion H. auto.
Qed.

Lemma mutate_Ok (self : Engine) (ind ind' : individual_ref) (w w' : World) :
  mutate self ind w = Ok ind' w' ->
  ind' = ind /\ mutation self ind (store w) (store w').
Proof.
  unfold mutate. destruct (is_empty (lectures ind)).
  { intro H. inv_ok H. split; [reflexivity|now constructor]. }
  intro H. inv_ok H. apply with_rng_Ok in Hstep. destruct Hstep as (g1 & _ & ->).
  destruct (Qltb a (3 # 10)).
  2:{ inv_ok H. split; [reflexivity|now constructor]. }
  inv_ok H. apply with_rng_Ok in Hstep. destruct Hstep as (g2 & _ & ->).
  apply getitem_m_Ok in Hstep0. destruct Hstep0 as [Hloc ->].
  apply getitem_In in Hloc.
  apply with_rng_Ok in Hstep1. destruct Hstep1 as (g3 & _ & ->).
  destruct (Qltb a2 (1 # 2)).
  - inv_ok H. apply with_rng_Ok in Hstep. destruct Hstep as (g4 & Hday & ->).
    apply choice_In in Hday.
    unfold read_lecture in Hstep0. inversion Hstep0; subst. clear Hstep0.
    unfold write_lecture in Hstep1. inversion Hstep1; subst. clear Hstep1.
    split; [reflexivity|]. simpl.
    now apply mutation_day with (l := a1) (day := a3).
  - inv_ok H. apply with_rng_Ok in Hstep. destruct Hstep as (g4 & Hslot & ->).
    apply choice_In in Hslot. apply filter_In in Hslot.
    destruct Hslot as [Hslot Hne]. apply negb_true_iff, Z.eqb_neq in Hne.
    unfold read_lecture in Hstep0. inversion Hstep0; subst. clear Hstep0.
    unfold write_lecture in Hstep1. inversion Hstep1; subst. clear Hstep1.
    apply getitem_m_Ok in Hstep2. destruct Hstep2 as [Hts ->].
    unfold read_lecture in Hstep3. inversion Hstep3; subst. clear Hstep3.
    unfold write_lecture in Hstep4. inversion Hstep4; subst. clear Hstep4.
    split; [reflexivity|]. simpl.
    apply mutation_slot with (l := a1) (slot := a3) (ts := a6); try assumption.
    unfold with_lecture. simpl. f_equal.
    apply (write_reread no_lecture (lecture_objs (store w)) a1 _
             (fun x => set_times x (ts_start a6) (ts_end a6))).
Qed.

Lemma two_lecture_mutation :
  mutate (init empty_snapshot) two_lecture_ref two_lecture_world =
  Ok two_lecture_ref two_lecture_world_mutated.
Proof. vm_compute. reflexivity. Qed.

Lemma read_write_cases {A} (default : A) (heap : list A) (l l' : loc) (x : A) :
  (l' = l /\ read default (write heap l x) l' = x)
  \/ read default (write heap l x) l' = read default heap l'.
Proof.
  destruct (Nat.eq_dec l l') as [<-|Hne].
  - destruct (Nat.lt_ge_cases l (length heap)) as [Hb|Hu].
    + left. split; [reflexivity|now apply read_write_same].
    + right. now rewrite write_unbound.
  - right. now apply read_write_other.
Qed.

(** A write to one lecture keeps a property of all lectures of an individual
    when the written dict has it. *)
Lemma Forall_deref_write (P : lecture -> Prop) (heap : list lecture)
      (locs : list loc) (l : loc) (x : lecture) :
  Forall P (map (read no_lecture heap) locs) -> P x ->
  Forall P (map (read no_lecture (write heap l x)) locs).
Proof.
  intros H Hx. rewrite Forall_map in *. rewrite Forall_forall in *.
  intros l' Hl'.
  destruct (read_write_cases no_lecture heap l l' x) as [[_ ->]| ->]; auto.
Qed.

Lemma mutate_off_lunch (self : Engine) (ind ind' : individual_ref)
      (w w' : World) :
  mutate self ind w = Ok ind' w' ->
  off_lunch (deref (store w) ind) -> off_lunch (deref (store w') ind').
Proof.
  intros Hm (Hl & Hp & Hme). apply mutate_Ok in Hm. destruct Hm as [-> Hm].
  destruct Hm as [->|l day Hin Hday ->|l slot ts Hin Hslot Hne Hts ->].
  - repeat split; assumption.
  - repeat split; try assumption. simpl in *.
    apply Forall_deref_write; [assumption|].
    rewrite Forall_map, Forall_forall in Hl. apply (Hl l Hin).
  - repeat split; try assumption. simpl in *.
    apply Forall_deref_write; [assumption|]. exact Hne.
Qed.

Lemma Forall_write {A} (P : A -> Prop) (heap : list A) (l : loc) (x : A) :
  Forall P heap -> P x -> Forall P (write heap l x).
Proof.
  intros H Hx. revert l. induction H as [|y heap Hy H IH]; intro l; simpl.
  - constructor.
  - destruct l; constructor; auto.
Qed.

Lemma Forall_read {A} (P : A -> Prop) (default : A) (heap : list A) (l : loc) :
  Forall P heap -> P default -> P (read default heap l).
Proof.
  intros H Hd. unfold read.
  destruct (nth_in_or_default l heap default) as [Hin| ->]; [|assumption].
  rewrite Forall_forall in H. now apply H.
Qed.

(** [mutate] keeps every lecture dict of the store off the lunch slot: the
    individuals that share the written dict stay clear of it too. *)
Lemma mutate_store_off_lunch (self : Engine) (ind ind' : individual_ref)
      (w w' : World) :
  mutate self ind w = Ok ind' w' ->
  Forall lecture_off_lunch (lecture_objs (store w)) ->
  Forall lecture_off_lunch (lecture_objs (store w'))
  /\ practical_objs (store w') = practical_objs (store w)
  /\ mentoring_objs (store w') = mentoring_objs (store w).
Proof.
  intros Hm Hl. apply mutate_Ok in Hm. destruct Hm as [_ Hm].
  destruct Hm as [->|l day Hin Hday ->|l slot ts Hin Hslot Hne Hts ->].
  - auto.
  - simpl. repeat split. apply Forall_write; [assumption|].
    apply (Forall_read lecture_off_lunch); [assumption|discriminate].
  - simpl. repeat split. apply Forall_write; [assumption|]. exact Hne.
Qed.

(** C8.  No session of a candidate the builder returns is on the lunch
    slot — lectures and mentoring sessions are not at slot 2, practicals
    occupy slots 4-5 or 5-6 — and [mutate] keeps a candidate that way, as
    well as every lecture dict in the store, whichever candidates share
    it. *)
Theorem lunch_slot_never_occupied :
  (forall (self : Engine) (fuel : nat) (g g' : Rng) (ind : individual),
      create_individual self fuel g = Ok ind g' -> off_lunch ind)
  /\ (forall (self : Engine) (ind ind' : individual_ref) (w w' : World),
         mutate self ind w = Ok ind' w' ->
         off_lunch (deref (store w) ind) ->
         off_lunch (deref (store w') ind'))
  /\ (forall (self : Engine) (ind ind' : individual_ref) (w w' : World),
         mutate self ind w = Ok ind' w' ->
         Forall lecture_off_lunch (lecture_objs (store w)) ->
         Forall lecture_off_lunch (lecture_objs (store w'))
         /\ practical_objs (store w') = practical_objs (store w)
         /\ mentoring_objs (store w') = mentoring_objs (store w)).
Proof.
  split; [|split].
  - exact create_individual_off_lunch.
  - exact mutate_off_lunch.
  - exact mutate_store_off_lunch.
Qed.

Lemma lunch_slot_never_occupied_witness :
  (create_individual (init scenario_a) 10 identity_tape =
   Ok scenario_a_individual {| tape := fun n => n; pos := 9 |}
   /\ off_lunch scenario_a_individual)
  /\ (mutate (init empty_snapshot) two_lecture_ref two_lecture_world =
      Ok two_lecture_ref two_lecture_world_mutated
      /\ off_lunch (deref (store two_lecture_world) two_lecture_ref)
      /\ off_lunch (deref (store two_lecture_world_mutated) two_lecture_ref)).
Proof.
  assert (H0 : off_lunch (deref (store two_lecture_world) two_lecture_ref)).
  { repeat split; simpl; repeat constructor; discriminate. }
  destruct lunch_slot_never_occupied as (Hb & Hm & _).
  split; [split|split; [|split]].
  - exact scenario_a_returns.
  - exact (Hb _ _ _ _ _ scenario_a_returns).
  - exact two_lecture_mutation.
  - exact H0.
  - exact (Hm _ _ _ _ _ two_lecture_mutation H0).
Defined.

(* ------------------------------------------------------------------ *)
(** ** Every session of a built candidate was placed by the rules *)



Section PlacedInOrder.
Variable self : Engine.







End PlacedInOrder.

(* ------------------------------------------------------------------ *)
(** ** Placements and the conflict predicates *)






(* ------------------------------------------------------------------ *)
(** ** Fuel

    A run that does not run out of fuel is the run with any larger amount:
    [Diverge] for every amount of fuel is a loop that does not end. *)

Lemma bind_not_Diverge {S A B} (c : M S A) (k : A -> M S B) s :
  bind c k s <> Diverge ->
  c s <> Diverge
  /\ forall a s', c s = Ok a s' -> k a s' <> Diverge.
Proof.
  unfold bind. intro H. destruct (c s) as [a s1|e s1|].
  - split; [discriminate|]. intros a' s' E. inversion E; subst. exact H.
  - split; [discriminate|]. intros a' s' E. discriminate E.
  - now contradiction H.
Qed.

Lemma bind_more_fuel {S A B} (c : M S A) (k k' : A -> M S B) s :
  (forall a s', c s = Ok a s' -> k' a s' = k a s') ->
  bind c k' s = bind c k s.
Proof.
  unfold bind. intro H. destruct (c s) as [a s1|e s1|]; auto.
Qed.

Lemma schedule_lectures_settled (self : Engine) (cs : ClassSubject) (extra : nat) :
  forall fuel scheduled ind g,
    schedule_lectures self fuel cs scheduled ind g <> Diverge ->
    schedule_lectures self (fuel + extra) cs scheduled ind g
    = schedule_lectures self fuel cs scheduled ind g.
Proof.
  induction fuel as [|fuel IH]; intros scheduled ind g H.
  - simpl in *. destruct (scheduled <? lecture_slots_per_week cs) eqn:Ec.
    + now contradiction H.
    + destruct extra; simpl; now rewrite Ec.
  - simpl in *. destruct (scheduled <? lecture_slots_per_week cs); [|reflexivity].
    apply bind_not_Diverge in H. destruct H as [_ H].
    apply bind_more_fuel. intros [l|] g1 Hpass; apply IH; exact (H _ _ Hpass).
Qed.

Lemma schedule_practicals_settled (self : Engine) (batch : Batch)
      (cs : ClassSubject) (extra : nat) :
  forall fuel scheduled ind g,
    schedule_practicals self fuel batch cs scheduled ind g <> Diverge ->
    schedule_practicals self (fuel + extra) batch cs scheduled ind g
    = schedule_practicals self fuel batch cs scheduled ind g.
Proof.
  induction fuel as [|fuel IH]; intros scheduled ind g H.
  - simpl in *. destruct (scheduled <? practical_slots_per_week cs) eqn:Ec.
    + now contradiction H.
    + destruct extra; simpl; now rewrite Ec.
  - simpl in *. destruct (scheduled <? practical_slots_per_week cs); [|reflexivity].
    apply bind_not_Diverge in H. destruct H as [_ H].
    apply bind_more_fuel. intros [p|] g1 Hpass; apply IH; exact (H _ _ Hpass).
Qed.

Lemma for_each_settled {S A St} (l : list A) (body body' : A -> St -> M S St) :
  (forall x st s, body x st s <> Diverge -> body' x st s = body x st s) ->
  forall st s, for_each l body st s <> Diverge ->
               for_each l body' st s = for_each l body st s.
Proof.
  intro Hbody. induction l as [|x l IH]; intros st s H; simpl in *.
  - reflexivity.
  - apply bind_not_Diverge in H. destruct H as [H1 H2].
    unfold bind. rewrite (Hbody x st s H1).
    destruct (body x st s) as [st1 s1|e s1|] eqn:E; try reflexivity.
    apply IH. exact (H2 _ _ eq_refl).
Qed.

Lemma build_settled (self : Engine) (fuel extra : nat) (ind : individual) (g : Rng) :
  build self fuel ind g <> Diverge ->
  build self (fuel + extra) ind g = build self fuel ind g.
Proof.
  unfold build. intro H.
  apply bind_not_Diverge in H. destruct H as [H1 H2].
  unfold bind at 1 3.
  rewrite (for_each_settled (class_subjects self)
             (fun cs ind => schedule_lectures self fuel cs 0 ind)
             (fun cs ind => schedule_lectures self (fuel + extra) cs 0 ind));
    [|intros; now apply schedule_lectures_settled|assumption].
  destruct (for_each (class_subjects self) _ ind g) as [ind1 g1|e g1|] eqn:E1;
    try reflexivity.
  specialize (H2 _ _ eq_refl).
  apply bind_not_Diverge in H2. destruct H2 as [H2 _].
  unfold bind.
  rewrite (for_each_settled (batches self)
             (fun batch ind =>
                for_each (class_subjects self)
                  (fun cs ind => schedule_practicals self fuel batch cs 0 ind) ind)
             (fun batch ind =>
                for_each (class_subjects self)
                  (fun cs ind =>
                     schedule_practicals self (fuel + extra) batch cs 0 ind) ind));
    [reflexivity| |assumption].
  intros batch st s Hs. apply for_each_settled; [|assumption].
  intros; now apply schedule_practicals_settled.
Qed.

Lemma build_attempts_settled (self : Engine) (fuel extra : nat) :
  forall attempts ind g,
    build_attempts self fuel attempts ind g <> Diverge ->
    build_attempts self (fuel + extra) attempts ind g
    = build_attempts self fuel attempts ind g.
Proof.
  induction attempts as [|n IH]; intros ind g H; simpl in *; [reflexivity|].
  unfold try_except in *.
  destruct (build self fuel ind g) as [i g1|e g1|] eqn:E.
  - rewrite build_settled by (rewrite E; discriminate). now rewrite E.
  - rewrite build_settled by (rewrite E; discriminate). rewrite E.
    now apply IH.
  - now contradiction H.
Qed.

(** A call of [create_individual] that ends within its fuel ends the same
    way with more. *)
Lemma create_individual_settled (self : Engine) (fuel extra : nat) (g : Rng) :
  create_individual self fuel g <> Diverge ->
  create_individual self (fuel + extra) g = create_individual self fuel g.
Proof. apply build_attempts_settled. Qed.

(* ------------------------------------------------------------------ *)
(** ** Termination of the builder *)

Lemma spec_try_except_no_raise {S A} (E : Prop) (body : M S A)
      (handler : exn -> M S A) (Q : A -> Prop) :
  spec False body Q -> spec E (try_except body handler) Q.
Proof.
  intros Hb s. unfold try_except. specialize (Hb s).
  destruct (body s); [assumption|contradiction|exact I].
Qed.

Lemma spec_for_each_count {S A St} (E : Prop) (l : list A)
      (body : A -> St -> M S St) (Inv : St -> Prop) (c : St -> Z)
      (delta : A -> Z) :
  (forall x st, In x l -> Inv st ->
                spec E (body x st) (fun st' => Inv st' /\ c st' = c st + delta x)) ->
  forall st, Inv st ->
             spec E (for_each l body st)
                  (fun st' => Inv st' /\ c st' = c st + sumZ delta l).
Proof.
  induction l as [|x l IH]; intros Hbody st Hst; simpl.
  - apply spec_ret. split; [assumption|lia].
  - eapply spec_bind.
    + apply Hbody; [now left|assumption].
    + intros st1 [H1 Hc1]. simpl in *.
      eapply spec_weaken.
      * apply IH; [|exact H1]. intros y st2 Hy. apply Hbody. now right.
      * intros st2 [H2 Hc2]. split; [assumption|]. simpl in *. lia.
Qed.

Lemma existsb_false_In {A} (f : A -> bool) (l : list A) (x : A) :
  existsb f l = false -> In x l -> f x = false.
Proof.
  intros H Hx. destruct (f x) eqn:E; [|reflexivity].
  assert (Ht : existsb f l = true) by (apply existsb_exists; eauto).
  congruence.
Qed.

(** A faculty that is not busy at a slot has no practical around it. *)
Lemma not_busy_no_practical (ind : individual) (f : ident) (day : string)
      (slot : Z) (p : practical) :
  truthy f = true -> check_faculty_busy ind f day slot = false ->
  In p (practicals ind) -> p_faculty_id p = f -> p_day p = day ->
  ~ (p_start_slot p <= slot <= p_end_slot p).
Proof.
  intros Hf Hbusy Hp Hpf Hpd Hrange. unfold check_faculty_busy in Hbusy.
  rewrite Hf in Hbusy. simpl in Hbusy.
  destruct (existsb _ (lectures ind)); [discriminate|].
  destruct (existsb _ (practicals ind)) eqn:Ep; [discriminate|].
  apply existsb_false_In with (x := p) in Ep; [|assumption].
  rewrite Hpf, Hpd, ident_eqb_refl, String.eqb_refl in Ep. simpl in Ep.
  apply andb_false_iff in Ep. rewrite !Z.leb_gt in Ep. lia.
Qed.

Section Overbooking.
Variable self : Engine.
Variable E : Prop.
Hypothesis HE : E \/ standard_config self.
(** A group of practicals and the subject assignments whose practicals
    fall into it. *)
Variable group : practical -> bool.
Variable wanted : ClassSubject -> bool.
Hypothesis group_of_placed :
  forall batch cs ind p,
    practical_placed self batch cs ind p -> group p = wanted cs.
(** The builder places no practical of the group on a day that has one. *)
Hypothesis group_excludes :
  forall batch cs ind p p',
    Forall practical_in_window (practicals ind) ->
    practical_placed self batch cs ind p ->
    In p' (practicals ind) -> group p = true -> group p' = true ->
    p_day p' <> p_day p.

Lemma one_practical_a_day_placed (batch : Batch) (cs : ClassSubject)
      (ind : individual) (p : practical) :
  one_practical_a_day self group ind -> practical_placed self batch cs ind p ->
  one_practical_a_day self group (append_practical ind p).
Proof.
  intros (Hw & Hnd & Hin) Hplaced.
  pose proof Hplaced as (Hday & Hs & He & _).
  unfold one_practical_a_day. simpl. rewrite filter_app. simpl.
  split; [|destruct (group p) eqn:Eg].
  - apply Forall_snoc; [assumption|]. unfold practical_in_window. lia.
  - rewrite map_app. simpl. split.
    + apply NoDup_snoc; [assumption|]. intro Hdup.
      apply in_map_iff in Hdup. destruct Hdup as (p' & Hd' & Hp').
      apply filter_In in Hp'. destruct Hp' as [Hp' Hg'].
      exact (group_excludes batch cs ind p p' Hw Hplaced Hp' Eg Hg' Hd').
    + intros d Hd. apply in_app_or in Hd. destruct Hd as [Hd|[<-|[]]]; auto.
  - rewrite app_nil_r. split; assumption.
Qed.

Lemma group_count_bound (ind : individual) :
  one_practical_a_day self group ind ->
  group_count group ind <= Z.of_nat (length (days self)).
Proof.
  intros (_ & Hnd & Hin). unfold group_count.
  rewrite <- (length_map p_day). apply inj_le.
  now apply NoDup_incl_length.
Qed.

(** The practical loop returns only with all its sessions placed. *)
Lemma spec_schedule_practicals_count (batch : Batch) (cs : ClassSubject)
      (fuel : nat) :
  forall scheduled ind,
    one_practical_a_day self group ind ->
    spec E (schedule_practicals self fuel batch cs scheduled ind)
         (fun ind' =>
            one_practical_a_day self group ind'
            /\ group_count group ind' =
               group_count group ind
               + (if wanted cs
                  then Z.max 0 (practical_slots_per_week cs - scheduled)
                  else 0)).
Proof.
  induction fuel as [|fuel IH]; intros scheduled ind Hind; simpl;
    destruct (Z.ltb_spec scheduled (practical_slots_per_week cs)).
  - apply spec_diverge.
  - apply spec_ret. split; [assumption|]. destruct (wanted cs); lia.
  - eapply spec_bind; [apply spec_try_practical, HE|].
    intros [p|] Hp; simpl in Hp.
    + eapply spec_weaken.
      * apply IH. eapply one_practical_a_day_placed; eassumption.
      * intros ind' [Hinv Hc]. split; [assumption|]. rewrite Hc.
        unfold group_count. simpl. rewrite filter_app. simpl.
        rewrite (group_of_placed _ _ _ _ Hp).
        destruct (wanted cs); rewrite length_app; simpl length; lia.
    + now apply IH.
  - apply spec_ret. split; [assumption|]. destruct (wanted cs); lia.
Qed.

(** With more practicals to place in the group than there are days, the
    body of the builder never returns. *)
Lemma build_overbooked (fuel : nat) :
  Z.of_nat (length (days self)) < practical_demand self wanted ->
  spec E (build self fuel empty_individual) (fun _ => False).
Proof.
  intro Hover. unfold build.
  apply spec_bind with (Q := fun ind => practicals ind = []).
  { apply spec_for_each; [|reflexivity].
    intros cs st _ Hst. apply spec_schedule_lectures; [exact HE| |assumption].
    intros ind l H _. exact H. }
  intros ind1 H1.
  assert (Hinv1 : one_practical_a_day self group ind1).
  { unfold one_practical_a_day. rewrite H1. simpl.
    repeat split; [constructor|constructor|intros x []]. }
  eapply spec_bind with (Q := fun _ => False); [|contradiction].
  eapply spec_weaken.
  - apply (spec_for_each_count E (batches self) _
             (one_practical_a_day self group) (group_count group)
             (fun _ => sumZ (fun cs => if wanted cs
                                       then Z.max 0 (practical_slots_per_week cs)
                                       else 0)
                            (class_subjects self))); [|exact Hinv1].
    intros batch st _ Hst.
    apply (spec_for_each_count E (class_subjects self) _
             (one_practical_a_day self group) (group_count group)
             (fun cs => if wanted cs
                        then Z.max 0 (practical_slots_per_week cs) else 0));
      [|exact Hst].
    intros cs st' _ Hst'.
    eapply spec_weaken; [now apply spec_schedule_practicals_count|].
    intros ind' [Hi Hc]. split; [assumption|]. simpl. rewrite Hc.
    now rewrite Z.sub_0_r.
  - intros ind2 [Hinv2 Hc]. simpl in Hc.
    apply group_count_bound in Hinv2.
    assert (H0 : group_count group ind1 = 0).
    { unfold group_count. now rewrite H1. }
    assert (Hsum : forall (A : Type) (l : list A) (k : Z),
               sumZ (fun _ => k) l = Z.of_nat (length l) * k).
    { intros A l k. induction l as [|x l IHl]; simpl length; simpl sumZ; lia. }
    rewrite Hsum, H0 in Hc. unfold practical_demand in Hover. lia.
Qed.
End Overbooking.

(** The practicals of one faculty exclude one another: the faculty is busy
    in both windows of a day on which it has a practical. *)
Lemma faculty_practicals_exclude (self : Engine) (f : ident) :
  truthy f = true ->
  forall batch cs ind p p',
    Forall practical_in_window (practicals ind) ->
    practical_placed self batch cs ind p ->
    In p' (practicals ind) ->
    practical_of_faculty f p = true -> practical_of_faculty f p' = true ->
    p_day p' <> p_day p.
Proof.
  intros Hf batch cs ind p p' Hw Hplaced Hp' Hg Hg' Hd.
  destruct Hplaced as (_ & Hs & He & _ & _ & _ & Hb1 & Hb2 & _).
  unfold practical_of_faculty in Hg, Hg'. apply ident_eqb_eq in Hg, Hg'.
  rewrite Forall_forall in Hw. specialize (Hw p' Hp').
  rewrite Hg in Hb1, Hb2.
  pose proof (not_busy_no_practical ind f (p_day p) (p_start_slot p) p'
                Hf Hb1 Hp' Hg' Hd) as N1.
  pose proof (not_busy_no_practical ind f (p_day p) (p_end_slot p) p'
                Hf Hb2 Hp' Hg' Hd) as N2.
  unfold practical_in_window in Hw. lia.
Qed.

(** The practicals in one lab exclude one another: the lab is not free in
    either window of a day on which it has a practical. *)
Lemma lab_practicals_exclude (self : Engine) (room_id : ident) :
  forall batch cs ind p p',
    Forall practical_in_window (practicals ind) ->
    practical_placed self batch cs ind p ->
    In p' (practicals ind) ->
    practical_in_lab room_id p = true -> practical_in_lab room_id p' = true ->
    p_day p' <> p_day p.
Proof.
  intros batch cs ind p p' Hw Hplaced Hp' Hg Hg' Hd.
  destruct Hplaced as (_ & Hs & He & _ & _ & _ & _ & _ & _ & Hfree).
  unfold practical_in_lab in Hg, Hg'. apply ident_eqb_eq in Hg, Hg'.
  rewrite Forall_forall in Hw. specialize (Hw p' Hp').
  specialize (Hfree p' Hp' Hd). rewrite Hg, Hg' in Hfree.
  specialize (Hfree eq_refl).
  unfold practical_in_window in Hw. lia.
Qed.

(** An engine built by [__init__], asked for more practicals for one faculty
    than the week has days, never gets out of [create_individual]. *)
Lemma create_individual_faculty_overbooked (db : Snapshot) (f : ident) :
  truthy f = true ->
  5 < practical_demand (init db) (taught_by f) ->
  forall fuel g, create_individual (init db) fuel g = Diverge.
Proof.
  intros Hf Hover fuel g. apply spec_False_Diverge.
  unfold create_individual, max_attempts. simpl build_attempts.
  apply spec_try_except_no_raise.
  apply build_overbooked
    with (group := practical_of_faculty f) (wanted := taught_by f).
  - right. repeat split.
  - intros batch cs ind p (_ & _ & _ & Hfac & _).
    unfold practical_of_faculty, taught_by. now rewrite Hfac.
  - now apply faculty_practicals_exclude.
  - exact Hover.
Qed.

(** An engine built by [__init__] with a single lab, asked for more
    practicals than the week has days, never gets out of
    [create_individual]. *)
Lemma create_individual_lab_overbooked (db : Snapshot) (lab : Room) :
  labs (init db) = [lab] ->
  5 < practical_demand (init db) (fun _ => true) ->
  forall fuel g, create_individual (init db) fuel g = Diverge.
Proof.
  intros Hlab Hover fuel g. apply spec_False_Diverge.
  unfold create_individual, max_attempts. simpl build_attempts.
  apply spec_try_except_no_raise.
  apply build_overbooked
    with (group := practical_in_lab (r_id lab)) (wanted := fun _ => true).
  - right. repeat split.
  - intros batch cs ind p (_ & _ & _ & _ & _ & _ & _ & _ & (r & Hr & Hid) & _).
    rewrite Hlab in Hr. destruct Hr as [<-|[]].
    unfold practical_in_lab. rewrite Hid. apply ident_eqb_refl.
  - apply lab_practicals_exclude.
  - exact Hover.
Qed.

(** C1 (the code loops).  On the rows [init_sample_data] inserts — faculty 1
    teaches two subjects with two practicals a week each to three batches,
    twelve sessions where the two windows leave one a day —
    [create_individual] does not return, whatever the fuel and the random
    tape. *)
Theorem create_individual_diverges_on_sample_data :
  forall (fuel : nat) (g : Rng),
    create_individual (init sample_data) fuel g = Diverge.
Proof.
  apply (create_individual_faculty_overbooked sample_data (Some 1)).
  - reflexivity.
  - vm_compute. reflexivity.
Qed.

(* ------------------------------------------------------------------ *)
(** ** Placeholder rooms *)

Lemma init_classrooms (db : Snapshot) :
  let found :=
    filter (fun r => String.eqb (room_type r) "Classroom") (db_rooms db) in
  (found = [] -> classrooms (init db) = [default_classroom])
  /\ (found <> [] -> classrooms (init db) = found).
Proof.
  simpl. destruct (filter _ (db_rooms db)) eqn:E; split; intro H;
    try reflexivity; congruence.
Qed.

Lemma init_labs (db : Snapshot) :
  let found := filter (fun r => String.eqb (room_type r) "Lab") (db_rooms db) in
  (found = [] -> labs (init db) = [default_lab])
  /\ (found <> [] -> labs (init db) = found).
Proof.
  simpl. destruct (filter _ (db_rooms db)) eqn:E; split; intro H;
    try reflexivity; congruence.
Qed.

(** [__init__] puts exactly one placeholder in the place of a room type the
    database lacks, and leaves a type that is present alone. *)
Lemma init_substitutes_placeholders (db : Snapshot) :
  let no_classroom :=
    filter (fun r => String.eqb (room_type r) "Classroom") (db_rooms db) = [] in
  let no_lab :=
    filter (fun r => String.eqb (room_type r) "Lab") (db_rooms db) = [] in
  (no_classroom -> classrooms (init db) = [default_classroom])
  /\ (~ no_classroom ->
      classrooms (init db) =
      filter (fun r => String.eqb (room_type r) "Classroom") (db_rooms db))
  /\ (no_lab -> labs (init db) = [default_lab])
  /\ (~ no_lab ->
      labs (init db) =
      filter (fun r => String.eqb (room_type r) "Lab") (db_rooms db)).
Proof.
  cbv zeta.
  destruct (init_classrooms db) as [Hc1 Hc2].
  destruct (init_labs db) as [Hl1 Hl2]. auto.
Qed.

(** With two labs in the database the request for six practicals is
    served. *)
Lemma six_practicals_two_labs_returns :
  create_individual (init six_practicals_two_labs) 300 scrambled_tape
  = Ok six_practicals_two_labs_individual
       {| tape := tape scrambled_tape; pos := 56 |}
  /\ length (practicals six_practicals_two_labs_individual) = 6%nat.
Proof. split; [vm_compute; reflexivity|reflexivity]. Qed.

(** C9 (the code loops).  A request without labs for six practicals, three
    for each of two faculty: [__init__] finds no lab and substitutes the one
    placeholder lab, and the run that follows does not return — one lab
    holds one practical a day, [create_individual] does not terminate,
    whatever the fuel and the random tape. *)
Theorem placeholder_lab_then_no_return :
  filter (fun r => String.eqb (room_type r) "Lab")
         (db_rooms six_practicals_no_lab) = []
  /\ labs (init six_practicals_no_lab) = [default_lab]
  /\ practical_demand (init six_practicals_no_lab) (taught_by (Some 1)) = 3
  /\ practical_demand (init six_practicals_no_lab) (taught_by (Some 2)) = 3
  /\ forall (fuel : nat) (g : Rng),
      create_individual (init six_practicals_no_lab) fuel g = Diverge.
Proof.
  repeat (split; [reflexivity|]).
  apply (create_individual_lab_overbooked six_practicals_no_lab default_lab).
  - reflexivity.
  - vm_compute. reflexivity.
Qed.

(* ------------------------------------------------------------------ *)
(** ** Allocation and deep copies *)

Lemma bound_in_grow {A} (heap heap' : list A) (locs : list loc) :
  bound_in heap locs -> (length heap <= length heap')%nat -> bound_in heap' locs.
Proof.
  unfold bound_in. intros H Hle. eapply Forall_impl; [|exact H].
  intros l Hl. simpl in Hl. lia.
Qed.

Lemma read_app_bound {A} (default : A) (heap extra : list A) (l : loc) :
  (l < length heap)%nat -> read default (heap ++ extra) l = read default heap l.
Proof. intro H. unfold read. now apply app_nth1. Qed.

Lemma map_read_app {A} (default : A) (heap extra : list A) (locs : list loc) :
  bound_in heap locs ->
  map (read default (heap ++ extra)) locs = map (read default heap) locs.
Proof.
  intro H. apply map_ext_in. intros l Hl.
  apply read_app_bound. unfold bound_in in H. rewrite Forall_forall in H. auto.
Qed.

Lemma map_read_seq {A} (default : A) (heap objs : list A) :
  map (read default (heap ++ objs)) (seq (length heap) (length objs)) = objs.
Proof.
  revert heap. induction objs as [|x objs IH]; intro heap; simpl; [reflexivity|].
  f_equal.
  - unfold read. rewrite app_nth2 by lia. now rewrite Nat.sub_diag.
  - specialize (IH (heap ++ [x])). rewrite <- app_assoc in IH. simpl in IH.
    rewrite length_app in IH. simpl in IH.
    now rewrite Nat.add_1_r in IH.
Qed.

Lemma fresh_bound_disjoint {A} (heap : list A) (a b : list loc) :
  fresh_in heap a -> bound_in heap b -> disjoint a b /\ disjoint b a.
Proof.
  unfold fresh_in, bound_in, disjoint. rewrite !Forall_forall.
  intros Ha Hb. split; intros x H1 H2.
  - specialize (Ha x H1). specialize (Hb x H2). simpl in *. lia.
  - specialize (Ha x H2). specialize (Hb x H1). simpl in *. lia.
Qed.

Lemma fresh_apart (s : Store) (a b : individual_ref) :
  fresh s a -> locs_ok s b -> apart a b /\ apart b a.
Proof.
  intros (F1 & F2 & F3) (B1 & B2 & B3).
  destruct (fresh_bound_disjoint _ _ _ F1 B1).
  destruct (fresh_bound_disjoint _ _ _ F2 B2).
  destruct (fresh_bound_disjoint _ _ _ F3 B3).
  repeat split; assumption.
Qed.

Lemma preserves_refl (b : individual_ref) (s : Store) : preserves b s s.
Proof. repeat split; lia. Qed.

Lemma preserves_trans (b : individual_ref) (s1 s2 s3 : Store) :
  preserves b s1 s2 -> preserves b s2 s3 -> preserves b s1 s3.
Proof.
  intros (A1 & A2 & A3 & A4) (B1 & B2 & B3 & B4).
  repeat split; try lia. congruence.
Qed.

Lemma locs_ok_grow (s s' : Store) (ind : individual_ref) :
  locs_ok s ind ->
  (length (lecture_objs s) <= length (lecture_objs s'))%nat ->
  (length (practical_objs s) <= length (practical_objs s'))%nat ->
  (length (mentoring_objs s) <= length (mentoring_objs s'))%nat ->
  locs_ok s' ind.
Proof.
  intros (B1 & B2 & B3) H1 H2 H3.
  repeat split; eapply bound_in_grow; eassumption.
Qed.

Lemma locs_ok_preserved (b ind : individual_ref) (s s' : Store) :
  preserves b s s' -> locs_ok s ind -> locs_ok s' ind.
Proof.
  intros (H1 & H2 & H3 & _) H. eapply locs_ok_grow; eassumption.
Qed.

(** The store after an append. *)
Lemma deref_appended (s : Store) (b : individual_ref)
      (ls : list lecture) (ps : list practical) (ms : list mentoring) :
  locs_ok s b ->
  deref {| lecture_objs := lecture_objs s ++ ls;
           practical_objs := practical_objs s ++ ps;
           mentoring_objs := mentoring_objs s ++ ms |} b = deref s b.
Proof.
  intros (B1 & B2 & B3). unfold deref. simpl.
  now rewrite !map_read_app.
Qed.

Lemma bound_in_seq {A} (heap objs : list A) :
  bound_in (heap ++ objs) (seq (length heap) (length objs)).
Proof.
  unfold bound_in. rewrite Forall_forall. intros l Hl.
  apply in_seq in Hl. rewrite length_app. lia.
Qed.

Lemma fresh_in_seq {A} (heap : list A) (n : nat) :
  fresh_in heap (seq (length heap) n).
Proof.
  unfold fresh_in. rewrite Forall_forall. intros l Hl.
  apply in_seq in Hl. lia.
Qed.

Lemma alloc_individual_Ok (ind : individual) (r : individual_ref) (w w' : World) :
  alloc_individual ind w = Ok r w' ->
  rng w' = rng w
  /\ deref (store w') r = ind
  /\ locs_ok (store w') r
  /\ fresh (store w) r
  /\ forall b, locs_ok (store w) b -> preserves b (store w) (store w').
Proof.
  unfold alloc_individual, alloc_list. intro H. inversion H; subst; clear H.
  simpl. split; [reflexivity|]. split; [|split; [|split]].
  - unfold deref. simpl. rewrite !map_read_seq. now destruct ind.
  - repeat split; simpl; apply bound_in_seq.
  - repeat split; simpl; apply fresh_in_seq.
  - intros b Hb. repeat split; simpl; try (rewrite length_app; lia).
    now apply deref_appended.
Qed.

Lemma deepcopy_list_spec {A} (default : A) (heap0 : list A) :
  forall locs memo heap r memo' heap',
    deepcopy_list default locs memo heap = (r, memo', heap') ->
    bound_in heap0 locs ->
    (exists pre, heap = heap0 ++ pre) ->
    (forall l l', dict_lookup Nat.eqb memo l = Some l' ->
                  (length heap0 <= l' < length heap)%nat
                  /\ read default heap l' = read default heap0 l) ->
    (exists post, heap' = heap ++ post)
    /\ Forall (fun l' => (length heap0 <= l' < length heap')%nat) r
    /\ map (read default heap') r = map (read default heap0) locs.
Proof.
  induction locs as [|l locs IH]; intros memo heap r memo' heap' Hrun Hb Hpre Hmemo.
  - simpl in Hrun. inversion Hrun; subst. split; [|split].
    + exists []. now rewrite app_nil_r.
    + constructor.
    + reflexivity.
  - simpl in Hrun. inversion Hb as [|? ? Hl Hb']; subst.
    destruct (dict_lookup Nat.eqb memo l) as [l'|] eqn:Elook.
    + destruct (deepcopy_list default locs memo heap) as [[r0 memo0] heap0'] eqn:Erec.
      inversion Hrun; subst; clear Hrun.
      destruct (IH _ _ _ _ _ Erec Hb' Hpre Hmemo) as ((post & ->) & Hr0 & Hmap).
      destruct (Hmemo l l' Elook) as [Hl' Hread].
      split; [now exists post|]. split.
      * constructor; [rewrite length_app; lia|assumption].
      * simpl. f_equal; [|assumption].
        rewrite read_app_bound by lia. assumption.
    + set (x := read default heap l) in *.
      destruct (deepcopy_list default locs
                  (dict_set Nat.eqb memo l (length heap)) (heap ++ [x]))
        as [[r0 memo0] heap0'] eqn:Erec.
      inversion Hrun; subst; clear Hrun.
      destruct Hpre as (pre & Hpre).
      assert (Hx : x = read default heap0 l).
      { unfold x. rewrite Hpre. now apply read_app_bound. }
      assert (Hlen0 : (length heap0 <= length heap)%nat).
      { rewrite Hpre, length_app. lia. }
      assert (Hnew : read default (heap ++ [x]) (length heap) = x).
      { unfold read. rewrite app_nth2 by lia. now rewrite Nat.sub_diag. }
      destruct (IH _ _ _ _ _ Erec Hb') as ((post & ->) & Hr0 & Hmap).
      * exists (pre ++ [x]). now rewrite Hpre, app_assoc.
      * intros k k' Hk. rewrite (dict_lookup_set Nat.eqb Nat.eqb_eq) in Hk.
        rewrite length_app. simpl.
        destruct (Nat.eqb_spec l k) as [<-|Hne].
        -- inversion Hk; subst. split; [lia|]. now rewrite Hnew.
        -- destruct (Hmemo k k' Hk) as [Hk' Hread]. split; [lia|].
           now rewrite read_app_bound by lia.
      * split; [exists ([x] ++ post); now rewrite app_assoc|]. split.
        -- constructor; [|assumption].
           rewrite !length_app. simpl. lia.
        -- simpl. f_equal; [|assumption].
           rewrite read_app_bound by (rewrite length_app; simpl; lia).
           now rewrite Hnew.
Qed.

Lemma deepcopy_list_fresh {A} (default : A) (heap : list A) (locs r : list loc)
      memo' heap' :
  deepcopy_list default locs [] heap = (r, memo', heap') ->
  bound_in heap locs ->
  (exists post, heap' = heap ++ post)
  /\ fresh_in heap r /\ bound_in heap' r
  /\ map (read default heap') r = map (read default heap) locs.
Proof.
  intros Hrun Hb.
  destruct (deepcopy_list_spec default heap locs [] heap r memo' heap' Hrun Hb)
    as (Hpost & Hr & Hmap).
  - exists []. now rewrite app_nil_r.
  - intros l l' H. discriminate H.
  - split; [assumption|]. split; [|split; [|assumption]].
    + eapply Forall_impl; [|exact Hr]. simpl. intros; lia.
    + eapply Forall_impl; [|exact Hr]. simpl. intros; lia.
Qed.

Lemma deepcopy_Ok (ind copy : individual_ref) (w w' : World) :
  deepcopy ind w = Ok copy w' -> locs_ok (store w) ind ->
  rng w' = rng w
  /\ fresh (store w) copy
  /\ locs_ok (store w') copy
  /\ deref (store w') copy = deref (store w) ind
  /\ forall b, locs_ok (store w) b -> preserves b (store w) (store w').
Proof.
  unfold deepcopy. intros H (B1 & B2 & B3).
  destruct (deepcopy_list no_lecture (lectures ind) [] (lecture_objs (store w)))
    as [[ls lm] lh] eqn:El.
  destruct (deepcopy_list no_practical (practicals ind) [] (practical_objs (store w)))
    as [[ps pm] ph] eqn:Ep.
  destruct (deepcopy_list no_mentoring (mentorings ind) [] (mentoring_objs (store w)))
    as [[ms mm] mh] eqn:Em.
  inversion H; subst; clear H. simpl.
  destruct (deepcopy_list_fresh _ _ _ _ _ _ El B1) as ((lpost & ->) & Lf & Lb & Lm).
  destruct (deepcopy_list_fresh _ _ _ _ _ _ Ep B2) as ((ppost & ->) & Pf & Pb & Pm).
  destruct (deepcopy_list_fresh _ _ _ _ _ _ Em B3) as ((mpost & ->) & Mf & Mb & Mm).
  split; [reflexivity|]. split; [|split; [|split]].
  - repeat split; assumption.
  - repeat split; assumption.
  - unfold deref. simpl. now rewrite Lm, Pm, Mm.
  - intros b Hb. repeat split; simpl; try (rewrite length_app; lia).
    now apply deref_appended.
Qed.

(* ------------------------------------------------------------------ *)
(** ** One generation *)

Lemma kept_apart_preserved (b ind : individual_ref) (s s' : Store) :
  preserves b s s' -> kept_apart b s ind -> kept_apart b s' ind.
Proof.
  intros Hp [Hok Hap]. split; [|assumption].
  eapply locs_ok_preserved; eassumption.
Qed.

Lemma mutate_preserves (self : Engine) (b child child' : individual_ref)
      (w w' : World) :
  mutate self child w = Ok child' w' -> apart b child ->
  child' = child /\ preserves b (store w) (store w').
Proof.
  intros Hm (Hdis & _ & _). apply mutate_Ok in Hm. destruct Hm as [-> Hm].
  split; [reflexivity|].
  assert (Hw : forall l x, In l (lectures child) ->
                           preserves b (store w) (with_lecture (store w) l x)).
  { intros l x Hl. repeat split; simpl; try lia.
    - rewrite length_write. lia.
    - unfold deref. simpl. f_equal. apply map_ext_in. intros l' Hl'.
      apply read_write_other. intros ->. exact (Hdis _ Hl' Hl). }
  destruct Hm as [->|l day Hin _ ->|l slot ts Hin _ _ _ ->].
  - apply preserves_refl.
  - now apply Hw.
  - now apply Hw.
Qed.

Lemma In_firstn {A} (n : nat) (l : list A) (x : A) :
  In x (firstn n l) -> In x l.
Proof.
  intro H. rewrite <- (firstn_skipn n l). apply in_or_app. now left.
Qed.

Lemma In_skipn {A} (n : nat) (l : list A) (x : A) :
  In x (skipn n l) -> In x l.
Proof.
  intro H. rewrite <- (firstn_skipn n l). apply in_or_app. now right.
Qed.

Lemma crossover_list_In {A} (l1 l2 : list A) (x : A) :
  In x (crossover_list l1 l2) -> In x l1 \/ In x l2.
Proof.
  unfold crossover_list, slice_to, slice_from.
  destruct (negb (is_empty l1) && negb (is_empty l2)); [|contradiction].
  intro H. apply in_app_or in H. destruct H as [H|H].
  - left. eapply In_firstn; eassumption.
  - right. eapply In_skipn; eassumption.
Qed.

Lemma bound_in_crossover {A} (heap : list A) (l1 l2 : list loc) :
  bound_in heap l1 -> bound_in heap l2 -> bound_in heap (crossover_list l1 l2).
Proof.
  unfold bound_in. rewrite !Forall_forall. intros H1 H2 x Hx.
  apply crossover_list_In in Hx. destruct Hx; auto.
Qed.

Lemma disjoint_crossover (b l1 l2 : list loc) :
  disjoint b l1 -> disjoint b l2 -> disjoint b (crossover_list l1 l2).
Proof.
  intros H1 H2 x Hb Hx. apply crossover_list_In in Hx.
  destruct Hx as [Hx|Hx]; [exact (H1 x Hb Hx)|exact (H2 x Hb Hx)].
Qed.

Lemma kept_apart_crossover (b p1 p2 : individual_ref) (s : Store) :
  kept_apart b s p1 -> kept_apart b s p2 -> kept_apart b s (crossover p1 p2).
Proof.
  intros [(A1 & A2 & A3) (A4 & A5 & A6)] [(B1 & B2 & B3) (B4 & B5 & B6)].
  split; repeat split; simpl;
    solve [now apply bound_in_crossover | now apply disjoint_crossover].
Qed.

Lemma new_individual_Ok (self : Engine) (fuel : nat) (b r : individual_ref)
      (w w' : World) :
  new_individual self fuel w = Ok r w' -> locs_ok (store w) b ->
  preserves b (store w) (store w') /\ kept_apart b (store w') r.
Proof.
  unfold new_individual. intros H Hb. inv_ok H.
  apply with_rng_Ok in Hstep. destruct Hstep as (g' & _ & ->).
  apply alloc_individual_Ok in H. simpl in H.
  destruct H as (_ & _ & Hok & Hfresh & Hpres).
  split; [now apply Hpres|]. split; [assumption|].
  now destruct (fresh_apart _ _ _ Hfresh Hb).
Qed.

Section Offspring.
Variable self : Engine.
Variable fuel : nat.
Variable b : individual_ref.

Lemma select_parents_Ok (fs : list (Z * individual_ref))
      (p1 p2 : individual_ref) (w w' : World) :
  select_parents self fuel fs w = Ok (p1, p2) w' ->
  locs_ok (store w) b ->
  Forall (fun x => kept_apart b (store w) (snd x)) fs ->
  preserves b (store w) (store w')
  /\ kept_apart b (store w') p1 /\ kept_apart b (store w') p2.
Proof.
  intros H Hb Hfs. unfold select_parents in H.
  rewrite Forall_forall in Hfs.
  destruct (10 <? length fs)%nat.
  - inv_ok H. inversion H; subst; clear H.
    apply with_rng_Ok in Hstep. destruct Hstep as (g1 & Hc1 & ->).
    apply with_rng_Ok in Hstep0. destruct Hstep0 as (g2 & Hc2 & ->).
    apply choice_In in Hc1, Hc2. apply In_firstn in Hc1, Hc2.
    simpl. split; [apply preserves_refl|]. split; now apply Hfs.
  - inv_ok H. inversion H; subst; clear H.
    assert (H1 : preserves b (store w) (store s) /\ kept_apart b (store s) p1).
    { destruct fs as [|x fs'].
      - now apply (new_individual_Ok self fuel b p1 w s).
      - inv_ok Hstep. split; [apply preserves_refl|]. apply Hfs. now left. }
    destruct H1 as [Hp1 Hk1].
    assert (H2 : preserves b (store s) (store w') /\ kept_apart b (store w') p2).
    { assert (Hnew : new_individual self fuel s = Ok p2 w' ->
                     preserves b (store s) (store w')
                     /\ kept_apart b (store w') p2).
      { intro Hn. apply (new_individual_Ok self fuel b p2 s w' Hn).
        eapply locs_ok_preserved; eassumption. }
      destruct fs as [|x [|y fs']]; auto.
      inv_ok Hstep0. split; [apply preserves_refl|].
      eapply kept_apart_preserved; [eassumption|].
      apply Hfs. right. now left. }
    destruct H2 as [Hp2 Hk2].
    split; [eapply preserves_trans; eassumption|]. split; [|assumption].
    eapply kept_apart_preserved; eassumption.
Qed.

Lemma offspring_Ok (population_size : nat) (mutation_rate : Q)
      (fs : list (Z * individual_ref)) (passes : nat) :
  forall (ng ng' : list individual_ref) (w w' : World),
    offspring self fuel population_size mutation_rate fs passes ng w
    = Ok ng' w' ->
    locs_ok (store w) b ->
    Forall (fun x => kept_apart b (store w) (snd x)) fs ->
    Forall (kept_apart b (store w)) ng ->
    preserves b (store w) (store w')
    /\ Forall (kept_apart b (store w')) ng'.
Proof.
  induction passes as [|passes IH]; intros ng ng' w w' H Hb Hfs Hng;
    simpl in H; destruct (length ng <? population_size)%nat;
    try discriminate H;
    try (inv_ok H; split; [apply preserves_refl|assumption]).
  inv_ok H. destruct a as [p1 p2].
  destruct (select_parents_Ok fs p1 p2 w s Hstep Hb Hfs) as (Hp1 & K1 & K2).
  apply with_rng_Ok in Hstep0. destruct Hstep0 as (g1 & _ & ->).
  simpl in Hstep1.
  set (w1 := {| rng := g1; store := store s |}) in *.
  assert (Hchild : preserves b (store w1) (store s1)
                   /\ kept_apart b (store s1) a1).
  { pose proof (kept_apart_crossover b p1 p2 (store s) K1 K2) as Kc.
    destruct (Qltb a0 mutation_rate).
    - destruct (mutate_preserves self b _ _ _ _ Hstep1 (proj2 Kc)) as [-> Hp].
      split; [assumption|]. eapply kept_apart_preserved; eassumption.
    - inv_ok Hstep1. split; [apply preserves_refl|assumption]. }
  destruct Hchild as [Hp2 Kchild].
  assert (Hp : preserves b (store w) (store s1))
    by (eapply preserves_trans; eassumption).
  destruct (IH _ _ _ _ H) as [Hp3 Hng'].
  - eapply locs_ok_preserved; eassumption.
  - eapply Forall_impl; [|exact Hfs]. intros x Hx.
    eapply kept_apart_preserved; eassumption.
  - apply Forall_app. split.
    + eapply Forall_impl; [|exact Hng]. intros x Hx.
      eapply kept_apart_preserved; eassumption.
    + constructor; [assumption|constructor].
  - split; [eapply preserves_trans; eassumption|assumption].
Qed.
End Offspring.

(** The children loop never runs out of passes: it starts with
    [population_size] of them and each pass adds a child. *)
Lemma offspring_passes (self : Engine) (fuel population_size : nat)
      (mutation_rate : Q) (fs : list (Z * individual_ref)) (extra : nat) :
  forall passes ng w,
    (population_size <= passes + length ng)%nat ->
    offspring self fuel population_size mutation_rate fs (passes + extra) ng w
    = offspring self fuel population_size mutation_rate fs passes ng w.
Proof.
  induction passes as [|passes IH]; intros ng w Hle.
  - simpl in Hle. apply Nat.ltb_ge in Hle.
    simpl. destruct extra; simpl; now rewrite Hle.
  - simpl. destruct (length ng <? population_size)%nat; [|reflexivity].
    apply bind_more_fuel. intros parents w1 _.
    apply bind_more_fuel. intros r w2 _.
    apply bind_more_fuel. intros child w3 _.
    apply IH. rewrite length_app. simpl. lia.
Qed.

Lemma evaluate_Ok (self : Engine) (population : list individual_ref) (w : World) :
  evaluate self population w =
  Ok (map (fun ind => (calculate_fitness self (deref (store w) ind), ind))
          population) w.
Proof.
  induction population as [|ind population IH]; simpl; [reflexivity|].
  unfold bind, fitness_of. now rewrite IH.
Qed.

Lemma insert_desc_In {A} (x y : Z * A) (l : list (Z * A)) :
  In y (insert_desc x l) <-> y = x \/ In y l.
Proof.
  induction l as [|z l IH]; simpl.
  - split; intros [H|H]; auto.
  - destruct (fst x <? fst z); simpl; [rewrite IH|]; intuition.
Qed.

Lemma sort_desc_In {A} (y : Z * A) (l : list (Z * A)) :
  In y (sort_desc l) <-> In y l.
Proof.
  induction l as [|x l IH]; simpl; [tauto|].
  rewrite insert_desc_In, IH. intuition.
Qed.

Lemma insert_desc_sorted {A} (x : Z * A) (l : list (Z * A)) :
  sorted_desc l -> sorted_desc (insert_desc x l).
Proof.
  unfold sorted_desc. induction l as [|z l IH]; intro H; simpl.
  - repeat constructor.
  - inversion H as [|? ? Hs Hall]; subst.
    destruct (Z.ltb_spec (fst x) (fst z)).
    + constructor; [now apply IH|].
      rewrite Forall_forall. intros y Hy. apply insert_desc_In in Hy.
      destruct Hy as [->|Hy]; [lia|].
      rewrite Forall_forall in Hall. now apply Hall.
    + constructor; [assumption|]. constructor; [assumption|].
      eapply Forall_impl; [|exact Hall]. simpl. intros; lia.
Qed.

Lemma sort_desc_sorted {A} (l : list (Z * A)) : sorted_desc (sort_desc l).
Proof.
  induction l as [|x l IH]; simpl; [constructor|].
  now apply insert_desc_sorted.
Qed.

(** The head of the ranking scores at least as much as anyone. *)
Lemma ranking_top (self : Engine) (s : Store) (population : list individual_ref)
      (top_fitness : Z) (top : individual_ref) :
  hd_error (ranking self s population) = Some (top_fitness, top) ->
  In top population
  /\ top_fitness = calculate_fitness self (deref s top)
  /\ Forall (fun ind => calculate_fitness self (deref s ind) <= top_fitness)
            population.
Proof.
  unfold ranking. intro H.
  pose proof (sort_desc_sorted
                (map (fun ind => (calculate_fitness self (deref s ind), ind))
                     population)) as Hs.
  pose proof (fun y => sort_desc_In y
                (map (fun ind => (calculate_fitness self (deref s ind), ind))
                     population)) as Hin.
  destruct (sort_desc _) as [|x l]; [discriminate|].
  simpl in H. inversion H; subst; clear H.
  assert (Htop : In (top_fitness, top) ((top_fitness, top) :: l)) by now left.
  apply Hin, in_map_iff in Htop. destruct Htop as (i & Hi & Hpop).
  inversion Hi; subst. split; [assumption|]. split; [reflexivity|].
  rewrite Forall_forall. intros ind Hind.
  assert (Hy : In (calculate_fitness self (deref s ind), ind)
                  ((calculate_fitness self (deref s top), top) :: l)).
  { apply Hin, in_map_iff. eauto. }
  inversion Hs as [|? ? _ Hall]; subst.
  destruct Hy as [Hy|Hy].
  - inversion Hy. lia.
  - rewrite Forall_forall in Hall. apply (Hall _ Hy).
Qed.

Lemma ranking_members (self : Engine) (s : Store)
      (population : list individual_ref) (x : Z * individual_ref) :
  In x (ranking self s population) -> In (snd x) population.
Proof.
  unfold ranking. intro H. apply sort_desc_In, in_map_iff in H.
  destruct H as (i & <- & Hi). exact Hi.
Qed.

Lemma getitem_0 {A} (l : list A) : getitem l 0 = hd_error l.
Proof. unfold getitem. simpl. now destruct l. Qed.

Lemma best_le_refl (a : best_score) : best_le a a.
Proof. destruct a; simpl; [exact I|lia]. Qed.

Lemma best_le_trans (a b c : best_score) :
  best_le a b -> best_le b c -> best_le a c.
Proof. destruct a, b, c; simpl; try tauto; lia. Qed.

Lemma exceeds_best_le (fitness : Z) (best : best_score) :
  exceeds fitness best = true -> best_le best (Score fitness).
Proof.
  destruct best; simpl; [trivial|]. intro H. apply Z.ltb_lt in H. lia.
Qed.

(** The rest of a generation, from the selection of the elites on, keeps an
    individual [b] that shares nothing with the population as it is. *)
Lemma reproduction_Ok (self : Engine) (fuel population_size : nat)
      (mutation_rate : Q) (elite_size : nat) (b : individual_ref)
      (population ng : list individual_ref) (s0 : Store) (w w' : World) :
  offspring self fuel population_size mutation_rate
            (ranking self s0 population) population_size
            (map snd (slice_to (ranking self s0 population) elite_size)) w
  = Ok ng w' ->
  locs_ok (store w) b ->
  Forall (kept_apart b (store w)) population ->
  preserves b (store w) (store w') /\ Forall (kept_apart b (store w')) ng.
Proof.
  intros H Hb Hpop. rewrite Forall_forall in Hpop.
  apply (offspring_Ok self fuel b) in H; try assumption.
  - rewrite Forall_forall. intros x Hx. apply Hpop.
    eapply ranking_members; eassumption.
  - rewrite Forall_forall. intros i Hi. apply in_map_iff in Hi.
    destruct Hi as (x & <- & Hx). apply In_firstn in Hx. apply Hpop.
    eapply ranking_members; eassumption.
Qed.

Lemma kept_apart_empty_ref (s : Store) (ind : individual_ref) :
  locs_ok s ind -> kept_apart empty_ref s ind.
Proof.
  intro H. split; [assumption|]. repeat split; intros x [].
Qed.

Lemma locs_ok_empty_ref (s : Store) : locs_ok s empty_ref.
Proof. repeat split; constructor. Qed.

(** What one generation does to the best-so-far. *)
Lemma generation_Ok :
  forall (self : Engine) (fuel population_size : nat) (mutation_rate : Q)
         (elite_size : nat) (ga ga' : GA) (w w' : World),
    generation self fuel population_size mutation_rate elite_size ga w
    = Ok ga' w' ->
    ga_ok self (store w) ga ->
    exists (top_fitness : Z) (top : individual_ref),
      hd_error (ranking self (store w) (population ga)) = Some (top_fitness, top)
      /\ In top (population ga)
      /\ top_fitness = calculate_fitness self (deref (store w) top)
      /\ Forall (fun ind =>
                   calculate_fitness self (deref (store w) ind) <= top_fitness)
                (population ga)
      /\ best_le (best_fitness ga) (best_fitness ga')
      /\ (exceeds top_fitness (best_fitness ga) = false ->
          best_solution ga' = best_solution ga
          /\ best_fitness ga' = best_fitness ga)
      /\ (exceeds top_fitness (best_fitness ga) = true ->
          best_fitness ga' = Score top_fitness
          /\ exists copy,
              best_solution ga' = Some copy
              /\ fresh (store w) copy
              /\ Forall (apart copy) (population ga)
              /\ deref (store w') copy = deref (store w) top)
      /\ ga_ok self (store w') ga'.
Proof.
  intros self fuel psize mrate esize ga ga' w w' H [Hpop Hbest].
  unfold generation in H.
  apply bind_Ok in H. destruct H as (fs & w0 & Hev & H).
  rewrite evaluate_Ok in Hev. inversion Hev; subst fs w0; clear Hev.
  fold (ranking self (store w) (population ga)) in H.
  apply bind_Ok in H. destruct H as ([tf top] & w1 & Htop & H).
  apply getitem_m_Ok in Htop. destruct Htop as [Htop ->].
  rewrite getitem_0 in Htop.
  destruct (ranking_top _ _ _ _ _ Htop) as (Hin & Htf & Hmax).
  exists tf, top. repeat (split; [assumption|]).
  cbn [fst snd] in H.
  assert (Htop_ok : locs_ok (store w) top).
  { rewrite Forall_forall in Hpop. now apply Hpop. }
  destruct (exceeds tf (best_fitness ga)) eqn:Eex.
  - (* the top candidate is copied *)
    apply bind_Ok in H. destruct H as (ga1 & w2 & Hcopy & H).
    apply bind_Ok in Hcopy. destruct Hcopy as (copy & w3 & Hdc & Hret).
    apply ret_Ok in Hret. destruct Hret as [<- <-].
    apply deepcopy_Ok in Hdc; [|assumption].
    destruct Hdc as (_ & Hfresh & Hcok & Hderef & Hpres).
    apply bind_Ok in H. destruct H as (ng & w4 & Hoff & Hret).
    apply ret_Ok in Hret. destruct Hret as [<- <-]. cbn [population best_solution best_fitness] in *.
    assert (Hapart : Forall (apart copy) (population ga)).
    { eapply Forall_impl; [|exact Hpop]. intros ind Hind.
      now destruct (fresh_apart _ _ _ Hfresh Hind). }
    assert (Hkept : Forall (kept_apart copy (store w3)) (population ga)).
    { rewrite Forall_forall in *. intros ind Hind. split.
      - eapply locs_ok_preserved; [apply (Hpres ind)|]; auto.
      - auto. }
    destruct (reproduction_Ok _ _ _ _ _ copy _ _ _ _ _ Hoff Hcok Hkept)
      as [Hp Hng].
    split; [now apply exceeds_best_le|].
    split; [discriminate|].
    split.
    { intros _. split; [reflexivity|]. exists copy.
      repeat (split; [assumption || reflexivity|]).
      destruct Hp as (_ & _ & _ & ->). assumption. }
    split.
    + eapply Forall_impl; [|exact Hng]. now intros ind [Hk _].
    + split; [eapply locs_ok_preserved; eassumption|]. split.
      * eapply Forall_impl; [|exact Hng]. now intros ind [_ Hk].
      * destruct Hp as (_ & _ & _ & ->). rewrite Hderef. now subst tf.
  - (* the best-so-far stays *)
    apply bind_Ok in H. destruct H as (ga1 & w2 & Hret & H).
    apply ret_Ok in Hret. destruct Hret as [<- <-].
    apply bind_Ok in H. destruct H as (ng & w4 & Hoff & Hret).
    apply ret_Ok in Hret. destruct Hret as [<- <-]. cbn [population best_solution best_fitness] in *.
    split; [apply best_le_refl|].
    split; [intros _; split; reflexivity|].
    split; [discriminate|].
    destruct (best_solution ga) as [b|] eqn:Eb.
    + destruct Hbest as (Hbok & Hbapart & Hbfit).
      assert (Hkept : Forall (kept_apart b (store w)) (population ga)).
      { rewrite Forall_forall in *. intros ind Hind. split; auto. }
      destruct (reproduction_Ok _ _ _ _ _ b _ _ _ _ _ Hoff Hbok Hkept)
        as [Hp Hng].
      split.
      * eapply Forall_impl; [|exact Hng]. now intros ind [Hk _].
      * split; [eapply locs_ok_preserved; eassumption|]. split.
        -- eapply Forall_impl; [|exact Hng]. now intros ind [_ Hk].
        -- destruct Hp as (_ & _ & _ & ->). assumption.
    + assert (Hkept : Forall (kept_apart empty_ref (store w)) (population ga)).
      { eapply Forall_impl; [|exact Hpop]. intros ind.
        apply kept_apart_empty_ref. }
      destruct (reproduction_Ok _ _ _ _ _ empty_ref _ _ _ _ _ Hoff
                                (locs_ok_empty_ref _) Hkept) as [Hp Hng].
      split; [|exact I].
      eapply Forall_impl; [|exact Hng]. now intros ind [Hk _].
Qed.

Lemma generations_loop_Ok (self : Engine) (fuel population_size : nat)
      (mutation_rate : Q) (elite_size generations : nat) :
  forall (ga ga' : GA) (w w' : World),
    generations_loop self fuel population_size mutation_rate elite_size
                     generations ga w = Ok ga' w' ->
    ga_ok self (store w) ga ->
    best_le (best_fitness ga) (best_fitness ga') /\ ga_ok self (store w') ga'.
Proof.
  induction generations as [|n IH]; intros ga ga' w w' H Hok; simpl in H.
  - apply ret_Ok in H. destruct H as [<- <-].
    split; [apply best_le_refl|assumption].
  - apply bind_Ok in H. destruct H as (ga1 & w1 & Hgen & H).
    destruct (generation_Ok _ _ _ _ _ _ _ _ _ Hgen Hok)
      as (tf & top & _ & _ & _ & _ & Hle & _ & _ & Hok1).
    destruct (IH _ _ _ _ H Hok1) as [Hle' Hok'].
    split; [eapply best_le_trans; eassumption|assumption].
Qed.

Lemma initial_population_Ok (self : Engine) (fuel : nat) (b : individual_ref)
      (n : nat) :
  forall (population population' : list individual_ref) (w w' : World),
    initial_population self fuel n population w = Ok population' w' ->
    locs_ok (store w) b ->
    Forall (kept_apart b (store w)) population ->
    preserves b (store w) (store w')
    /\ Forall (kept_apart b (store w')) population'.
Proof.
  induction n as [|n IH]; intros pop pop' w w' H Hb Hpop; simpl in H.
  - apply ret_Ok in H. destruct H as [<- <-].
    split; [apply preserves_refl|assumption].
  - apply bind_Ok in H. destruct H as (ind & w1 & Hnew & H).
    destruct (new_individual_Ok _ _ b _ _ _ Hnew Hb) as [Hp Hk].
    destruct (IH _ _ _ _ H) as [Hp' Hpop'].
    + eapply locs_ok_preserved; eassumption.
    + apply Forall_app. split.
      * eapply Forall_impl; [|exact Hpop]. intros x Hx.
        eapply kept_apart_preserved; eassumption.
      * constructor; [assumption|constructor].
    + split; [eapply preserves_trans; eassumption|assumption].
Qed.

Lemma evolve_Ok (self : Engine) (fuel population_size generations : nat)
      (mutation_rate : Q) (elite_size : nat) (ga ga' : GA) (w w' : World) :
  evolve self fuel population_size generations mutation_rate elite_size ga w
  = Ok ga' w' ->
  ga_ok self (store w) ga ->
  best_le (best_fitness ga) (best_fitness ga') /\ ga_ok self (store w') ga'.
Proof.
  intros H [_ Hbest]. unfold evolve in H.
  apply bind_Ok in H. destruct H as (pop & w1 & Hinit & H).
  apply generations_loop_Ok in H; [exact H|].
  unfold ga_ok. cbn [population best_solution best_fitness].
  destruct (best_solution ga) as [b|].
  - destruct Hbest as (Hbok & _ & Hfit).
    destruct (initial_population_Ok _ _ b _ _ _ _ _ Hinit Hbok) as [Hp Hpop];
      [constructor|].
    split; [eapply Forall_impl; [|exact Hpop]; now intros ind [Hk _]|].
    split; [eapply locs_ok_preserved; eassumption|]. split.
    + eapply Forall_impl; [|exact Hpop]. now intros ind [_ Hk].
    + destruct Hp as (_ & _ & _ & ->). assumption.
  - destruct (initial_population_Ok _ _ empty_ref _ _ _ _ _ Hinit
                                    (locs_ok_empty_ref _)) as [Hp Hpop];
      [constructor|].
    split; [|exact I].
    eapply Forall_impl; [|exact Hpop]. now intros ind [Hk _].
Qed.

(** C4.  In every generation of a run of [evolve]: the best-so-far fitness
    does not decrease; the best-so-far candidate is replaced only when the
    fitness of the generation's top candidate is strictly above the recorded
    best; when it is replaced, the stored best is a copy made of new session
    dicts that reads as the top candidate did; and afterwards the stored
    best shares no session dict with any candidate of the next population,
    so that its recorded fitness stays the fitness of what it holds.  Over
    any number of generations, and over [evolve] as a whole, the best-so-far
    fitness does not decrease and these facts are kept. *)
Theorem best_so_far_elitism :
  (forall (self : Engine) (fuel population_size : nat) (mutation_rate : Q)
          (elite_size : nat) (ga ga' : GA) (w w' : World),
      generation self fuel population_size mutation_rate elite_size ga w
      = Ok ga' w' ->
      ga_ok self (store w) ga ->
      exists (top_fitness : Z) (top : individual_ref),
        hd_error (ranking self (store w) (population ga))
        = Some (top_fitness, top)
        /\ In top (population ga)
        /\ top_fitness = calculate_fitness self (deref (store w) top)
        /\ Forall (fun ind =>
                     calculate_fitness self (deref (store w) ind) <= top_fitness)
                  (population ga)
        /\ best_le (best_fitness ga) (best_fitness ga')
        /\ (exceeds top_fitness (best_fitness ga) = false ->
            best_solution ga' = best_solution ga
            /\ best_fitness ga' = best_fitness ga)
        /\ (exceeds top_fitness (best_fitness ga) = true ->
            best_fitness ga' = Score top_fitness
            /\ exists copy,
                best_solution ga' = Some copy
                /\ fresh (store w) copy
                /\ Forall (apart copy) (population ga)
                /\ deref (store w') copy = deref (store w) top)
        /\ ga_ok self (store w') ga')
  /\ (forall (self : Engine) (fuel population_size : nat) (mutation_rate : Q)
             (elite_size generations : nat) (ga ga' : GA) (w w' : World),
         generations_loop self fuel population_size mutation_rate elite_size
                          generations ga w = Ok ga' w' ->
         ga_ok self (store w) ga ->
         best_le (best_fitness ga) (best_fitness ga')
         /\ ga_ok self (store w') ga')
  /\ (forall (self : Engine) (fuel population_size generations : nat)
             (mutation_rate : Q) (elite_size : nat) (ga ga' : GA) (w w' : World),
         evolve self fuel population_size generations mutation_rate elite_size
                ga w = Ok ga' w' ->
         ga_ok self (store w) ga ->
         best_le (best_fitness ga) (best_fitness ga')
         /\ ga_ok self (store w') ga').
Proof.
  split; [|split].
  - exact generation_Ok.
  - intros self fuel psize mrate esize n. apply generations_loop_Ok.
  - intros self fuel psize n mrate esize ga ga' w w'. apply evolve_Ok.
Qed.

Lemma scenario_a_generation_runs :
  generation (init scenario_a) 20 3 (1 # 2) 1
             scenario_a_generation_0 scenario_a_world_0
  = Ok scenario_a_generation_1 scenario_a_world_1.
Proof. vm_compute. reflexivity. Qed.

Lemma scenario_a_evolves :
  evolve (init scenario_a) 20 3 2 (1 # 2) 1 initial_ga empty_world
  = Ok scenario_a_final scenario_a_final_world.
Proof. vm_compute. reflexivity. Qed.

Lemma scenario_a_generation_0_ok :
  ga_ok (init scenario_a) (store scenario_a_world_0) scenario_a_generation_0.
Proof.
  split; [|exact I].
  repeat constructor; simpl; lia.
Qed.

Lemma initial_ga_ok (self : Engine) (s : Store) : ga_ok self s initial_ga.
Proof. split; [constructor|exact I]. Qed.

(** Scenario A: the first generation records a best of 1000, a copy at new
    locations; the run of two generations ends with it. *)
Lemma best_so_far_elitism_witness :
  (ga_ok (init scenario_a) (store scenario_a_world_0) scenario_a_generation_0
   /\ generation (init scenario_a) 20 3 (1 # 2) 1
                 scenario_a_generation_0 scenario_a_world_0
      = Ok scenario_a_generation_1 scenario_a_world_1
   /\ best_fitness scenario_a_generation_1 = Score 1000
   /\ ga_ok (init scenario_a) (store scenario_a_world_1) scenario_a_generation_1)
  /\ (ga_ok (init scenario_a) (store empty_world) initial_ga
      /\ evolve (init scenario_a) 20 3 2 (1 # 2) 1 initial_ga empty_world
         = Ok scenario_a_final scenario_a_final_world
      /\ best_le (best_fitness initial_ga) (best_fitness scenario_a_final)
      /\ ga_ok (init scenario_a) (store scenario_a_final_world) scenario_a_final).
Proof.
  destruct best_so_far_elitism as (Hstep & _ & Hevolve).
  split.
  - split; [exact scenario_a_generation_0_ok|].
    split; [exact scenario_a_generation_runs|].
    split; [reflexivity|].
    destruct (Hstep _ _ _ _ _ _ _ _ _ scenario_a_generation_runs
                    scenario_a_generation_0_ok)
      as (tf & top & _ & _ & _ & _ & _ & _ & _ & Hok).
    exact Hok.
  - split; [apply initial_ga_ok|].
    split; [exact scenario_a_evolves|].
    exact (Hevolve _ _ _ _ _ _ _ _ _ _ scenario_a_evolves
                   (initial_ga_ok _ _)).
Defined.

(* ------------------------------------------------------------------ *)
(** ** Purity of the fitness function *)



(* ================================================================== *)
(** * Further properties of the engine *)

(* ------------------------------------------------------------------ *)
(** ** Nobody and no room in two places *)

Lemma count_where_snoc {A} (f : A -> bool) (l : list A) (x : A) :
  count_where f (l ++ [x]) = count_where f l + (if f x then 1 else 0).
Proof.
  unfold count_where. rewrite filter_app, length_app. simpl.
  destruct (f x); simpl length; lia.
Qed.

Lemma count_where_nonneg {A} (f : A -> bool) (l : list A) :
  0 <= count_where f l.
Proof. unfold count_where. lia. Qed.

Lemma count_where_none {A} (f : A -> bool) (l : list A) :
  (forall x, In x l -> f x = false) -> count_where f l = 0.
Proof.
  induction l as [|y l IH]; intro H; [reflexivity|].
  rewrite count_where_cons, H by now left.
  rewrite IH; [lia|]. intros x Hx. apply H. now right.
Qed.

Lemma existsb_false_count {A} (f : A -> bool) (l : list A) :
  existsb f l = false -> count_where f l = 0.
Proof.
  intro H. apply count_where_none. intros x Hx.
  now apply existsb_false_In with (l := l).
Qed.

(** [check_faculty_busy] answers [False] for a faculty only when no session
    keeps them at that day and slot. *)
Lemma not_busy_no_session (ind : individual) (f : ident) (d : string) (s : Z) :
  truthy f = true -> check_faculty_busy ind f d s = false ->
  faculty_sessions_at ind f d s = 0.
Proof.
  intros Hf H. unfold check_faculty_busy in H. rewrite Hf in H. simpl in H.
  unfold faculty_sessions_at.
  destruct (existsb _ (lectures ind)) eqn:El; [discriminate|].
  destruct (existsb _ (practicals ind)) eqn:Ep; [discriminate|].
  destruct (existsb _ (mentorings ind)) eqn:Em; [discriminate|].
  now rewrite (existsb_false_count _ _ El), (existsb_false_count _ _ Ep),
    (existsb_false_count _ _ Em).
Qed.

Lemma classroom_free_no_session (ind : individual) (r : ident) (d : string)
      (s : Z) :
  classroom_is_free ind r d s -> classroom_sessions_at ind r d s = 0.
Proof.
  intros [Hl Hm]. unfold classroom_sessions_at.
  rewrite !count_where_none; [reflexivity| |].
  - intros m Hin. destruct (_ && _) eqn:E; [|reflexivity].
    rewrite !andb_true_iff, ident_eqb_eq, String.eqb_eq, Z.eqb_eq in E.
    destruct E as [[Hr Hd] Hs]. now destruct (Hm m Hin Hd Hs).
  - intros l Hin. destruct (_ && _) eqn:E; [|reflexivity].
    rewrite !andb_true_iff, ident_eqb_eq, String.eqb_eq, Z.eqb_eq in E.
    destruct E as [[Hr Hd] Hs]. now destruct (Hl l Hin Hd Hs).
Qed.

Lemma lab_free_no_session (ind : individual) (r : ident) (d : string)
      (start_slot end_slot s : Z) :
  lab_is_free ind r d start_slot end_slot -> start_slot <= s <= end_slot ->
  lab_sessions_at ind r d s = 0.
Proof.
  intros Hfree Hs. unfold lab_sessions_at. apply count_where_none.
  intros p Hin. destruct (_ && _) eqn:E; [|reflexivity].
  rewrite !andb_true_iff, ident_eqb_eq, String.eqb_eq, !Z.leb_le in E.
  destruct E as [[Hr Hd] Hin']. specialize (Hfree p Hin Hd Hr). lia.
Qed.

Lemma conflict_free_empty : conflict_free empty_individual.
Proof.
  unfold conflict_free, faculty_sessions_at, classroom_sessions_at,
    lab_sessions_at. simpl. repeat split; intros; rewrite !count_where_nil; lia.
Qed.

Lemma conflict_free_lecture (self : Engine) (cs : ClassSubject)
      (ind : individual) (l : lecture) :
  conflict_free ind -> lecture_placed self cs ind l ->
  conflict_free (append_lecture ind l).
Proof.
  intros (Hfac & Hroom & Hlab)
         (_ & _ & _ & _ & _ & Hbusy & _ & Hfree).
  split; [|split].
  - intros f d s Hf. specialize (Hfac f d s Hf).
    unfold faculty_sessions_at in *. simpl. rewrite count_where_snoc.
    destruct (_ && _) eqn:E; [|lia].
    rewrite !andb_true_iff, ident_eqb_eq, String.eqb_eq, Z.eqb_eq in E.
    destruct E as [[<- <-] <-].
    apply not_busy_no_session in Hbusy; [|assumption].
    unfold faculty_sessions_at in Hbusy. lia.
  - intros r d s. specialize (Hroom r d s).
    unfold classroom_sessions_at in *. simpl. rewrite count_where_snoc.
    destruct (_ && _) eqn:E; [|lia].
    rewrite !andb_true_iff, ident_eqb_eq, String.eqb_eq, Z.eqb_eq in E.
    destruct E as [[<- <-] <-].
    apply classroom_free_no_session in Hfree.
    unfold classroom_sessions_at in Hfree. lia.
  - exact Hlab.
Qed.

Lemma conflict_free_mentoring (self : Engine) (batch : Batch)
      (ind : individual) (m : mentoring) :
  conflict_free ind -> mentoring_placed self batch ind m ->
  conflict_free (append_mentoring ind m).
Proof.
  intros (Hfac & Hroom & Hlab)
         (_ & _ & _ & _ & _ & Hbusy & _ & Hfree).
  split; [|split].
  - intros f d s Hf. specialize (Hfac f d s Hf).
    unfold faculty_sessions_at in *. simpl. rewrite count_where_snoc.
    destruct (_ && _) eqn:E; [|lia].
    rewrite !andb_true_iff, ident_eqb_eq, String.eqb_eq, Z.eqb_eq in E.
    destruct E as [[<- <-] <-].
    apply not_busy_no_session in Hbusy; [|assumption].
    unfold faculty_sessions_at in Hbusy. lia.
  - intros r d s. specialize (Hroom r d s).
    unfold classroom_sessions_at in *. simpl. rewrite count_where_snoc.
    destruct (_ && _) eqn:E; [|lia].
    rewrite !andb_true_iff, ident_eqb_eq, String.eqb_eq, Z.eqb_eq in E.
    destruct E as [[<- <-] <-].
    apply classroom_free_no_session in Hfree.
    unfold classroom_sessions_at in Hfree. lia.
  - exact Hlab.
Qed.

Lemma conflict_free_practical (self : Engine) (batch : Batch)
      (cs : ClassSubject) (ind : individual) (p : practical) :
  conflict_free ind -> practical_placed self batch cs ind p ->
  conflict_free (append_practical ind p).
Proof.
  intros (Hfac & Hroom & Hlab)
         (_ & Hstart & Hend & _ & _ & _ & Hbusy1 & Hbusy2 & _ & Hfree).
  split; [|split].
  - intros f d s Hf. specialize (Hfac f d s Hf).
    unfold faculty_sessions_at in *. simpl. rewrite count_where_snoc.
    destruct (_ && _) eqn:E; [|lia].
    rewrite !andb_true_iff, ident_eqb_eq, String.eqb_eq, !Z.leb_le in E.
    destruct E as [[<- <-] Hs].
    assert (Hcase : s = p_start_slot p \/ s = p_end_slot p) by lia.
    destruct Hcase as [-> | ->].
    + apply not_busy_no_session in Hbusy1; [|assumption].
      unfold faculty_sessions_at in Hbusy1. lia.
    + apply not_busy_no_session in Hbusy2; [|assumption].
      unfold faculty_sessions_at in Hbusy2. lia.
  - exact Hroom.
  - intros r d s. specialize (Hlab r d s).
    unfold lab_sessions_at in *. simpl. rewrite count_where_snoc.
    destruct (_ && _) eqn:E; [|lia].
    rewrite !andb_true_iff, ident_eqb_eq, String.eqb_eq, !Z.leb_le in E.
    destruct E as [[<- <-] Hs].
    apply lab_free_no_session with (s := s) in Hfree; [|assumption].
    unfold lab_sessions_at in Hfree. lia.
Qed.

Lemma spec_create_individual_conflict_free (self : Engine) (fuel : nat) :
  spec True (create_individual self fuel) conflict_free.
Proof.
  apply spec_create_individual.
  - now left.
  - intros cs ind l. apply conflict_free_lecture.
  - intros batch cs ind p. apply conflict_free_practical.
  - intros batch ind m. apply conflict_free_mentoring.
  - apply conflict_free_empty.
Qed.

(** X1.  In a candidate [create_individual] returns, a faculty member (an
    id that is not None or 0) has at most one session at any day and slot,
    counting lectures, mentoring sessions and both slots of a practical. *)
Theorem create_individual_faculty_never_double_booked :
  forall (self : Engine) (fuel : nat) (g g' : Rng) (ind : individual),
    create_individual self fuel g = Ok ind g' ->
    forall (f : ident) (d : string) (s : Z),
      truthy f = true -> faculty_sessions_at ind f d s <= 1.
Proof.
  intros self fuel g g' ind Hrun.
  apply (spec_Ok True (create_individual self fuel) _ g ind g'
                 (spec_create_individual_conflict_free self fuel) Hrun).
Qed.

(** X2.  In a candidate [create_individual] returns, a room holds at most
    one lecture or mentoring session at any day and slot, and at most one
    practical covers any slot of a day in a room. *)
Theorem create_individual_rooms_never_double_booked :
  forall (self : Engine) (fuel : nat) (g g' : Rng) (ind : individual),
    create_individual self fuel g = Ok ind g' ->
    forall (r : ident) (d : string) (s : Z),
      classroom_sessions_at ind r d s <= 1 /\ lab_sessions_at ind r d s <= 1.
Proof.
  intros self fuel g g' ind Hrun r d s.
  destruct (spec_Ok True (create_individual self fuel) _ g ind g'
                    (spec_create_individual_conflict_free self fuel) Hrun)
    as (_ & Hroom & Hlab).
  split; [apply Hroom|apply Hlab].
Qed.

Lemma small_term_returns :
  create_individual (init small_term) 100 scrambled_tape =
  Ok small_term_individual {| tape := tape scrambled_tape; pos := 26 |}.
Proof. vm_compute. reflexivity. Qed.

Lemma create_individual_faculty_never_double_booked_witness :
  truthy (Some 1) = true
  /\ faculty_sessions_at small_term_individual (Some 1) "Monday" 5 <= 1.
Proof.
  split; [reflexivity|].
  exact (create_individual_faculty_never_double_booked
           (init small_term) 100 scrambled_tape _ _ small_term_returns
           (Some 1) "Monday" 5 eq_refl).
Defined.

Lemma create_individual_rooms_never_double_booked_witness :
  classroom_sessions_at small_term_individual (Some 2) "Tuesday" 4 <= 1
  /\ lab_sessions_at small_term_individual (Some 2) "Tuesday" 4 <= 1.
Proof.
  exact (create_individual_rooms_never_double_booked
           (init small_term) 100 scrambled_tape _ _ small_term_returns
           (Some 2) "Tuesday" 4).
Defined.

(* ------------------------------------------------------------------ *)
(** ** The builder returns complete candidates *)

Lemma spec_for_each_le {S A St} (E : Prop) (l : list A)
      (body : A -> St -> M S St) (Inv : St -> Prop) (c : St -> Z)
      (delta : A -> Z) :
  (forall x st, In x l -> Inv st ->
                spec E (body x st) (fun st' => Inv st' /\ c st' <= c st + delta x)) ->
  forall st, Inv st ->
             spec E (for_each l body st)
                  (fun st' => Inv st' /\ c st' <= c st + sumZ delta l).
Proof.
  induction l as [|x l IH]; intros Hbody st Hst; simpl.
  - apply spec_ret. split; [assumption|lia].
  - eapply spec_bind.
    + apply Hbody; [now left|assumption].
    + intros st1 [H1 Hc1]. simpl in *.
      eapply spec_weaken.
      * apply IH; [|exact H1]. intros y st' Hy. apply Hbody. now right.
      * intros st2 [H2 Hc2]. simpl in *. split; [assumption|lia].
Qed.

Lemma sumZ_const {A} (c : Z) (l : list A) :
  sumZ (fun _ => c) l = Z.of_nat (length l) * c.
Proof. induction l as [|x l IH]; simpl sumZ; simpl length; [lia|]. rewrite IH. lia. Qed.


Section Completeness.
Variable self : Engine.
Variable E : Prop.
Hypothesis HE : E \/ standard_config self.

(** The lecture loop returns only with all its sessions placed. *)
Lemma spec_schedule_lectures_count (group : lecture -> bool)
      (wanted : ClassSubject -> bool) (ind0 : individual) (cs : ClassSubject) :
  (forall ind l, lecture_placed self cs ind l -> group l = wanted cs) ->
  forall fuel scheduled ind,
    only_lectures_differ ind0 ind ->
    spec E (schedule_lectures self fuel cs scheduled ind)
         (fun ind' =>
            only_lectures_differ ind0 ind'
            /\ count_where group (lectures ind') =
               count_where group (lectures ind)
               + (if wanted cs
                  then Z.max 0 (lecture_slots_per_week cs - scheduled)
                  else 0)).
Proof.
  intros Hgroup fuel.
  induction fuel as [|fuel IH]; intros scheduled ind Hind; simpl;
    destruct (Z.ltb_spec scheduled (lecture_slots_per_week cs)).
  - apply spec_diverge.
  - apply spec_ret. split; [assumption|]. destruct (wanted cs); lia.
  - eapply spec_bind; [apply spec_try_lecture, HE|].
    intros [l|] Hl; simpl in Hl.
    + eapply spec_weaken.
      * apply (IH (scheduled + 1) (append_lecture ind l)). exact Hind.
      * intros ind' [Hinv Hc]. split; [assumption|]. rewrite Hc.
        simpl. rewrite count_where_snoc, (Hgroup _ _ Hl).
        destruct (wanted cs); lia.
    + now apply IH.
  - apply spec_ret. split; [assumption|]. destruct (wanted cs); lia.
Qed.

(** So does the practical loop. *)
Lemma spec_schedule_practicals_placed (group : practical -> bool)
      (wanted : Batch -> ClassSubject -> bool) (ind0 : individual)
      (batch : Batch) (cs : ClassSubject) :
  (forall ind p, practical_placed self batch cs ind p ->
                 group p = wanted batch cs) ->
  forall fuel scheduled ind,
    only_practicals_differ ind0 ind ->
    spec E (schedule_practicals self fuel batch cs scheduled ind)
         (fun ind' =>
            only_practicals_differ ind0 ind'
            /\ count_where group (practicals ind') =
               count_where group (practicals ind)
               + (if wanted batch cs
                  then Z.max 0 (practical_slots_per_week cs - scheduled)
                  else 0)).
Proof.
  intros Hgroup fuel.
  induction fuel as [|fuel IH]; intros scheduled ind Hind; simpl;
    destruct (Z.ltb_spec scheduled (practical_slots_per_week cs)).
  - apply spec_diverge.
  - apply spec_ret. split; [assumption|]. destruct (wanted batch cs); lia.
  - eapply spec_bind; [apply spec_try_practical, HE|].
    intros [p|] Hp; simpl in Hp.
    + eapply spec_weaken.
      * apply (IH (scheduled + 1) (append_practical ind p)). exact Hind.
      * intros ind' [Hinv Hc]. split; [assumption|]. rewrite Hc.
        simpl. rewrite count_where_snoc, (Hgroup _ _ Hp).
        destruct (wanted batch cs); lia.
    + now apply IH.
  - apply spec_ret. split; [assumption|]. destruct (wanted batch cs); lia.
Qed.

(** The mentoring loop appends one session or none. *)
Lemma spec_schedule_mentoring_count (ind0 : individual) (batch : Batch) :
  forall tries ind,
    only_mentorings_differ ind0 ind ->
    spec E (schedule_mentoring self tries batch ind)
         (fun ind' =>
            only_mentorings_differ ind0 ind'
            /\ Z.of_nat (length (mentorings ind'))
               <= Z.of_nat (length (mentorings ind)) + 1).
Proof.
  induction tries as [|tries IH]; intros ind Hind; simpl.
  - apply spec_ret. split; [assumption|lia].
  - eapply spec_bind; [apply spec_try_mentoring, HE|].
    intros [m|] Hm.
    + apply spec_ret. split; [exact Hind|]. simpl. rewrite length_app. simpl. lia.
    + now apply IH.
Qed.

Lemma spec_build_complete (fuel : nat) (group_l : lecture -> bool)
      (wanted_l : ClassSubject -> bool) (group_p : practical -> bool)
      (wanted_p : Batch -> ClassSubject -> bool) :
  (forall cs ind l, lecture_placed self cs ind l -> group_l l = wanted_l cs) ->
  (forall batch cs ind p, practical_placed self batch cs ind p ->
                          group_p p = wanted_p batch cs) ->
  spec E (build self fuel empty_individual)
       (fun ind =>
          count_where group_l (lectures ind)
          = sumZ (fun cs => if wanted_l cs
                            then Z.max 0 (lecture_slots_per_week cs) else 0)
                 (class_subjects self)
          /\ count_where group_p (practicals ind)
             = sumZ (fun batch =>
                       sumZ (fun cs => if wanted_p batch cs
                                       then Z.max 0 (practical_slots_per_week cs)
                                       else 0)
                            (class_subjects self))
                    (batches self)
          /\ Z.of_nat (length (mentorings ind))
             <= count_where (fun b => truthy (mentor_id b)) (batches self)).
Proof.
  intros Hl Hp. unfold build.
  eapply spec_bind.
  { apply (spec_for_each_count E (class_subjects self) _
             (only_lectures_differ empty_individual)
             (fun ind => count_where group_l (lectures ind))
             (fun cs => if wanted_l cs
                        then Z.max 0 (lecture_slots_per_week cs) else 0)).
    - intros cs st _ Hst. eapply spec_weaken.
      + apply (spec_schedule_lectures_count group_l wanted_l empty_individual
                 cs (Hl cs) fuel 0 st Hst).
      + intros ind' [H1 H2]. split; [assumption|].
        rewrite H2, Z.sub_0_r. reflexivity.
    - split; reflexivity. }
  intros ind1 [[Hp1 Hm1] Hc1]. simpl in Hp1, Hm1, Hc1.
  eapply spec_bind.
  { apply (spec_for_each_count E (batches self) _
             (only_practicals_differ ind1)
             (fun ind => count_where group_p (practicals ind))
             (fun batch =>
                sumZ (fun cs => if wanted_p batch cs
                                then Z.max 0 (practical_slots_per_week cs)
                                else 0)
                     (class_subjects self))).
    - intros batch st _ Hst.
      apply (spec_for_each_count E (class_subjects self) _
               (only_practicals_differ ind1)
               (fun ind => count_where group_p (practicals ind))
               (fun cs => if wanted_p batch cs
                          then Z.max 0 (practical_slots_per_week cs) else 0));
        [|exact Hst].
      intros cs st' _ Hst'. eapply spec_weaken.
      + apply (spec_schedule_practicals_placed group_p wanted_p ind1 batch cs
                 (Hp batch cs) fuel 0 st' Hst').
      + intros ind' [H1 H2]. split; [assumption|].
        rewrite H2, Z.sub_0_r. reflexivity.
    - split; reflexivity. }
  intros ind2 [[Hl2 Hm2] Hc2]. simpl in Hc2.
  eapply spec_weaken.
  { apply (spec_for_each_le E (batches self) _
             (only_mentorings_differ ind2)
             (fun ind => Z.of_nat (length (mentorings ind)))
             (fun b => if truthy (mentor_id b) then 1 else 0)).
    - intros batch st _ Hst. destruct (truthy (mentor_id batch)).
      + apply spec_schedule_mentoring_count. exact Hst.
      + apply spec_ret. split; [assumption|lia].
    - split; reflexivity. }
  intros ind3 [[Hl3 Hp3] Hc3]. simpl in Hc3.
  rewrite Hl3, Hp3, Hl2, Hc2, Hc1, Hp1. simpl.
  rewrite ?count_where_nil. split; [lia|]. split; [lia|].
  rewrite Hm2, Hm1 in Hc3. simpl in Hc3.
  assert (Hsum : sumZ (fun b : Batch => if truthy (mentor_id b) then 1 else 0)
                      (batches self)
                 = count_where (fun b => truthy (mentor_id b)) (batches self)).
  { clear. induction (batches self) as [|b l IH]; [reflexivity|].
    rewrite count_where_cons. simpl sumZ. rewrite IH. reflexivity. }
  lia.
Qed.
End Completeness.

Lemma spec_create_individual_complete (self : Engine) (fuel : nat)
      (group_l : lecture -> bool) (wanted_l : ClassSubject -> bool)
      (group_p : practical -> bool) (wanted_p : Batch -> ClassSubject -> bool) :
  standard_config self ->
  (forall cs ind l, lecture_placed self cs ind l -> group_l l = wanted_l cs) ->
  (forall batch cs ind p, practical_placed self batch cs ind p ->
                          group_p p = wanted_p batch cs) ->
  spec False (create_individual self fuel)
       (fun ind =>
          count_where group_l (lectures ind)
          = sumZ (fun cs => if wanted_l cs
                            then Z.max 0 (lecture_slots_per_week cs) else 0)
                 (class_subjects self)
          /\ count_where group_p (practicals ind)
             = sumZ (fun batch =>
                       sumZ (fun cs => if wanted_p batch cs
                                       then Z.max 0 (practical_slots_per_week cs)
                                       else 0)
                            (class_subjects self))
                    (batches self)
          /\ Z.of_nat (length (mentorings ind))
             <= count_where (fun b => truthy (mentor_id b)) (batches self)).
Proof.
  intros Hstd Hl Hp. unfold create_individual.
  change (build_attempts self fuel max_attempts empty_individual)
    with (try_except (build self fuel empty_individual)
            (fun _ => build_attempts self fuel 49 empty_individual)).
  apply spec_try_except_no_raise.
  apply spec_build_complete; [now right|assumption|assumption].
Qed.



(* ------------------------------------------------------------------ *)
(** ** The score *)

(** The four loops of [calculate_fitness] add up the four penalties. *)
Lemma calculate_fitness_penalties (self : Engine) (ind : individual) :
  calculate_fitness self ind =
  Z.max 0 (1000 - (overload_penalty ind
                   + double_booking_penalty ind
                   + under_provision_penalty self ind
                   + missing_mentoring_penalty self ind)).
Proof.
  unfold calculate_fitness. cbv zeta.
  rewrite overload_loop.
  match goal with
  | |- context [fold_left ?f (lectures ind) (overload_penalty ind, [])] =>
      pose proof (room_conflict_loop (lectures ind) (overload_penalty ind) [])
        as Hroom;
      cbv zeta in Hroom;
      destruct (fold_left f (lectures ind) (overload_penalty ind, []))
        as [pen2 rs] eqn:E
  end.
  assert (Hpen : pen2 = fst (pen2, rs)) by reflexivity.
  rewrite <- E in Hpen. clear E.
  assert (Hpen' := eq_trans Hpen Hroom). clear Hpen Hroom.
  cbn [fst dict_keys map app nodup length] in Hpen'. subst pen2.
  rewrite under_provision_loop.
  rewrite Z.max_comm. f_equal. f_equal.
  unfold double_booking_penalty, duplicate_occurrences,
    missing_mentoring_penalty, shortfall, count_where.
  rewrite length_map.
  destruct (_ <? _); lia.
Qed.

Lemma sumZ_nonneg {A} (f : A -> Z) (l : list A) :
  (forall x, In x l -> 0 <= f x) -> 0 <= sumZ f l.
Proof.
  induction l as [|x l IH]; intro H; simpl; [lia|].
  assert (0 <= f x) by (apply H; now left).
  assert (0 <= sumZ f l) by (apply IH; intros y Hy; apply H; now right).
  lia.
Qed.

Lemma sumZ_zero {A} (f : A -> Z) (l : list A) :
  (forall x, In x l -> f x = 0) -> sumZ f l = 0.
Proof.
  induction l as [|x l IH]; intro H; simpl; [reflexivity|].
  rewrite (H x) by now left. rewrite IH; [reflexivity|].
  intros y Hy. apply H. now right.
Qed.

Lemma sumZ_term {A} (f : A -> Z) (l : list A) (x : A) :
  (forall y, In y l -> 0 <= f y) -> In x l -> f x <= sumZ f l.
Proof.
  induction l as [|y l IH]; intros H Hx; [contradiction|]. simpl.
  assert (0 <= f y) by (apply H; now left).
  assert (0 <= sumZ f l) by (apply sumZ_nonneg; intros z Hz; apply H; now right).
  destruct Hx as [->|Hx]; [lia|].
  assert (f x <= sumZ f l) by (apply IH; [intros z Hz; apply H; now right|assumption]).
  lia.
Qed.

Lemma shortfall_nonneg (actual required : Z) : 0 <= shortfall actual required.
Proof. unfold shortfall. destruct (Z.ltb_spec actual required); lia. Qed.

Lemma overload_penalty_nonneg (ind : individual) : 0 <= overload_penalty ind.
Proof.
  unfold overload_penalty. apply sumZ_nonneg. intros f _. cbv zeta.
  destruct (Z.ltb_spec 20 (weekly_load ind f)); lia.
Qed.

Lemma nodup_length_le {A} (dec : forall x y : A, {x = y} + {x <> y})
      (l : list A) :
  (length (nodup dec l) <= length l)%nat.
Proof.
  induction l as [|x l IH]; simpl; [lia|].
  destruct (in_dec dec x l); simpl; lia.
Qed.

Lemma double_booking_penalty_nonneg (ind : individual) :
  0 <= double_booking_penalty ind.
Proof.
  unfold double_booking_penalty, duplicate_occurrences.
  pose proof (nodup_length_le room_key_eq_dec (map lecture_key (lectures ind))).
  lia.
Qed.

Lemma under_provision_penalty_nonneg (self : Engine) (ind : individual) :
  0 <= under_provision_penalty self ind.
Proof.
  unfold under_provision_penalty. apply sumZ_nonneg. intros cs _. cbv zeta.
  match goal with
  | |- 0 <= shortfall ?a ?b * 30 + shortfall ?c ?d * 40 =>
      pose proof (shortfall_nonneg a b); pose proof (shortfall_nonneg c d)
  end.
  lia.
Qed.

Lemma missing_mentoring_penalty_nonneg (self : Engine) (ind : individual) :
  0 <= missing_mentoring_penalty self ind.
Proof.
  unfold missing_mentoring_penalty.
  match goal with
  | |- 0 <= shortfall ?a ?b * 100 => pose proof (shortfall_nonneg a b)
  end.
  lia.
Qed.

(** X4.  The score [calculate_fitness] gives lies between 0 and 1000, and is
    1000 exactly when the candidate incurs none of the four penalties:
    no faculty above 20 hours, no repeated lecture (room, day, slot), no
    subject short of lectures or practicals, no mentoring session missing. *)
Theorem calculate_fitness_range :
  forall (self : Engine) (ind : individual),
    0 <= calculate_fitness self ind <= 1000
    /\ (calculate_fitness self ind = 1000 <->
        overload_penalty ind = 0
        /\ double_booking_penalty ind = 0
        /\ under_provision_penalty self ind = 0
        /\ missing_mentoring_penalty self ind = 0).
Proof.
  intros self ind. rewrite calculate_fitness_penalties.
  pose proof (overload_penalty_nonneg ind).
  pose proof (double_booking_penalty_nonneg ind).
  pose proof (under_provision_penalty_nonneg self ind).
  pose proof (missing_mentoring_penalty_nonneg self ind).
  split; [lia|]. split; [intro Hmax|intros (-> & -> & -> & ->)]; lia.
Qed.

Lemma count_where_Permutation {A} (f : A -> bool) (l l' : list A) :
  Permutation l l' -> count_where f l = count_where f l'.
Proof.
  induction 1; rewrite ?count_where_cons; lia.
Qed.

Lemma filter_Permutation {A} (f : A -> bool) (l l' : list A) :
  Permutation l l' -> Permutation (filter f l) (filter f l').
Proof.
  induction 1; simpl.
  - constructor.
  - destruct (f x); [now constructor|assumption].
  - destruct (f x), (f y); try apply Permutation_refl. apply perm_swap.
  - eapply Permutation_trans; eassumption.
Qed.

Lemma nodup_Permutation {A} (dec : forall x y : A, {x = y} + {x <> y})
      (l l' : list A) :
  Permutation l l' -> Permutation (nodup dec l) (nodup dec l').
Proof.
  intro H. apply NoDup_Permutation; try apply NoDup_nodup.
  intro x. rewrite !nodup_In. split; apply Permutation_in;
    [assumption|now apply Permutation_sym].
Qed.

(** X5.  The score does not depend on the order of the sessions in the three
    lists of a candidate. *)
Theorem calculate_fitness_order_independent :
  forall (self : Engine) (ind ind' : individual),
    Permutation (lectures ind) (lectures ind') ->
    Permutation (practicals ind) (practicals ind') ->
    Permutation (mentorings ind) (mentorings ind') ->
    calculate_fitness self ind = calculate_fitness self ind'.
Proof.
  intros self ind ind' Hl Hp Hm. rewrite !calculate_fitness_penalties.
  assert (Hload : forall f, weekly_load ind f = weekly_load ind' f).
  { intro f. unfold weekly_load.
    now rewrite (count_where_Permutation _ _ _ Hl),
      (count_where_Permutation _ _ _ Hp), (count_where_Permutation _ _ _ Hm). }
  assert (Hover : overload_penalty ind = overload_penalty ind').
  { unfold overload_penalty.
    rewrite (sumZ_Permutation _ (faculty_of ind) (faculty_of ind')).
    - apply sumZ_ext_in. intros f _. cbv zeta. now rewrite Hload.
    - unfold faculty_of. apply nodup_Permutation, filter_Permutation.
      repeat apply Permutation_app; now apply Permutation_map. }
  assert (Hdup : double_booking_penalty ind = double_booking_penalty ind').
  { unfold double_booking_penalty, duplicate_occurrences.
    assert (Hk : Permutation (map lecture_key (lectures ind))
                             (map lecture_key (lectures ind')))
      by now apply Permutation_map.
    rewrite (Permutation_length Hk).
    now rewrite (Permutation_length (nodup_Permutation room_key_eq_dec _ _ Hk)). }
  assert (Hunder : under_provision_penalty self ind
                   = under_provision_penalty self ind').
  { unfold under_provision_penalty. apply sumZ_ext_in. intros cs _. cbv zeta.
    now rewrite (count_where_Permutation _ _ _ Hl),
      (count_where_Permutation _ _ _ Hp). }
  assert (Hmiss : missing_mentoring_penalty self ind
                  = missing_mentoring_penalty self ind').
  { unfold missing_mentoring_penalty. now rewrite (Permutation_length Hm). }
  now rewrite Hover, Hdup, Hunder, Hmiss.
Qed.

Lemma calculate_fitness_order_independent_witness :
  calculate_fitness (init small_term) small_term_individual
  = calculate_fitness (init small_term)
      {| lectures := rev (lectures small_term_individual);
         practicals := rev (practicals small_term_individual);
         mentorings := rev (mentorings small_term_individual) |}.
Proof.
  apply (calculate_fitness_order_independent (init small_term)
           small_term_individual
           {| lectures := rev (lectures small_term_individual);
              practicals := rev (practicals small_term_individual);
              mentorings := rev (mentorings small_term_individual) |});
    apply Permutation_rev.
Defined.

Lemma shortfall_met (actual required : Z) :
  required <= actual -> shortfall actual required = 0.
Proof. intro H. unfold shortfall. destruct (Z.ltb_spec actual required); lia. Qed.

(** X6.  Under the configuration of [app.config] and with at least one
    batch, a candidate fresh from [create_individual] is scored 1000 minus
    the faculty-overload and missing-mentoring penalties only: it has no
    repeated lecture room and no subject short of lectures or practicals. *)
Theorem create_individual_fitness :
  forall (self : Engine) (fuel : nat) (g g' : Rng) (ind : individual),
    standard_config self ->
    batches self <> [] ->
    create_individual self fuel g = Ok ind g' ->
    double_booking_penalty ind = 0
    /\ under_provision_penalty self ind = 0
    /\ calculate_fitness self ind =
       Z.max 0 (1000 - (overload_penalty ind
                        + missing_mentoring_penalty self ind)).
Proof.
  intros self fuel g g' ind Hstd Hbatches Hrun.
  assert (Hdup : double_booking_penalty ind = 0).
  { assert (Hnd : rooms_conflict_free ind).
    { apply (spec_Ok True (create_individual self fuel) _ g ind g');
        [|assumption].
      apply spec_create_individual.
      - now left.
      - intros cs ind0 l. apply rooms_conflict_free_lecture.
      - intros batch cs ind0 p H _. exact H.
      - intros batch ind0 m H _. exact H.
      - constructor. }
    unfold double_booking_penalty, duplicate_occurrences.
    rewrite (nodup_fixed_point room_key_eq_dec Hnd). lia. }
  assert (Hunder : under_provision_penalty self ind = 0).
  { unfold under_provision_penalty. apply sumZ_zero. intros cs Hcs. cbv zeta.
    destruct (spec_Ok False _ _ g ind g'
                (spec_create_individual_complete self fuel
                   (fun l => ident_eqb (l_subject_id l) (cs_subject_id cs))
                   (fun cs' => ident_eqb (cs_subject_id cs') (cs_subject_id cs))
                   (fun p => ident_eqb (p_subject_id p) (cs_subject_id cs))
                   (fun _ cs' => ident_eqb (cs_subject_id cs') (cs_subject_id cs))
                   Hstd
                   (fun cs' ind0 l Hl =>
                      f_equal (fun s => ident_eqb s (cs_subject_id cs))
                        (proj1 (proj2 (proj2 (proj2 (proj2 Hl))))))
                   (fun batch cs' ind0 p Hp =>
                      f_equal (fun s => ident_eqb s (cs_subject_id cs))
                        (proj1 (proj2 (proj2 (proj2 (proj2 Hp)))))))
                Hrun) as (Hlec & Hprac & _).
    rewrite Hlec, Hprac. clear Hlec Hprac.
    rewrite sumZ_const.
    set (lec := fun cs' : ClassSubject =>
                  if ident_eqb (cs_subject_id cs') (cs_subject_id cs)
                  then Z.max 0 (lecture_slots_per_week cs') else 0).
    set (prac := fun cs' : ClassSubject =>
                   if ident_eqb (cs_subject_id cs') (cs_subject_id cs)
                   then Z.max 0 (practical_slots_per_week cs') else 0).
    assert (Hl : lec cs <= sumZ lec (class_subjects self)).
    { apply sumZ_term; [|assumption]. intros y _. unfold lec.
      destruct (ident_eqb _ _); lia. }
    assert (Hp : prac cs <= sumZ prac (class_subjects self)).
    { apply sumZ_term; [|assumption]. intros y _. unfold prac.
      destruct (ident_eqb _ _); lia. }
    unfold lec at 1 in Hl. unfold prac at 1 in Hp.
    rewrite ident_eqb_refl in Hl, Hp.
    assert (Hn : 1 <= Z.of_nat (length (batches self))).
    { destruct (batches self); [contradiction|simpl length; lia]. }
    rewrite !shortfall_met; [reflexivity| |]; nia. }
  split; [assumption|]. split; [assumption|].
  rewrite calculate_fitness_penalties, Hdup, Hunder. f_equal. lia.
Qed.

Lemma create_individual_fitness_witness :
  standard_config (init small_term)
  /\ batches (init small_term) <> []
  /\ calculate_fitness (init small_term) small_term_individual = 1000.
Proof.
  assert (Hstd : standard_config (init small_term))
    by (split; [reflexivity|split; reflexivity]).
  assert (Hb : batches (init small_term) <> []) by discriminate.
  split; [exact Hstd|]. split; [exact Hb|].
  rewrite (proj2 (proj2 (create_individual_fitness (init small_term) 100
                           scrambled_tape _ _ Hstd Hb small_term_returns))).
  reflexivity.
Defined.

(* ------------------------------------------------------------------ *)
(** ** What [save_to_database] leaves in the tables *)

Lemma filter_all {A} (f : A -> bool) (l : list A) :
  (forall x, In x l -> f x = true) -> filter f l = l.
Proof.
  induction l as [|x l IH]; intro H; simpl; [reflexivity|].
  rewrite (H x) by now left. f_equal. apply IH. intros y Hy. apply H. now right.
Qed.

Lemma filter_none {A} (f : A -> bool) (l : list A) :
  (forall x, In x l -> f x = false) -> filter f l = [].
Proof.
  induction l as [|x l IH]; intro H; simpl; [reflexivity|].
  rewrite (H x) by now left. apply IH. intros y Hy. apply H. now right.
Qed.

Lemma filter_filter_negb {A} (f : A -> bool) (l : list A) :
  filter f (filter (fun x => negb (f x)) l) = [].
Proof.
  apply filter_none. intros x Hx. apply filter_In in Hx.
  destruct Hx as [_ Hx]. now destruct (f x).
Qed.

Lemma filter_idem {A} (f : A -> bool) (l : list A) :
  filter f (filter f l) = filter f l.
Proof. apply filter_all. intros x Hx. now apply filter_In in Hx. Qed.

Lemma solution_rows_class (c : Z) (self : Engine) (solution : individual) :
  forall row, In row (solution_rows c self solution) -> t_class_id row = c.
Proof.
  intros row Hin. unfold solution_rows in Hin.
  rewrite !in_app_iff, !in_map_iff in Hin.
  destruct Hin as [(x & <- & _)|[(x & <- & _)|(x & <- & _)]]; reflexivity.
Qed.

(** The run of [save_to_database] on a solution without mentoring
    sessions. *)
Lemma save_to_database_Ok (c : Z) (self : Engine) (solution : individual)
      (db : Database) :
  mentorings solution = [] ->
  save_to_database c self solution db =
  Ok true
     (let tables :=
        {| timetable := rows_of_others c (timetable (session db))
                        ++ solution_rows c self solution;
           practical_slot := slots_of_others c (practical_slot (session db))
                             ++ map (practical_slot_row c) (practicals solution) |}
      in {| stored := tables; session := tables |}).
Proof.
  intro Hm. unfold save_to_database.
  unfold bind at 1. simpl. unfold bind at 1. simpl. unfold bind at 1. simpl.
  unfold bind at 1. rewrite add_rows_Ok.
  unfold bind at 1. rewrite add_practicals_Ok.
  unfold bind at 1. rewrite Hm. simpl for_each_. unfold ret at 1.
  unfold bind at 1. rewrite add_rows_Ok.
  unfold bind, commit, ret, with_timetable, solution_rows,
    rows_of_others, slots_of_others. simpl.
  now rewrite <- !app_assoc.
Qed.

(** The run of [save_to_database] on a solution with a mentoring session. *)
Lemma save_to_database_Raise (c : Z) (self : Engine) (solution : individual)
      (db : Database) :
  mentorings solution <> [] ->
  save_to_database c self solution db =
  Raise NameError
     {| stored :=
          {| timetable := rows_of_others c (timetable (session db));
             practical_slot := slots_of_others c (practical_slot (session db)) |};
        session :=
          {| timetable := (rows_of_others c (timetable (session db))
                           ++ map (lecture_row c) (lectures solution))
                          ++ map (practical_row c) (practicals solution);
             practical_slot := slots_of_others c (practical_slot (session db))
                               ++ map (practical_slot_row c) (practicals solution) |} |}.
Proof.
  intro Hm. destruct (mentorings solution) as [|m l] eqn:E; [contradiction|].
  unfold save_to_database.
  unfold bind at 1. simpl. unfold bind at 1. simpl. unfold bind at 1. simpl.
  unfold bind at 1. rewrite add_rows_Ok.
  unfold bind at 1. rewrite add_practicals_Ok.
  unfold bind at 1. rewrite E, add_mentorings_raises.
  reflexivity.
Qed.



(** X8.  When the solution has a mentoring session, [save_to_database]
    raises after its first commit: the class is left with no stored
    timetable row and no stored practical slot, whatever it had before, and
    the rows of the other classes are as they were. *)
Theorem save_to_database_failure_clears_class :
  forall (c : Z) (self : Engine) (solution : individual) (db : Database),
    mentorings solution <> [] ->
    exists db',
      save_to_database c self solution db = Raise NameError db'
      /\ rows_of_class c (timetable (stored db')) = []
      /\ slots_of_class c (practical_slot (stored db')) = []
      /\ rows_of_others c (timetable (stored db'))
         = rows_of_others c (timetable (session db))
      /\ slots_of_others c (practical_slot (stored db'))
         = slots_of_others c (practical_slot (session db)).
Proof.
  intros c self sol db Hm. eexists.
  split; [now apply save_to_database_Raise|]. simpl.
  unfold rows_of_class, rows_of_others, slots_of_class, slots_of_others.
  now rewrite !filter_filter_negb, !filter_idem.
Qed.

Lemma save_to_database_failure_clears_class_witness :
  exists db',
    save_to_database 1 (init small_term) small_term_individual
                     two_class_database = Raise NameError db'
    /\ timetable (stored db') = [lecture_row 2 (sample_lecture 2 "Monday" 0)].
Proof.
  assert (Hm : mentorings small_term_individual <> []) by discriminate.
  destruct (save_to_database_failure_clears_class 1 (init small_term)
              small_term_individual two_class_database Hm)
    as (db' & Hrun & _).
  exists db'. split; [exact Hrun|].
  assert (Hdb : Raise NameError db'
                = save_to_database 1 (init small_term) small_term_individual
                    two_class_database :> outcome Database bool)
    by (symmetry; exact Hrun).
  vm_compute in Hdb. inversion Hdb. reflexivity.
Defined.

(* ------------------------------------------------------------------ *)
(** ** [evolve] under the configuration of [app.config] *)

Lemma spec_with_rng {A} (E : Prop) (c : M Rng A) (Q : A -> Prop) :
  spec E c Q -> spec E (with_rng c) Q.
Proof.
  intros H w. unfold with_rng. specialize (H (rng w)).
  destruct (c (rng w)); assumption.
Qed.

Lemma spec_always {S A} (c : M S A) : spec True c (fun _ => True).
Proof. intro s. destruct (c s); exact I. Qed.

(** The builder hands every exception of a pass to its handler. *)
Lemma spec_build_attempts_no_raise (E : Prop) (self : Engine)
      (fuel attempts : nat) :
  forall ind, spec E (build_attempts self fuel attempts ind) (fun _ => True).
Proof.
  induction attempts as [|attempts IH]; intro ind; simpl.
  - now apply spec_ret.
  - apply spec_try_except; [apply spec_always|]. intros _. apply IH.
Qed.

Lemma spec_new_individual (E : Prop) (self : Engine) (fuel : nat) :
  spec E (new_individual self fuel) (fun _ => True).
Proof.
  unfold new_individual. eapply spec_bind.
  - apply spec_with_rng. unfold create_individual.
    apply spec_build_attempts_no_raise.
  - intros ind _ w. unfold alloc_individual, alloc_list. exact I.
Qed.

Lemma spec_random_random (E : Prop) : spec E random_random (fun _ => True).
Proof. intro g. exact I. Qed.

Lemma spec_randint (E : Prop) (a b : Z) :
  a <= b -> spec E (randint a b) (fun i => a <= i <= b).
Proof.
  intros Hab g. unfold randint.
  destruct (Z.ltb_spec b a); [lia|].
  unfold bind, randbelow, ret.
  assert (Hn : Z.to_nat (b - a + 1) <> 0%nat) by lia.
  pose proof (Nat.mod_upper_bound (tape g (pos g)) _ Hn). lia.
Qed.

Lemma getitem_in_range {A} (l : list A) (i : Z) :
  0 <= i < Z.of_nat (length l) -> getitem l i <> None.
Proof.
  intros Hi. unfold getitem. destruct (Z.leb_spec 0 i); [|lia].
  apply nth_error_Some. lia.
Qed.

(** Under the configuration of [app.config] no step of [mutate] raises. *)
Lemma spec_mutate (self : Engine) (ind : individual_ref) :
  standard_config self -> spec False (mutate self ind) (fun ind' => ind' = ind).
Proof.
  intros (Hdays & Htimes & Hslots). unfold mutate.
  destruct (lectures ind) as [|l0 ls] eqn:El; [now apply spec_ret|].
  cbn [is_empty].
  eapply spec_bind; [apply spec_with_rng, spec_random_random|]. intros r _.
  destruct (Qltb r (3 # 10)); [|now apply spec_ret].
  eapply spec_bind.
  { apply spec_with_rng, spec_randint. simpl length. lia. }
  intros idx Hidx. cbv beta in Hidx.
  eapply spec_bind.
  { apply spec_getitem. right. apply getitem_in_range. lia. }
  intros lecture _.
  eapply spec_bind; [apply spec_with_rng, spec_random_random|]. intros r' _.
  destruct (Qltb r' (1 # 2)).
  - eapply spec_bind.
    { apply spec_with_rng, spec_choice. right. rewrite Hdays. discriminate. }
    intros day _ w. exact (eq_refl ind).
  - eapply spec_bind.
    { apply spec_with_rng, spec_choice. right. rewrite Hslots. discriminate. }
    intros new_slot Hnew.
    apply filter_In in Hnew. destruct Hnew as [Hnew _]. rewrite Hslots in Hnew.
    assert (Hget : getitem (time_slots self) new_slot <> None).
    { rewrite Htimes. simpl in Hnew.
      repeat (destruct Hnew as [<-|Hnew]; [discriminate|]). contradiction. }
    intro w. unfold bind, read_lecture, write_lecture, getitem_m.
    destruct (getitem (time_slots self) new_slot); [|contradiction].
    exact (eq_refl ind).
Qed.

Lemma spec_select_parents (E : Prop) (self : Engine) (fuel : nat)
      (fs : list (Z * individual_ref)) :
  spec E (select_parents self fuel fs) (fun _ => True).
Proof.
  unfold select_parents. destruct (Nat.ltb_spec 10 (length fs)) as [Hlen|Hlen].
  - assert (Hne : slice_to fs 10 <> []).
    { unfold slice_to. destruct fs; [simpl in Hlen; lia|discriminate]. }
    eapply spec_bind; [apply spec_with_rng, spec_choice; now right|].
    intros p1 _.
    eapply spec_bind; [apply spec_with_rng, spec_choice; now right|].
    intros p2 _. now apply spec_ret.
  - eapply spec_bind with (Q := fun _ => True).
    { destruct fs; [apply spec_new_individual|now apply spec_ret]. }
    intros p1 _.
    eapply spec_bind with (Q := fun _ => True).
    { destruct fs as [|x [|y fs']];
        [apply spec_new_individual|apply spec_new_individual|now apply spec_ret]. }
    intros p2 _. now apply spec_ret.
Qed.

(** The reproduction loop fills the next generation up to
    [population_size]. *)
Lemma spec_offspring (self : Engine) (fuel population_size : nat)
      (mutation_rate : Q) (fs : list (Z * individual_ref)) :
  standard_config self ->
  forall passes ng,
    spec False
         (offspring self fuel population_size mutation_rate fs passes ng)
         (fun ng' => length ng' = Nat.max population_size (length ng)).
Proof.
  intros Hstd passes.
  induction passes as [|passes IH]; intro ng; simpl;
    destruct (Nat.ltb_spec (length ng) population_size).
  - apply spec_diverge.
  - apply spec_ret. lia.
  - eapply spec_bind; [apply spec_select_parents|]. intros parents _.
    eapply spec_bind; [apply spec_with_rng, spec_random_random|]. intros r _.
    eapply spec_bind with (Q := fun _ => True).
    { destruct (Qltb r mutation_rate).
      - eapply spec_weaken; [now apply spec_mutate|trivial].
      - now apply spec_ret. }
    intros child _. eapply spec_weaken; [apply IH|].
    intros ng' Hng'. rewrite Hng', length_app. simpl. lia.
  - apply spec_ret. lia.
Qed.

Lemma length_insert_desc {A} (x : Z * A) (l : list (Z * A)) :
  length (insert_desc x l) = S (length l).
Proof.
  induction l as [|y l IH]; simpl; [reflexivity|].
  destruct (fst x <? fst y); simpl; [now rewrite IH|reflexivity].
Qed.

Lemma length_sort_desc {A} (l : list (Z * A)) :
  length (sort_desc l) = length l.
Proof.
  induction l as [|x l IH]; simpl; [reflexivity|].
  now rewrite length_insert_desc, IH.
Qed.

(** A generation of a population that is not empty raises nothing; its
    population is filled up to [population_size] and a best is recorded. *)
Lemma spec_generation (self : Engine) (fuel population_size : nat)
      (mutation_rate : Q) (elite_size : nat) (ga : GA) :
  standard_config self -> population ga <> [] ->
  best_fitness ga = NegInf \/ best_solution ga <> None ->
  spec False
       (generation self fuel population_size mutation_rate elite_size ga)
       (fun ga' =>
          length (population ga')
          = Nat.max population_size
                    (Nat.min elite_size (length (population ga)))
          /\ best_solution ga' <> None).
Proof.
  intros Hstd Hne Hbest. unfold generation.
  apply spec_bind
    with (Q := fun fs : list (Z * individual_ref) =>
                 length fs = length (population ga)).
  { intro w. rewrite evaluate_Ok. apply length_map. }
  intros fs Hfs.
  assert (Hlen : length (sort_desc fs) = length (population ga))
    by now rewrite length_sort_desc.
  eapply spec_bind.
  { apply spec_getitem. right. apply getitem_in_range.
    rewrite Hlen. destruct (population ga); [contradiction|simpl length; lia]. }
  intros top _.
  apply spec_bind
    with (Q := fun ga1 : GA => best_solution ga1 <> None).
  { destruct (exceeds (fst top) (best_fitness ga)) eqn:Ex.
    - intro w. unfold bind, deepcopy.
      destruct (deepcopy_list no_lecture _ _ _) as [[ls lm] lh].
      destruct (deepcopy_list no_practical _ _ _) as [[ps pm] ph].
      destruct (deepcopy_list no_mentoring _ _ _) as [[ms mm] mh].
      simpl. discriminate.
    - apply spec_ret. destruct Hbest as [Hb|Hb]; [|assumption].
      rewrite Hb in Ex. discriminate. }
  intros ga1 Hga1.
  eapply spec_bind; [now apply spec_offspring|].
  intros ng Hng. apply spec_ret. simpl. split; [|assumption].
  rewrite Hng, length_map. unfold slice_to. rewrite length_firstn, Hlen.
  reflexivity.
Qed.

Lemma spec_generations_loop (self : Engine) (fuel population_size : nat)
      (mutation_rate : Q) (elite_size : nat) :
  standard_config self -> (1 <= population_size)%nat ->
  forall generations ga,
    length (population ga) = population_size ->
    best_fitness ga = NegInf \/ best_solution ga <> None ->
    spec False
         (generations_loop self fuel population_size mutation_rate elite_size
                           generations ga)
         (fun ga' =>
            length (population ga') = population_size
            /\ ((1 <= generations)%nat \/ best_solution ga <> None ->
                best_solution ga' <> None)).
Proof.
  intros Hstd Hpos generations.
  induction generations as [|n IH]; intros ga Hlen Hbest; simpl.
  - apply spec_ret. split; [assumption|]. intros [H|H]; [lia|assumption].
  - eapply spec_bind.
    { apply spec_generation; try assumption.
      destruct (population ga); [simpl in Hlen; lia|discriminate]. }
    intros ga1 [Hlen1 Hbest1]. eapply spec_weaken.
    + apply IH; [rewrite Hlen1, Hlen; lia|now right].
    + intros ga' [Hlen' Hbest']. split; [assumption|]. intros _.
      apply Hbest'. now right.
Qed.

Lemma spec_initial_population (E : Prop) (self : Engine) (fuel : nat) :
  forall n population,
    spec E (initial_population self fuel n population)
         (fun population' =>
            length population' = (n + length population)%nat).
Proof.
  induction n as [|n IH]; intro pop; simpl.
  - now apply spec_ret.
  - eapply spec_bind; [apply spec_new_individual|]. intros ind _.
    eapply spec_weaken; [apply IH|].
    intros pop' Hpop'. rewrite Hpop', length_app. simpl. lia.
Qed.

Lemma spec_evolve (self : Engine) (fuel population_size generations : nat)
      (mutation_rate : Q) (elite_size : nat) :
  standard_config self -> (1 <= population_size)%nat ->
  spec False
       (evolve self fuel population_size generations mutation_rate elite_size
               initial_ga)
       (fun ga' =>
          length (population ga') = population_size
          /\ ((1 <= generations)%nat -> best_solution ga' <> None)).
Proof.
  intros Hstd Hpos. unfold evolve.
  eapply spec_bind; [apply spec_initial_population|].
  intros pop Hpop. simpl in Hpop. eapply spec_weaken.
  - apply spec_generations_loop; try assumption.
    + simpl. lia.
    + now left.
  - intros ga' [Hlen Hbest]. split; [assumption|]. intro Hgen.
    apply Hbest. now left.
Qed.



(* ------------------------------------------------------------------ *)
(** ** The generation route *)

Lemma init_standard_config (db : Snapshot) : standard_config (init db).
Proof. split; [reflexivity|split; reflexivity]. Qed.

Lemma rows_after_save (c : Z) (self : Engine) (solution : individual)
      (old : list TimetableRow) :
  rows_of_class c (rows_of_others c old ++ solution_rows c self solution)
  = solution_rows c self solution
  /\ rows_of_others c (rows_of_others c old ++ solution_rows c self solution)
     = rows_of_others c old.
Proof.
  assert (Hrows : forall row, In row (solution_rows c self solution) ->
                              (t_class_id row =? c) = true).
  { intros row Hin. apply Z.eqb_eq. now apply solution_rows_class in Hin. }
  unfold rows_of_class, rows_of_others.
  rewrite !filter_app, filter_filter_negb, filter_idem.
  rewrite (filter_all _ _ Hrows).
  rewrite (filter_none (fun r => negb (t_class_id r =? c))
                       (solution_rows c self solution))
    by (intros row Hin; now rewrite (Hrows row Hin)).
  now rewrite app_nil_r.
Qed.

Lemma slots_after_save (c : Z) (ps : list practical)
      (old : list PracticalSlotRow) :
  slots_of_class c (slots_of_others c old ++ map (practical_slot_row c) ps)
  = map (practical_slot_row c) ps
  /\ slots_of_others c (slots_of_others c old ++ map (practical_slot_row c) ps)
     = slots_of_others c old.
Proof.
  assert (Hslots : forall row, In row (map (practical_slot_row c) ps) ->
                               (ps_class_id row =? c) = true).
  { intros row Hin. apply in_map_iff in Hin. destruct Hin as (x & <- & _).
    apply Z.eqb_refl. }
  unfold slots_of_class, slots_of_others.
  rewrite !filter_app, filter_filter_negb, filter_idem.
  rewrite (filter_all _ _ Hslots).
  rewrite (filter_none (fun r => negb (ps_class_id r =? c))
                       (map (practical_slot_row c) ps))
    by (intros row Hin; now rewrite (Hslots row Hin)).
  now rewrite app_nil_r.
Qed.

Lemma rows_after_delete (c : Z) (old : list TimetableRow) :
  rows_of_class c (rows_of_others c old) = []
  /\ rows_of_others c (rows_of_others c old) = rows_of_others c old.
Proof.
  unfold rows_of_class, rows_of_others.
  now rewrite filter_filter_negb, filter_idem.
Qed.

Lemma slots_after_delete (c : Z) (old : list PracticalSlotRow) :
  slots_of_class c (slots_of_others c old) = []
  /\ slots_of_others c (slots_of_others c old) = slots_of_others c old.
Proof.
  unfold slots_of_class, slots_of_others.
  now rewrite filter_filter_negb, filter_idem.
Qed.

(** The engine of the route either runs on or returns with a best
    solution recorded. *)
Lemma evolve_Ok_or_not (self : Engine) (fuel : nat) (w : World) :
  standard_config self ->
  evolve self fuel 20 30 (1 # 5) 5 initial_ga w = Diverge
  \/ exists attrs w',
      evolve self fuel 20 30 (1 # 5) 5 initial_ga w = Ok attrs w'
      /\ exists best,
          best_solution attrs = Some best
          /\ best_fitness attrs
             = Score (calculate_fitness self (deref (store w') best)).
Proof.
  intro Hstd.
  assert (Hpos : (1 <= 20)%nat) by lia.
  pose proof (spec_evolve self fuel 20 30 (1 # 5) 5 Hstd Hpos w) as Hspec.
  destruct (evolve self fuel 20 30 (1 # 5) 5 initial_ga w)
    as [attrs w'|e w'|] eqn:Hev; [|contradiction|now left].
  right. exists attrs, w'. split; [reflexivity|].
  destruct Hspec as [_ Hbest].
  destruct (evolve_Ok _ _ _ _ _ _ _ _ _ _ Hev (initial_ga_ok self (store w)))
    as [_ [_ Hok]].
  destruct (best_solution attrs) as [best|].
  - exists best. split; [reflexivity|]. apply Hok.
  - exfalso. apply Hbest; [lia|reflexivity].
Qed.

(** X10.  A run of [run_timetable_generation] for a class that exists and
    has a subject, with a room in the database, that comes to an end,
    redirects to the timetable view and ends in one of three ways: the
    success message, the class's stored rows being those of a solution
    without mentoring sessions that scores above 0; the error message for a
    [NameError], the class being left without any stored row; or the
    failure message with the database untouched.  The rows of the other
    classes are as they were. *)
Theorem run_timetable_generation_outcomes :
  forall (cat : Catalogue) (fuel : nat) (c : Z) (s s' : Site) (p : page),
    In c (class_ids cat) ->
    class_subjects_of cat c <> [] ->
    room_rows cat <> [] ->
    session (database s) = stored (database s) ->
    run_timetable_generation cat fuel c s = Done p s' ->
    p = view_timetable_page c
    /\ rows_of_others c (timetable (stored (database s')))
       = rows_of_others c (timetable (stored (database s)))
    /\ ((exists solution : individual,
            flashes s' = flashes s ++ [generated_successfully]
            /\ mentorings solution = []
            /\ 0 < calculate_fitness (init (snapshot_of cat c)) solution
            /\ rows_of_class c (timetable (stored (database s')))
               = solution_rows c (init (snapshot_of cat c)) solution
            /\ slots_of_class c (practical_slot (stored (database s')))
               = map (practical_slot_row c) (practicals solution))
        \/ (flashes s' = flashes s ++ [error_generating (Raised NameError)]
            /\ rows_of_class c (timetable (stored (database s'))) = []
            /\ slots_of_class c (practical_slot (stored (database s'))) = [])
        \/ (flashes s' = flashes s ++ [failed_to_generate]
            /\ database s' = database s)).
Proof.
  intros cat fuel c s s' p Hclass Hsubjects Hrooms Hsession Hrun.
  unfold run_timetable_generation, generation_attempt in Hrun.
  assert (Hex : existsb (Z.eqb c) (class_ids cat) = true).
  { apply existsb_exists. exists c. split; [assumption|apply Z.eqb_refl]. }
  rewrite Hex in Hrun. cbn [negb] in Hrun.
  destruct (class_subjects_of cat c) as [|cs0 css] eqn:Ecs; [contradiction|].
  destruct (room_rows cat) as [|r0 rs] eqn:Ers; [contradiction|].
  cbn [is_empty] in Hrun. cbv zeta in Hrun.
  set (ga := init (snapshot_of cat c)) in *.
  assert (Hpos : (1 <= 20)%nat) by lia.
  destruct (evolve_Ok_or_not ga fuel (world s) (init_standard_config _)) as [Hdiv|(attrs & w & Hev & best & Hbest & Hfit)].
  { rewrite Hdiv in Hrun. discriminate. }
  rewrite Hev, Hbest in Hrun.
  destruct (is_positive (best_fitness attrs)) eqn:Epos.
  - rewrite Hfit in Epos. simpl in Epos. apply Z.ltb_lt in Epos.
    destruct (mentorings (deref (store w) best)) as [|m ms] eqn:Em.
    + rewrite (save_to_database_Ok c ga _ _ Em) in Hrun. cbv zeta in Hrun.
      inversion Hrun; subst; clear Hrun.
      cbn [flash with_database with_world database stored session timetable
           practical_slot flashes].
      destruct (rows_after_save c ga (deref (store w) best)
                  (timetable (session (database s)))) as [Hrows Hothers].
      destruct (slots_after_save c (practicals (deref (store w) best))
                  (practical_slot (session (database s)))) as [Hslots _].
      split; [reflexivity|]. rewrite Hothers, Hsession.
      split; [reflexivity|].
      left. exists (deref (store w) best).
      split; [reflexivity|]. split; [assumption|]. split; [assumption|].
      split; [rewrite <- Hsession; exact Hrows|].
      rewrite <- Hsession. exact Hslots.
    + assert (Hne : mentorings (deref (store w) best) <> [])
        by (rewrite Em; discriminate).
      rewrite (save_to_database_Raise c ga _ _ Hne) in Hrun.
      inversion Hrun; subst; clear Hrun.
      cbn [flash with_database with_world database stored session timetable
           practical_slot flashes].
      destruct (rows_after_delete c (timetable (session (database s))))
        as [Hrows Hothers].
      destruct (slots_after_delete c (practical_slot (session (database s))))
        as [Hslots _].
      split; [reflexivity|]. rewrite Hothers, Hsession.
      split; [reflexivity|]. right. left.
      split; [reflexivity|]. rewrite <- Hsession. now split.
  - inversion Hrun; subst; clear Hrun.
    cbn [flash with_database with_world database flashes].
    split; [reflexivity|]. split; [reflexivity|]. right. right. now split.
Qed.
